(** * paper-search: the search orchestrator, the PDF enforcement stage and
      the message-driven consumer

    A shallow embedding of
      - app/services/websearch/search_orchestrator.py
      - app/services/pdf_processor.py
      - app/services/messaging/{handlers,consumer,connection}.py
      - app/services/websearch/config.py
    and the properties the specification states about them.

    Conventions of the embedding.
      - Python objects that the code only inspects are values of [PyVal];
        paper records are dictionaries that the code mutates in place, so
        they live in a store and the lists the code passes around are
        lists of references into it.
      - [await]ed code is a state transformer that either returns or
        raises: [M S A].  Service objects whose modules are outside the
        embedded files (provider clients, deduplication, enrichment,
        query refinement, B2 storage, PDF collector, the web-search
        agent) are arbitrary functions of an abstract world [W].
      - [asyncio.gather] runs its tasks in list order on the threaded
        state and collects every outcome.  The services are arbitrary, so
        every sequence of service replies that an interleaving could
        produce is the reply sequence of some choice of services and
        world; the code itself only reacts to those replies. *)

From Stdlib Require Import ZArith Lia Bool Ascii String.
From stdpp Require Import gmap strings list fin_maps sorting.

Set Warnings "-register-all".
Local Open Scope string_scope.
Local Open Scope list_scope.
Local Open Scope Z_scope.

(* ===================================================================== *)
(** * Python values, strings and exceptions *)
(* ===================================================================== *)

Module Py.

(** The values the embedded code inspects: JSON-like data, byte strings
    for downloaded content. *)
Inductive PyVal : Type :=
| VNone
| VBool (b : bool)
| VInt (z : Z)
| VStr (s : string)
| VBytes (b : list Byte.byte)
| VList (l : list PyVal)
| VDict (kvs : list (string * PyVal)).

(** [bool(v)]: the test behind [if v:], [not v], [v or d]. *)
Definition truthy (v : PyVal) : bool :=
  match v with
  | VNone => false
  | VBool b => b
  | VInt z => negb (z =? 0)
  | VStr s => negb (String.eqb s "")
  | VBytes b => match b with [] => false | _ => true end
  | VList l => match l with [] => false | _ => true end
  | VDict kvs => match kvs with [] => false | _ => true end
  end.

(** [a or b] *)
Definition py_or (a b : PyVal) : PyVal := if truthy a then a else b.

(** Exceptions (instances of [Exception]): the class decides which
    [except] clause catches, [str(e)] is the message. *)
Inductive ExcClass : Type :=
| TimeoutError      (* asyncio.TimeoutError *)
| AttributeError
| TypeError
| ValueError
| OtherError.       (* any other subclass of Exception *)

Record PyExc : Type := mkExc { exc_class : ExcClass; exc_str : string }.

Definition is_timeout (e : PyExc) : bool :=
  match exc_class e with TimeoutError => true | _ => false end.

Inductive Outcome (A : Type) : Type :=
| Returns (a : A)
| Raises (e : PyExc).
Arguments Returns {A} a.
Arguments Raises {A} e.

(** ** Strings *)

Definition lower_ascii (c : ascii) : ascii :=
  let n := nat_of_ascii c in
  if (Nat.leb 65 n && Nat.leb n 90)%bool then ascii_of_nat (n + 32) else c.

(** [s.lower()] on the ASCII range; other characters are kept. *)
Fixpoint lower (s : string) : string :=
  match s with
  | EmptyString => EmptyString
  | String c s' => String (lower_ascii c) (lower s')
  end.

(** [sub in s] for strings. *)
Fixpoint contains (sub s : string) : bool :=
  String.prefix sub s
  || match s with
     | EmptyString => false
     | String _ s' => contains sub s'
     end.

(** [s.count(sub)] for a non-empty [sub]: matches are taken left to
    right and do not overlap; [skip] is the number of characters still
    covered by the last match. *)
Fixpoint count_from (sub : string) (skip : nat) (s : string) : Z :=
  match s with
  | EmptyString => 0
  | String _ s' =>
      match skip with
      | S k => count_from sub k s'
      | O => if String.prefix sub s
             then 1 + count_from sub (Nat.pred (String.length sub)) s'
             else count_from sub O s'
      end
  end.

(** [s.count(sub)]; the empty string occurs [len(s) + 1] times. *)
Definition count (s sub : string) : Z :=
  match sub with
  | EmptyString => Z.of_nat (String.length s) + 1
  | _ => count_from sub O s
  end.

(** [sep.join(parts)] *)
Fixpoint join (sep : string) (parts : list string) : string :=
  match parts with
  | [] => ""
  | [p] => p
  | p :: rest => (p ++ sep ++ join sep rest)%string
  end.

(** [s.split(sep)[0]] for a one-character separator. *)
Fixpoint split_first (sep : ascii) (s : string) : string :=
  match s with
  | EmptyString => EmptyString
  | String c s' => if Ascii.eqb c sep then EmptyString
                   else String c (split_first sep s')
  end.

(** ** Lists *)

(** [l[:n]]: a negative bound counts from the end. *)
Definition slice_to {A} (l : list A) (n : Z) : list A :=
  if 0 <=? n then take (Z.to_nat n) l
  else take (length l - Z.to_nat (- n))%nat l.

(** The slices [l[i:i+step]] for [i in range(0, len(l), step)], [step > 0].
    [fuel] bounds the number of slices; [length l] is enough. *)
Fixpoint chunks_fuel {A} (fuel step : nat) (l : list A) : list (list A) :=
  match fuel with
  | O => []
  | S fuel' =>
      match l with
      | [] => []
      | _ => take step l :: chunks_fuel fuel' step (drop step l)
      end
  end.

Definition chunks {A} (step : nat) (l : list A) : list (list A) :=
  chunks_fuel (length l) step l.

(** ** Dictionaries held as values *)

(** [d.get(k)] on the key/value pairs of a [VDict]. *)
Fixpoint assoc (k : string) (kvs : list (string * PyVal)) : option PyVal :=
  match kvs with
  | [] => None
  | (k', v) :: rest => if String.eqb k' k then Some v else assoc k rest
  end.

End Py.
Import Py.

(* ===================================================================== *)
(** * Awaited code: state, result or exception *)
(* ===================================================================== *)

Module Run.

Definition M (S A : Type) : Type := S -> Outcome A * S.

Definition ret {S A} (a : A) : M S A := fun s => (Returns a, s).

Definition raise {S A} (e : PyExc) : M S A := fun s => (Raises e, s).

Definition bind {S A B} (m : M S A) (k : A -> M S B) : M S B :=
  fun s => match m s with
           | (Returns a, s') => k a s'
           | (Raises e, s') => (Raises e, s')
           end.

(** [try: m  except Exception as e: h e] *)
Definition try_except {S A} (m : M S A) (h : PyExc -> M S A) : M S A :=
  fun s => match m s with
           | (Returns a, s') => (Returns a, s')
           | (Raises e, s') => h e s'
           end.

(** Lift a value that is already a result or an exception. *)
Definition of_outcome {S A} (o : Outcome A) : M S A := fun s => (o, s).

Definition modify {S} (f : S -> S) : M S unit := fun s => (Returns tt, f s).

Definition gets {S A} (f : S -> A) : M S A := fun s => (Returns (f s), s).

(** [asyncio.gather] with [return_exceptions=True]: every task is
    run, an exception of a task becomes its entry in the result list. *)
Fixpoint gather {S A} (tasks : list (M S A)) : S -> list (Outcome A) * S :=
  fun s => match tasks with
           | [] => ([], s)
           | t :: rest =>
               let '(o, s1) := t s in
               let '(os, s2) := gather rest s1 in
               (o :: os, s2)
           end.

(** The outcome of [m] as a value: the body of a [try] whose [except]
    clauses are written as a [match]. *)
Definition outcome_of {S A} (m : M S A) : M S (Outcome A) :=
  fun s => let '(o, s') := m s in (Returns o, s').

Definition gather_m {S A} (tasks : list (M S A)) : M S (list (Outcome A)) :=
  fun s => let '(os, s') := gather tasks s in (Returns os, s').

End Run.
Import Run.

Declare Scope run_scope.
Delimit Scope run_scope with run.
Notation "x <- m ;; k" := (bind m (fun x => k))
  (at level 100, m at next level, right associativity) : run_scope.
Notation "m ;;; k" := (bind m (fun _ => k))
  (at level 100, right associativity) : run_scope.
Local Open Scope run_scope.

(* ===================================================================== *)
(** * Paper records and the state the pipeline runs on *)
(* ===================================================================== *)

Module Papers.

(** A paper is a [Dict[str, Any]] that the code mutates in place; lists
    of papers hold references to such dictionaries. *)
Definition Ref : Type := nat.

(** What the orchestrator awaits on the network side, in the order it
    happens: each [asyncio.wait_for] on a provider client, with the attempt
    number, the timeout and what the call yielded, and each
    [asyncio.sleep]. *)
Inductive Event : Type :=
| ApiAttempt (source : string) (attempt : Z) (timeout : Z)
             (yielded : Outcome (option (list Ref)))
| Sleep (seconds : Z).

Record St (W : Type) : Type := mkSt {
  heap : gmap nat (gmap string PyVal);
  world : W;
  trace : list Event;
}.
Arguments mkSt {W} heap world trace.
Arguments heap {W} _.
Arguments world {W} _.
Arguments trace {W} _.

(** The dictionary a reference points to. *)
Definition deref (h : gmap nat (gmap string PyVal)) (p : Ref) : gmap string PyVal :=
  default ∅ (h !! p).

Section Ops.
Context {W : Type}.

(** [paper[k] = v] *)
Definition set_item (p : Ref) (k : string) (v : PyVal) : M (St W) unit :=
  modify (fun s => mkSt (<[p := <[k := v]> (deref (heap s) p)]> (heap s))
                        (world s) (trace s)).

(** [paper.pop(k, None)] *)
Definition pop_item (p : Ref) (k : string) : M (St W) unit :=
  modify (fun s => mkSt (<[p := delete k (deref (heap s) p)]> (heap s))
                        (world s) (trace s)).

Definition emit (ev : Event) : M (St W) unit :=
  modify (fun s => mkSt (heap s) (world s) (trace s ++ [ev])).

(** A call into a service that sees the paper it is given and the
    world, and does not write paper records. *)
Definition call_on {A} (f : gmap string PyVal -> W -> Outcome A * W) (p : Ref)
  : M (St W) A :=
  fun s => let '(o, w') := f (deref (heap s) p) (world s) in
           (o, mkSt (heap s) w' (trace s)).

(** A call into a service that may also create and update paper
    records, and may raise. *)
Definition call_raising {A}
    (f : gmap nat (gmap string PyVal) -> W
         -> Outcome A * gmap nat (gmap string PyVal) * W)
  : M (St W) A :=
  fun s => let '(o, h', w') := f (heap s) (world s) in
           (o, mkSt h' w' (trace s)).
End Ops.

(** The content reference of a paper: a truthy ["pdfContentUrl"]. *)
Definition has_content (h : gmap nat (gmap string PyVal)) (p : Ref) : Prop :=
  exists v, deref h p !! "pdfContentUrl" = Some v /\ truthy v = true.

End Papers.
Import Papers.

(* ===================================================================== *)
(** * app/services/pdf_processor.py *)
(* ===================================================================== *)

Module PdfProcessor.

(** [app.services.b2_storage.b2_storage]; [upload_pdf content paper] is
    [upload_pdf(paper, pdf_content)]. *)
Record B2Storage (W : Type) : Type := {
  get_pdf_url : gmap string PyVal -> W -> Outcome PyVal * W;
  upload_pdf : PyVal -> gmap string PyVal -> W -> Outcome PyVal * W;
}.
Arguments get_pdf_url {W} _.
Arguments upload_pdf {W} _.

(** [app.services.pdf_collector.pdf_collector] *)
Record PdfCollector (W : Type) : Type := {
  collect_pdf : gmap string PyVal -> W -> Outcome PyVal * W;
}.
Arguments collect_pdf {W} _.

(** [class PDFProcessorService] *)
Record PDFProcessorService (W : Type) : Type := {
  b2_service : B2Storage W;
  pdf_collector : PdfCollector W;
}.
Arguments b2_service {W} _.
Arguments pdf_collector {W} _.

Section Service.
Context {W : Type} (self : PDFProcessorService W).

(** [paper.get('title', 'Unknown')[:50]], evaluated by every log line of
    [process_paper_pdf]: it raises when the stored title cannot be
    sliced. *)
Definition title_prefix (paper : Ref) : M (St W) unit :=
  d <- gets (fun s => deref (heap s) paper) ;;
  match default (VStr "Unknown") (d !! "title") with
  | VStr _ | VBytes _ | VList _ => ret tt
  | _ => raise (mkExc TypeError "object is not subscriptable")
  end.

(** [process_paper_pdf], lines 29-76. *)
Definition process_paper_pdf (paper : Ref) : M (St W) (option Ref) :=
  try_except
    (existing_url <- call_on (get_pdf_url (b2_service self)) paper ;;
     if truthy existing_url then
       title_prefix paper ;;;
       set_item paper "pdfContentUrl" existing_url ;;;
       pop_item paper "pdfContent" ;;;
       ret (Some paper)
     else
       title_prefix paper ;;;
       pdf_content <- call_on (collect_pdf (pdf_collector self)) paper ;;
       if negb (truthy pdf_content) then
         title_prefix paper ;;;
         ret None
       else
         title_prefix paper ;;;
         b2_url <- call_on (upload_pdf (b2_service self) pdf_content) paper ;;
         if truthy b2_url then
           title_prefix paper ;;;
           set_item paper "pdfContentUrl" b2_url ;;;
           pop_item paper "pdfContent" ;;;
           ret (Some paper)
         else
           title_prefix paper ;;;
           ret None)
    (fun e => title_prefix paper ;;; ret None).

(** The loop over [batch_results], lines 162-173: exceptions and [None]
    are discarded, the other results are appended. *)
Fixpoint collect_results (batch_results : list (Outcome (option Ref)))
  : list Ref :=
  match batch_results with
  | [] => []
  | Raises _ :: rest => collect_results rest
  | Returns (Some result) :: rest => result :: collect_results rest
  | Returns None :: rest => collect_results rest
  end.

(** One iteration of the batch loop, lines 149-178. *)
Definition process_batch (batch : list Ref) : M (St W) (list Ref) :=
  batch_results <- gather_m (map process_paper_pdf batch) ;;
  ret (collect_results batch_results).

(** The batch loop, lines 148-178, over the slices of [papers]. *)
Fixpoint process_batches (batches : list (list Ref))
    (all_processed_papers : list Ref) : M (St W) (list Ref) :=
  match batches with
  | [] => ret all_processed_papers
  | batch :: rest =>
      kept <- process_batch batch ;;
      process_batches rest (all_processed_papers ++ kept)
  end.

(** [process_papers_batch_parallel], lines 120-181.  [range] refuses a
    zero step and is empty for a negative one. *)
Definition process_papers_batch_parallel (papers : list Ref) (batch_size : Z)
  : M (St W) (list Ref) :=
  match papers with
  | [] => ret papers
  | _ =>
      if batch_size =? 0 then
        raise (mkExc ValueError "range() arg 3 must not be zero")
      else if batch_size <? 0 then ret []
      else process_batches (chunks (Z.to_nat batch_size) papers) []
  end.
(** The loop of [process_papers_batch], lines 100-115: one paper after
    the other, each in its own [try]. *)
Fixpoint process_sequentially (papers : list Ref) (processed_papers : list Ref)
  : M (St W) (list Ref) :=
  match papers with
  | [] => ret processed_papers
  | paper :: rest =>
      processed_papers' <-
        try_except
          (processed_paper <- process_paper_pdf paper ;;
           match processed_paper with
           | Some kept => ret (processed_papers ++ [kept])
           | None => ret processed_papers
           end)
          (fun e => ret processed_papers) ;;
      process_sequentially rest processed_papers'
  end.

(** [process_papers_batch], lines 78-118. *)
Definition process_papers_batch (papers : list Ref) : M (St W) (list Ref) :=
  match papers with
  | [] => ret papers
  | _ => process_sequentially papers []
  end.
End Service.

End PdfProcessor.

(* ===================================================================== *)
(** * app/services/websearch/config.py and search_orchestrator.py *)
(* ===================================================================== *)

Module SearchOrchestrator.

(** [@dataclass SearchConfig], with its defaults. *)
Record SearchConfig : Type := {
  papers_per_source : Z;
  max_search_rounds : Z;
  target_batch_size : Z;
  enable_ai_refinement : bool;
  recent_years_filter : Z;
  retry_on_rate_limit : bool;
  max_rate_limit_retries : Z;
  rate_limit_backoff_seconds : Z;
}.

Definition SearchConfig_defaults : SearchConfig := {|
  papers_per_source := 2;
  max_search_rounds := 1;
  target_batch_size := 5;
  enable_ai_refinement := true;
  recent_years_filter := 5;
  retry_on_rate_limit := true;
  max_rate_limit_retries := 1;
  rate_limit_backoff_seconds := 2;
|}.

(** A method of a service object outside the embedded files. *)
Definition Service (W A : Type) : Type :=
  gmap nat (gmap string PyVal) -> W
  -> Outcome A * gmap nat (gmap string PyVal) * W.

(** What awaiting [client.search_papers(query, limit, filters)] can do:
    return (a list, or [None]), raise, or not finish in time. *)
Inductive Reply : Type :=
| Replies (papers : option (list Ref))
| Throws (e : PyExc)
| Hangs.

Definition Client (W : Type) : Type :=
  string -> Z -> PyVal -> gmap nat (gmap string PyVal) -> W
  -> Reply * gmap nat (gmap string PyVal) * W.

(** [PaperDeduplicationService] *)
Record DeduplicationService (W : Type) : Type := {
  reset : Service W unit;
  add_papers : list Ref -> Service W Z;
  get_paper_count : Service W Z;
  get_papers : Service W (list Ref);
}.
Arguments reset {W} _.
Arguments add_papers {W} _.
Arguments get_paper_count {W} _.
Arguments get_papers {W} _.

(** [AIQueryRefinementService] *)
Record AIService (W : Type) : Type := {
  is_ready : Service W bool;
  generate_refined_queries :
    list string -> string -> list Ref -> Z -> Service W (list string);
}.
Arguments is_ready {W} _.
Arguments generate_refined_queries {W} _.

(** [class MultiSourceSearchOrchestrator]: the attributes [__init__]
    leaves on [self]. *)
Record Orchestrator (W : Type) : Type := {
  config : SearchConfig;
  deduplication_service : DeduplicationService W;
  build_filters : string -> string -> string -> Service W PyVal;
  ai_service : option (AIService W);
  active_sources : list string;
  api_clients : gmap string (Client W);
  enrich_papers : list Ref -> Service W (list Ref);
}.
Arguments config {W} _.
Arguments deduplication_service {W} _.
Arguments build_filters {W} _.
Arguments ai_service {W} _.
Arguments active_sources {W} _.
Arguments api_clients {W} _.
Arguments enrich_papers {W} _.

(** ** Ranking, lines 506-518 *)

(** The operand of [+] in [score]: concatenation to a [str] needs a
    [str]. *)
Definition as_str (v : PyVal) : Outcome string :=
  match v with
  | VStr s => Returns s
  | _ => Raises (mkExc TypeError "can only concatenate str to str")
  end.

Definition sum_Z (l : list Z) : Z := foldr Z.add 0 l.

(** [score(p)] for the lower-cased [terms]. *)
Definition score (terms : list string) (p : gmap string PyVal) : Outcome Z :=
  match as_str (py_or (default VNone (p !! "title")) (VStr "")) with
  | Raises e => Raises e
  | Returns title =>
      match as_str (py_or (default VNone (p !! "abstract")) (VStr "")) with
      | Raises e => Raises e
      | Returns abstract =>
          let text := lower (title ++ " " ++ abstract)%string in
          Returns (sum_Z (map (count text) terms))
      end
  end.

(** The keys [sorted] computes, one per element, before it sorts. *)
Fixpoint keyed {A} (key : A -> Outcome Z) (l : list A) : Outcome (list (Z * A)) :=
  match l with
  | [] => Returns []
  | x :: rest =>
      match key x with
      | Raises e => Raises e
      | Returns k =>
          match keyed key rest with
          | Raises e => Raises e
          | Returns ks => Returns ((k, x) :: ks)
          end
      end
  end.

(** [sorted(..., reverse=True)] on keyed elements: descending keys, and
    elements with equal keys stay in their order ([sorted] is stable, also
    with [reverse]).  [x] precedes every element of [l] in the input. *)
Fixpoint insert_desc {A} (x : Z * A) (l : list (Z * A)) : list (Z * A) :=
  match l with
  | [] => [x]
  | y :: l' => if fst x <? fst y then y :: insert_desc x l' else x :: y :: l'
  end.

Fixpoint sorted_reverse {A} (l : list (Z * A)) : list (Z * A) :=
  match l with
  | [] => []
  | x :: rest => insert_desc x (sorted_reverse rest)
  end.

Definition _rank_papers (h : gmap nat (gmap string PyVal)) (papers : list Ref)
    (query_terms : list string) : Outcome (list Ref) :=
  match papers with
  | [] => Returns papers
  | _ =>
      let terms := map lower query_terms in
      match keyed (fun p => score terms (deref h p)) papers with
      | Raises e => Raises e
      | Returns ks => Returns (map snd (sorted_reverse ks))
      end
  end.

(** ** The orchestrator's methods *)

(** How the retry loop of [_safe_source_search] is left: by [break] (or
    by running out of attempts) with the value of [papers], or by a
    [return] inside the loop. *)
Inductive LoopExit : Type :=
| Broke (papers : option (list Ref))
| Returned (result : list Ref).

Section Methods.
Context {W : Type} (self : Orchestrator W).

Definition per_call_timeout (source_name : string) : Z :=
  if String.eqb (lower source_name) "semantic scholar" then 60 else 30.

(** ["rate limit" in error_str or "429" in error_str] *)
Definition is_rate_limit (e : PyExc) : bool :=
  let error_str := lower (exc_str e) in
  contains "rate limit" error_str || contains "429" error_str.

(** [asyncio.wait_for(client.search_papers(...), timeout=...)] *)
Definition wait_for_search (client : Client W) (query : string)
    (filters : PyVal) : M (St W) (option (list Ref)) :=
  fun s =>
    let '(r, h', w') :=
      client query (papers_per_source (config self)) filters
             (heap s) (world s) in
    let s' := mkSt h' w' (trace s) in
    match r with
    | Replies papers => (Returns papers, s')
    | Throws e => (Raises e, s')
    | Hangs => (Raises (mkExc TimeoutError ""), s')
    end.

(** The retry loop, lines 354-414; [remaining] counts the iterations
    [range] still yields, [attempt] is the loop variable. *)
Fixpoint retry_loop (source_name : string) (client : Client W)
    (query : string) (filters : PyVal) (remaining : nat) (attempt : Z)
  : M (St W) LoopExit :=
  match remaining with
  | O => ret (Broke None)
  | S remaining' =>
      o <- outcome_of (wait_for_search client query filters) ;;
      emit (ApiAttempt source_name attempt (per_call_timeout source_name) o) ;;;
      match o with
      | Returns papers => ret (Broke papers)
      | Raises e =>
          if is_timeout e then ret (Returned [])
          else if is_rate_limit e then
            if attempt <? max_rate_limit_retries (config self) then
              emit (Sleep (rate_limit_backoff_seconds (config self))) ;;;
              retry_loop source_name client query filters remaining'
                         (attempt + 1)
            else ret (Returned [])
          else raise e
      end
  end.

(** [_safe_source_search], lines 323-429. *)
Definition _safe_source_search (source_name query domain : string)
  : M (St W) (list Ref) :=
  try_except
    (match api_clients self !! source_name with
     | None => ret []
     | Some client =>
         filters <- call_raising
                      (build_filters self source_name domain query) ;;
         exit <- retry_loop source_name client query filters
                   (Z.to_nat (max_rate_limit_retries (config self) + 1)) 0 ;;
         match exit with
         | Returned result => ret result
         | Broke papers => ret (default [] papers)
         end
     end)
    (fun e => ret []).

(** [for paper in result: paper["source"] = source_name] *)
Fixpoint tag_source (source_name : string) (result : list Ref)
  : M (St W) unit :=
  match result with
  | [] => ret tt
  | paper :: rest =>
      set_item paper "source" (VStr source_name) ;;;
      tag_source source_name rest
  end.

(** The loop over [results], lines 298-315. *)
Fixpoint combine_results (sources : list string)
    (results : list (Outcome (list Ref))) (all_papers : list Ref)
  : M (St W) (list Ref) :=
  match sources, results with
  | source_name :: sources', result :: results' =>
      match result with
      | Raises _ => combine_results sources' results' all_papers
      | Returns [] => combine_results sources' results' all_papers
      | Returns papers =>
          tag_source source_name papers ;;;
          combine_results sources' results' (all_papers ++ papers)
      end
  | _, _ => ret all_papers
  end.

(** [_search_all_sources], lines 269-321. *)
Definition search_tasks (query domain : string) : list (M (St W) (list Ref)) :=
  map (fun source_name => _safe_source_search source_name query domain)
      (active_sources self).

Definition _search_all_sources (query domain : string)
  : M (St W) (list Ref) :=
  results <- gather_m (search_tasks query domain) ;;
  combine_results (active_sources self) results [].

(** [_generate_refined_queries], lines 431-473. *)
Definition _generate_refined_queries (original_terms : list string)
    (domain : string) (found_papers : list Ref) : M (St W) (list string) :=
  match ai_service self with
  | None => ret []
  | Some ai =>
      ready <- call_raising (is_ready ai) ;;
      if negb ready then ret []
      else
        match found_papers with
        | [] => ret []
        | _ =>
            try_except
              (call_raising
                 (generate_refined_queries ai original_terms domain
                    (take 10 found_papers) 3))
              (fun e => ret [])
        end
  end.

(** [int(target_size * pdf_compensation_factor)] with the factor [2.0];
    the float product is exact below [2^53]. *)
Definition enhanced_target_size (target_size : Z) : Z := 2 * target_size.

(** The loop over [search_queries], lines 181-193. *)
Fixpoint run_queries (search_queries : list string) (domain : string)
  : M (St W) unit :=
  match search_queries with
  | [] => ret tt
  | query :: rest =>
      round_papers <- _search_all_sources query domain ;;
      added_count <- call_raising
                       (add_papers (deduplication_service self) round_papers) ;;
      run_queries rest domain
  end.

(** The loop over the rounds, lines 174-220. *)
Fixpoint search_rounds (remaining : nat) (round_num : Z)
    (search_queries query_terms : list string) (domain : string)
    (enhanced : Z) : M (St W) unit :=
  match remaining with
  | O => ret tt
  | S remaining' =>
      run_queries search_queries domain ;;;
      current_count <- call_raising
                         (get_paper_count (deduplication_service self)) ;;
      if enhanced <=? current_count then ret tt
      else if round_num <? max_search_rounds (config self) - 1 then
        found <- call_raising (get_papers (deduplication_service self)) ;;
        refined_queries <- _generate_refined_queries query_terms domain found ;;
        match refined_queries with
        | [] => ret tt
        | _ => search_rounds remaining' (round_num + 1) refined_queries
                             query_terms domain enhanced
        end
      else search_rounds remaining' (round_num + 1) search_queries
                         query_terms domain enhanced
  end.

(** [search_papers] up to the enforcement stage, lines 151-228: the
    ranked candidates. *)
Definition ranked_candidates (query_terms : list string) (domain : string)
    (target_size : Z) : M (St W) (list Ref) :=
  call_raising (reset (deduplication_service self)) ;;;
  let enhanced := enhanced_target_size target_size in
  search_rounds (Z.to_nat (max_search_rounds (config self))) 0
                [join " " query_terms] query_terms domain enhanced ;;;
  found <- call_raising (get_papers (deduplication_service self)) ;;
  let all_collected_papers := slice_to found enhanced in
  final_papers <- call_raising (enrich_papers self all_collected_papers) ;;
  h <- gets heap ;;
  of_outcome (_rank_papers h final_papers query_terms).

(** [search_papers], lines 137-267.  [pdf_processor] is
    [process_papers_batch_parallel] of the module-level [pdf_processor]
    object. *)
Definition search_papers
    (pdf_processor : list Ref -> Z -> M (St W) (list Ref))
    (query_terms : list string) (domain : string) (target_size : Z)
  : M (St W) (list Ref) :=
  final_papers <- ranked_candidates query_terms domain target_size ;;
  try_except
    (final_papers <- pdf_processor final_papers 8 ;;
     let final_count := Z.of_nat (length final_papers) in
     if target_size <? final_count
     then ret (slice_to final_papers target_size)
     else ret final_papers)
    (fun e => ret []).
End Methods.

(** ** Construction, lines 44-130 *)

(** The credentials [_init_api_clients] reads from [settings]. *)
Record Credentials : Type := {
  core_api_key : option string;
  unpaywall_email : option string;
  s2_api_key : option string;
}.

(** The client classes of [..academic_apis.clients] that
    [_init_api_clients] instantiates. *)
Record ClientClasses (W : Type) : Type := {
  ArxivClient : Client W;
  PubMedClient : Client W;
  OpenAlexClient : Client W;
  EuropePMCClient : Client W;
  COREClient : string -> Client W;
  UnpaywallClient : string -> Client W;
  SemanticScholarClient : option string -> Client W;
}.
Arguments ArxivClient {W} _.
Arguments PubMedClient {W} _.
Arguments OpenAlexClient {W} _.
Arguments EuropePMCClient {W} _.
Arguments COREClient {W} _.
Arguments UnpaywallClient {W} _.
Arguments SemanticScholarClient {W} _.

(** [if value:] on an optional string: the value when it is set and not
    empty. *)
Definition provided (value : option string) : option string :=
  match value with
  | None => None
  | Some "" => None
  | Some s => Some s
  end.

(** [if x in l: l.remove(x)]: the first occurrence goes. *)
Fixpoint remove_first (x : string) (l : list string) : list string :=
  match l with
  | [] => []
  | y :: l' => if String.eqb y x then l' else y :: remove_first x l'
  end.

(** [self.active_sources] as [__init__] sets it, lines 53-66. *)
Definition default_active_sources : list string :=
  ["arXiv"; "PubMed"; "OpenAlex"; "CORE"; "Europe PMC"].

(** [_init_api_clients], lines 78-130: the clients and the active sources
    it leaves. *)
Definition _init_api_clients {W} (classes : ClientClasses W)
    (settings : Credentials) (active_sources : list string)
  : gmap string (Client W) * list string :=
  let api_clients : gmap string (Client W) :=
    <["Europe PMC" := EuropePMCClient classes]>
      (<["OpenAlex" := OpenAlexClient classes]>
         (<["PubMed" := PubMedClient classes]>
            (<["arXiv" := ArxivClient classes]> ∅))) in
  let '(api_clients, active_sources) :=
    match provided (core_api_key settings) with
    | Some key => (<["CORE" := COREClient classes key]> api_clients,
                   active_sources)
    | None => (api_clients, remove_first "CORE" active_sources)
    end in
  let '(api_clients, active_sources) :=
    match provided (unpaywall_email settings) with
    | Some email => (<["Unpaywall" := UnpaywallClient classes email]> api_clients,
                     active_sources)
    | None => (api_clients, remove_first "Unpaywall" active_sources)
    end in
  (<["Semantic Scholar" :=
       SemanticScholarClient classes (provided (s2_api_key settings))]>
     api_clients,
   active_sources).

End SearchOrchestrator.

(* ===================================================================== *)
(** * app/services/messaging *)
(* ===================================================================== *)

Module Messaging.

(** What [json.loads(message.body.decode('utf-8'))] yields for the body
    of a delivery: one of the two decoding errors, or a value. *)
Inductive Body : Type :=
| Undecodable
| Json (v : PyVal).

(** [aio_pika.IncomingMessage] *)
Record IncomingMessage : Type := {
  routing_key : option string;
  body : Body;
}.

(** What happens to a delivery, in order: the calls that settle it at the
    broker, the call into the web-search agent and its return, and the
    return of the publishing call with its result. *)
Inductive Event : Type :=
| Ack
| Reject (requeue : bool)
| AgentCalled (message_data : PyVal)
| AgentReturned (result : PyVal)
| PublishReturned (result : PyVal) (success : bool).

Record St (W : Type) : Type := mkSt {
  world : W;
  trace : list Event;
}.
Arguments mkSt {W} world trace.
Arguments world {W} _.
Arguments trace {W} _.

Definition emit {W} (ev : Event) : M (St W) unit :=
  modify (fun s => mkSt (world s) (trace s ++ [ev])).

Definition call {W A} (f : W -> Outcome A * W) : M (St W) A :=
  fun s => let '(o, w') := f (world s) in (o, mkSt w' (trace s)).

(** ** connection.py *)

Module Connection.

(** [class RabbitMQConnection]: the attributes [publish_message] reads.
    [exchange_publish] stands for serialising the data and awaiting
    [exchange.publish] on the channel. *)
Record RabbitMQConnection (W : Type) : Type := {
  is_connected : bool;
  channel : option unit;
  exchange_publish : string -> PyVal -> W -> Outcome unit * W;
}.
Arguments is_connected {W} _.
Arguments channel {W} _.
Arguments exchange_publish {W} _.

Section Methods.
Context {W : Type} (self : RabbitMQConnection W).

(** [publish_message], lines 116-163, on the default exchange. *)
Definition publish_message (routing_key : string) (message_data : PyVal)
  : M (St W) bool :=
  if negb (is_connected self) || negb (bool_decide (is_Some (channel self)))
  then ret false
  else
    try_except
      (call (exchange_publish self routing_key message_data) ;;; ret true)
      (fun e => ret false).

(** [publish_websearch_result], lines 165-178. *)
Definition publish_websearch_result (result : PyVal) : M (St W) bool :=
  publish_message "scholarai.websearch.completed" result.
End Methods.

End Connection.

(** ** handlers.py *)

Module Handlers.
Import Connection.

(** [type(v).__name__] *)
Definition type_name (v : PyVal) : string :=
  match v with
  | VNone => "NoneType"
  | VBool _ => "bool"
  | VInt _ => "int"
  | VStr _ => "str"
  | VBytes _ => "bytes"
  | VList _ => "list"
  | VDict _ => "dict"
  end.

Definition no_attribute (v : PyVal) (attr : string) : PyExc :=
  mkExc AttributeError
        ("'" ++ type_name v ++ "' object has no attribute '" ++ attr ++ "'")%string.

(** [field in container] for a string [field]. *)
Definition py_in (field : string) (container : PyVal) : Outcome bool :=
  match container with
  | VDict kvs => Returns (bool_decide (is_Some (assoc field kvs)))
  | VList l =>
      Returns (existsb (fun v => match v with
                                 | VStr s => String.eqb s field
                                 | _ => false
                                 end) l)
  | VStr s => Returns (contains field s)
  | VBytes _ =>
      Raises (mkExc TypeError "a bytes-like object is required, not 'str'")
  | _ => Raises (mkExc TypeError
                   ("argument of type '" ++ type_name container
                    ++ "' is not iterable")%string)
  end.

(** [obj.get(key, default)] *)
Definition py_get (obj : PyVal) (key : string) (dflt : PyVal) : Outcome PyVal :=
  match obj with
  | VDict kvs => Returns (default dflt (assoc key kvs))
  | _ => Raises (no_attribute obj "get")
  end.

(** The web-search agent ([..websearch_agent.WebSearchAgent]), which runs
    the search orchestrator for a request. *)
Record WebSearchAgent (W : Type) : Type := {
  process_request : PyVal -> W -> Outcome PyVal * W;
}.
Arguments process_request {W} _.

(** [class WebSearchMessageHandler] *)
Record WebSearchMessageHandler (W : Type) : Type := {
  websearch_agent : option (WebSearchAgent W);
  connection_manager : option (RabbitMQConnection W);
}.
Arguments websearch_agent {W} _.
Arguments connection_manager {W} _.

(** [__init__] *)
Definition WebSearchMessageHandler_new {W} : WebSearchMessageHandler W :=
  {| websearch_agent := None; connection_manager := None |}.

(** [initialize]; [agent] is the object [WebSearchAgent()] constructs. *)
Definition initialize {W} (self : WebSearchMessageHandler W)
    (agent : WebSearchAgent W) (connection_manager : RabbitMQConnection W)
  : WebSearchMessageHandler W :=
  {| websearch_agent := Some agent;
     connection_manager := Some connection_manager |}.

(** [_parse_message], lines 114-129: [None] when the body cannot be
    decoded. *)
Definition _parse_message (message : IncomingMessage) : PyVal :=
  match body message with
  | Undecodable => VNone
  | Json v => v
  end.

(** The loop over [required_fields], lines 101-104. *)
Fixpoint has_fields (required_fields : list string) (message_data : PyVal)
  : Outcome bool :=
  match required_fields with
  | [] => Returns true
  | field :: rest =>
      match py_in field message_data with
      | Raises e => Raises e
      | Returns false => Returns false
      | Returns true => has_fields rest message_data
      end
  end.

(** [_validate_websearch_message], lines 89-112. *)
Definition _validate_websearch_message (message_data : PyVal) : Outcome bool :=
  match has_fields ["projectId"; "queryTerms"] message_data with
  | Raises e => Raises e
  | Returns false => Returns false
  | Returns true =>
      match py_get message_data "queryTerms" (VList []) with
      | Raises e => Raises e
      | Returns (VList (_ :: _)) => Returns true
      | Returns _ => Returns false
      end
  end.

Section Methods.
Context {W : Type} (self : WebSearchMessageHandler W).

(** [await self.websearch_agent.process_request(message_data)] *)
Definition run_agent (message_data : PyVal) : M (St W) PyVal :=
  match websearch_agent self with
  | None => raise (no_attribute VNone "process_request")
  | Some agent =>
      emit (AgentCalled message_data) ;;;
      result <- call (process_request agent message_data) ;;
      emit (AgentReturned result) ;;;
      ret result
  end.

(** Lines 70-75. *)
Definition publish_result (result : PyVal) : M (St W) unit :=
  match connection_manager self with
  | None => ret tt
  | Some cm =>
      success <- publish_websearch_result cm result ;;
      emit (PublishReturned result success) ;;;
      of_outcome (py_get result "correlationId" (VStr "unknown")) ;;;
      ret tt
  end.

(** [should_requeue], line 85. *)
Definition should_requeue (e : PyExc) : bool :=
  negb (contains "object has no attribute" (exc_str e)
        || contains "AttributeError" (exc_str e)).

(** [handle_message], lines 42-87. *)
Definition handle_message (message : IncomingMessage) : M (St W) bool :=
  try_except
    (let message_data := _parse_message message in
     if negb (truthy message_data) then ret false
     else
       valid <- of_outcome (_validate_websearch_message message_data) ;;
       if negb valid then
         emit (Reject false) ;;;
         ret false
       else
         of_outcome (py_get message_data "correlationId" (VStr "unknown")) ;;;
         result <- run_agent message_data ;;
         publish_result result ;;;
         emit Ack ;;;
         ret true)
    (fun e =>
       emit (Reject (should_requeue e)) ;;;
       ret false).
End Methods.

(** [class MessageHandlerFactory]; handlers are objects, the factory holds
    references to them. *)
Record MessageHandlerFactory : Type := {
  handlers : gmap string nat;
  default_handler : option nat;
}.

Definition MessageHandlerFactory_new : MessageHandlerFactory :=
  {| handlers := ∅; default_handler := None |}.

Definition register_handler (self : MessageHandlerFactory)
    (message_type : string) (handler : nat) : MessageHandlerFactory :=
  {| handlers := <[message_type := handler]> (handlers self);
     default_handler := default_handler self |}.

Definition set_default_handler (self : MessageHandlerFactory) (handler : nat)
  : MessageHandlerFactory :=
  {| handlers := handlers self; default_handler := Some handler |}.

(** [self.handlers.get(message_type, self.default_handler)] *)
Definition get_handler (self : MessageHandlerFactory) (message_type : string)
  : option nat :=
  match handlers self !! message_type with
  | Some handler => Some handler
  | None => default_handler self
  end.

(** The handler objects behind [get_all_handlers().values()]. *)
Definition get_all_handlers (self : MessageHandlerFactory) : list nat :=
  map snd (map_to_list (handlers self)).

End Handlers.

(** ** consumer.py *)

Module Consumer.
Import Connection Handlers.

(** [class ScholarAIConsumer]; [handler_objects] is the store of the
    handler objects the factory refers to. *)
Record ScholarAIConsumer (W : Type) : Type := {
  connection_manager : RabbitMQConnection W;
  handler_factory : MessageHandlerFactory;
  handler_objects : gmap nat (WebSearchMessageHandler W);
  is_running : bool;
}.
Arguments connection_manager {W} _.
Arguments handler_factory {W} _.
Arguments handler_objects {W} _.
Arguments is_running {W} _.

(** The one handler object [_setup_handlers] creates. *)
Definition websearch_handler : nat := 0%nat.

(** [_setup_handlers], lines 43-50. *)
Definition _setup_handlers : MessageHandlerFactory :=
  set_default_handler
    (register_handler MessageHandlerFactory_new "scholarai" websearch_handler)
    websearch_handler.

(** [__init__], lines 29-41. *)
Definition ScholarAIConsumer_new {W} (connection : RabbitMQConnection W)
  : ScholarAIConsumer W :=
  {| connection_manager := connection;
     handler_factory := _setup_handlers;
     handler_objects := {[ websearch_handler := WebSearchMessageHandler_new ]};
     is_running := false |}.

Definition handler_at {W} (objects : gmap nat (WebSearchMessageHandler W))
    (handler : nat) : WebSearchMessageHandler W :=
  default WebSearchMessageHandler_new (objects !! handler).

(** [_start_consuming] before its consume loop, lines 84-89: every
    registered handler object is initialised in place. *)
Definition initialize_handlers {W} (self : ScholarAIConsumer W)
    (agent : WebSearchAgent W) : ScholarAIConsumer W :=
  {| connection_manager := connection_manager self;
     handler_factory := handler_factory self;
     handler_objects :=
       foldr (fun handler objects =>
                <[handler := initialize (handler_at objects handler) agent
                                        (connection_manager self)]> objects)
             (handler_objects self)
             (get_all_handlers (handler_factory self));
     is_running := true |}.

(** [_extract_message_type], lines 127-143. *)
Definition _extract_message_type (message : IncomingMessage) : string :=
  match routing_key message with
  | None => "websearch"
  | Some "" => "websearch"
  | Some key => split_first "." key
  end.

(** [_process_message], lines 99-125. *)
Definition _process_message {W} (self : ScholarAIConsumer W)
    (message : IncomingMessage) : M (St W) unit :=
  try_except
    (let message_type := _extract_message_type message in
     match get_handler (handler_factory self) message_type with
     | None =>
         emit (Reject false) ;;;
         ret tt
     | Some handler =>
         success <- handle_message (handler_at (handler_objects self) handler)
                                   message ;;
         ret tt
     end)
    (fun e => emit (Reject true) ;;; ret tt).

End Consumer.

(** ** Deliveries whose decoding and settlement can fail

    [Handlers] and [Consumer] above are about deliveries on which
    [json.loads] returns or raises one of the two errors [_parse_message]
    catches, and on which the awaited [message.ack()] and
    [message.reject()] return.  Here neither is assumed: parsing the body
    can raise any exception, and the two settlement calls are calls into
    the broker library that can raise.  An event [Ack] or [Reject] records
    that the call was made. *)

Module Delivery.
Import Connection Handlers Consumer.

(** What [json.loads(message.body.decode('utf-8'))] does: it raises
    [UnicodeDecodeError] or [json.JSONDecodeError], it returns a value, or
    it raises another exception ([RecursionError] on deeply nested input,
    [ValueError] on an integer literal longer than the digit limit). *)
Inductive Loads : Type :=
| NotJson
| Loaded (v : PyVal)
| LoadsRaises (e : PyExc).

(** [aio_pika.IncomingMessage], with its two settlement methods. *)
Record IncomingMessage (W : Type) : Type := {
  routing_key : option string;
  body : Loads;
  ack : W -> Outcome unit * W;
  reject : bool -> W -> Outcome unit * W;
}.
Arguments routing_key {W} _.
Arguments body {W} _.
Arguments ack {W} _.
Arguments reject {W} _.

(** [_parse_message], lines 114-129: the two decoding errors are caught
    and give [None]; any other exception leaves the method. *)
Definition _parse_message {W} (message : IncomingMessage W) : Outcome PyVal :=
  match body message with
  | NotJson => Returns VNone
  | Loaded v => Returns v
  | LoadsRaises e => Raises e
  end.

(** [await message.ack()] *)
Definition await_ack {W} (message : IncomingMessage W) : M (St W) unit :=
  emit Ack ;;;
  call (ack message).

(** [await message.reject(requeue=requeue)] *)
Definition await_reject {W} (message : IncomingMessage W) (requeue : bool)
  : M (St W) unit :=
  emit (Reject requeue) ;;;
  call (reject message requeue).

(** [handle_message], lines 42-87. *)
Definition handle_message {W} (self : WebSearchMessageHandler W)
    (message : IncomingMessage W) : M (St W) bool :=
  try_except
    (message_data <- of_outcome (_parse_message message) ;;
     if negb (truthy message_data) then ret false
     else
       valid <- of_outcome (_validate_websearch_message message_data) ;;
       if negb valid then
         await_reject message false ;;;
         ret false
       else
         of_outcome (py_get message_data "correlationId" (VStr "unknown")) ;;;
         result <- run_agent self message_data ;;
         publish_result self result ;;;
         await_ack message ;;;
         ret true)
    (fun e =>
       await_reject message (should_requeue e) ;;;
       ret false).

(** [_extract_message_type], lines 127-143. *)
Definition _extract_message_type {W} (message : IncomingMessage W) : string :=
  match routing_key message with
  | None => "websearch"
  | Some "" => "websearch"
  | Some key => split_first "." key
  end.

(** [_process_message], lines 99-125. *)
Definition _process_message {W} (self : ScholarAIConsumer W)
    (message : IncomingMessage W) : M (St W) unit :=
  try_except
    (let message_type := _extract_message_type message in
     match get_handler (handler_factory self) message_type with
     | None =>
         await_reject message false ;;;
         ret tt
     | Some handler =>
         success <- handle_message (handler_at (handler_objects self) handler)
                                   message ;;
         ret tt
     end)
    (fun e => await_reject message true ;;; ret tt).

(** A delivery of the kind [Handlers] and [Consumer] are about. *)
Definition reliable {W} (message : Messaging.IncomingMessage)
  : IncomingMessage W :=
  {| routing_key := Messaging.routing_key message;
     body := match Messaging.body message with
             | Undecodable => NotJson
             | Json v => Loaded v
             end;
     ack := fun w => (Returns tt, w);
     reject := fun requeue w => (Returns tt, w) |}.

End Delivery.

End Messaging.

(* ===================================================================== *)
(** * app/services/multi_source_author_service.py *)
(* ===================================================================== *)

Module AuthorService.
Import Messaging.Handlers.

(** [len(v)]; an object has as many entries as it has distinct keys. *)
Definition py_len (v : PyVal) : Outcome Z :=
  match v with
  | VStr s => Returns (Z.of_nat (String.length s))
  | VBytes b => Returns (Z.of_nat (length b))
  | VList l => Returns (Z.of_nat (length l))
  | VDict kvs => Returns (Z.of_nat (length (remove_dups (map fst kvs))))
  | _ => Raises (mkExc TypeError
                   ("object of type '" ++ type_name v ++ "' has no len()")%string)
  end.

(** [obj[key]] for a string [key]: a [KeyError] (whose text is the key in
    quotes) on an object without the key, a [TypeError] on everything that
    is not an object. *)
Definition py_getitem (obj : PyVal) (key : string) : Outcome PyVal :=
  match obj with
  | VDict kvs =>
      match assoc key kvs with
      | Some v => Returns v
      | None => Raises (mkExc OtherError ("'" ++ key ++ "'")%string)
      end
  | VStr _ =>
      Raises (mkExc TypeError "string indices must be integers, not 'str'")
  | VBytes _ =>
      Raises (mkExc TypeError
                "byte indices must be integers or slices, not str")
  | VList _ =>
      Raises (mkExc TypeError
                "list indices must be integers or slices, not str")
  | _ => Raises (mkExc TypeError
                   ("'" ++ type_name obj ++ "' object is not subscriptable")%string)
  end.

(** [obj[0]]: an [IndexError] on an empty sequence, a [KeyError] on an
    object (its keys are strings). *)
Definition py_first (obj : PyVal) : Outcome PyVal :=
  match obj with
  | VList (x :: _) => Returns x
  | VStr (String c _) => Returns (VStr (String c ""))
  | VBytes (b :: _) => Returns (VInt (Z.of_N (Byte.to_N b)))
  | VList [] => Raises (mkExc OtherError "list index out of range")
  | VStr "" => Raises (mkExc OtherError "string index out of range")
  | VBytes [] => Raises (mkExc OtherError "index out of range")
  | VDict _ => Raises (mkExc OtherError "0")
  | _ => Raises (mkExc TypeError
                   ("'" ++ type_name obj ++ "' object is not subscriptable")%string)
  end.

(** Sequencing of expressions that may raise. *)
Definition and_then {A B} (o : Outcome A) (k : A -> Outcome B) : Outcome B :=
  match o with
  | Returns a => k a
  | Raises e => Raises e
  end.

(** [result.get(key) and len(result[key]) > 0] *)
Definition has_items (result : PyVal) (key : string) : Outcome bool :=
  and_then (py_get result key VNone) (fun v =>
    if truthy v
    then and_then (py_getitem result key) (fun items =>
           and_then (py_len items) (fun n => Returns (0 <? n)))
    else Returns false).

(** The condition and the right-hand side of the assignment to
    [combined_data], per source: [None] when the condition is falsy. *)
Definition first_of (key : string) (result : PyVal) : Outcome (option PyVal) :=
  and_then (has_items result key) (fun found =>
    if found
    then and_then (py_getitem result key) (fun items =>
           and_then (py_first items) (fun item => Returns (Some item)))
    else Returns None).

(** Lines 242-243: [dblp_result.get('result', {}).get('hits', {}).get('hit')],
    then [dblp_result['result']['hits']['hit'][0]]. *)
Definition dblp_hit (result : PyVal) : Outcome (option PyVal) :=
  and_then (py_get result "result" (VDict [])) (fun r =>
  and_then (py_get r "hits" (VDict [])) (fun hits =>
  and_then (py_get hits "hit" VNone) (fun hit =>
    if truthy hit
    then and_then (py_getitem result "result") (fun r' =>
         and_then (py_getitem r' "hits") (fun hits' =>
         and_then (py_getitem hits' "hit") (fun hit' =>
         and_then (py_first hit') (fun item => Returns (Some item)))))
    else Returns None))).

(** Lines 253-254: [crossref_result.get('message', {}).get('items')], then
    [crossref_result['message']['items']]. *)
Definition crossref_items (result : PyVal) : Outcome (option PyVal) :=
  and_then (py_get result "message" (VDict [])) (fun message =>
  and_then (py_get message "items" VNone) (fun items =>
    if truthy items
    then and_then (py_getitem result "message") (fun message' =>
         and_then (py_getitem message' "items") (fun items' =>
           Returns (Some items')))
    else Returns None)).

(** [class MultiSourceAuthorSearchResponse], for authors of type [A]. *)
Record Response (A : Type) : Type := {
  success : bool;
  author : option A;
  error : option string;
  search_strategy : string;
  sources_attempted : list string;
  sources_successful : list string;
}.
Arguments success {A} _.
Arguments author {A} _.
Arguments error {A} _.
Arguments search_strategy {A} _.
Arguments sources_attempted {A} _.
Arguments sources_successful {A} _.

(** The methods that talk to the network, and the two places where an
    [EnhancedAuthorResponse] is built: [_create_enhanced_author] (whose
    result depends on the iteration order of sets and on float sums) and
    the constructor call of [_search_semantic_scholar_only]. *)
Record Service (W A : Type) : Type := {
  _search_semantic_scholar_api : string -> Z -> W -> Outcome PyVal * W;
  _search_openalex_api : string -> Z -> W -> Outcome PyVal * W;
  _search_orcid_api : string -> Z -> W -> Outcome PyVal * W;
  _search_dblp_api : string -> Z -> W -> Outcome PyVal * W;
  _search_crossref_api : string -> Z -> W -> Outcome PyVal * W;
  _get_semantic_scholar_author_details : PyVal -> W -> Outcome PyVal * W;
  _create_enhanced_author :
    gmap string PyVal -> list string -> W -> Outcome A * W;
  semantic_scholar_author : PyVal -> string -> Outcome A;
}.
Arguments _search_semantic_scholar_api {W A} _.
Arguments _search_openalex_api {W A} _.
Arguments _search_orcid_api {W A} _.
Arguments _search_dblp_api {W A} _.
Arguments _search_crossref_api {W A} _.
Arguments _get_semantic_scholar_author_details {W A} _.
Arguments _create_enhanced_author {W A} _.
Arguments semantic_scholar_author {W A} _.

(** The state of one [search_author]: the world, the two lists the search
    methods append to, and the number of half-second sleeps so far. *)
Record St (W : Type) : Type := mkSt {
  world : W;
  attempted : list string;
  successful : list string;
  sleeps : nat;
}.
Arguments mkSt {W} world attempted successful sleeps.
Arguments world {W} _.
Arguments attempted {W} _.
Arguments successful {W} _.
Arguments sleeps {W} _.

Section Methods.
Context {W A : Type} (self : Service W A).

Definition call (f : W -> Outcome PyVal * W) : M (St W) PyVal :=
  fun s => let '(o, w') := f (world s) in
           (o, mkSt w' (attempted s) (successful s) (sleeps s)).

(** [sources_attempted.append(name)] *)
Definition attempt (name : string) : M (St W) unit :=
  modify (fun s => mkSt (world s) (attempted s ++ [name]) (successful s)
                        (sleeps s)).

(** [sources_successful.append(name)] *)
Definition succeed (name : string) : M (St W) unit :=
  modify (fun s => mkSt (world s) (attempted s) (successful s ++ [name])
                        (sleeps s)).

(** One [try] block of [_fast_search] and [_comprehensive_search]: the
    source is recorded as attempted, asked, and on a hit stored in
    [combined_data] and recorded as successful; an exception leaves
    [combined_data] as it is.  (The log lines of the blocks come after the
    two updates, inside the [try].) *)
Definition try_source (name : string) (api : W -> Outcome PyVal * W)
    (hit : PyVal -> Outcome (option PyVal))
    (combined_data : gmap string PyVal) : M (St W) (gmap string PyVal) :=
  try_except
    (attempt name ;;;
     result <- call api ;;
     found <- of_outcome (hit result) ;;
     match found with
     | Some item =>
         succeed name ;;;
         ret (<[name := item]> combined_data)
     | None => ret combined_data
     end)
    (fun e => ret combined_data).

(** [_fast_search], lines 194-220. *)
Definition _fast_search (author_name : string) : M (St W) (gmap string PyVal) :=
  combined_data <-
    try_source "semantic_scholar"
      (_search_semantic_scholar_api self author_name 1) (first_of "data") ∅ ;;
  try_source "openalex"
    (_search_openalex_api self author_name 1) (first_of "results")
    combined_data.

(** The last block of [_comprehensive_search], lines 260-272; its
    condition is evaluated outside the [try]. *)
Definition detailed_step (combined_data : gmap string PyVal)
  : M (St W) (gmap string PyVal) :=
  match combined_data !! "semantic_scholar" with
  | None => ret combined_data
  | Some ss_data =>
      author_id <- of_outcome (py_get ss_data "authorId" VNone) ;;
      if truthy author_id then
        try_except
          (attempt "semantic_scholar_detailed" ;;;
           author_id' <- of_outcome (py_getitem ss_data "authorId") ;;
           detailed_result <-
             call (_get_semantic_scholar_author_details self author_id') ;;
           if truthy detailed_result then
             succeed "semantic_scholar_detailed" ;;;
             ret (<["semantic_scholar_detailed" := detailed_result]>
                    combined_data)
           else ret combined_data)
          (fun e => ret combined_data)
      else ret combined_data
  end.

(** [_comprehensive_search], lines 222-274. *)
Definition _comprehensive_search (author_name : string)
  : M (St W) (gmap string PyVal) :=
  combined_data <- _fast_search author_name ;;
  combined_data <-
    try_source "orcid" (_search_orcid_api self author_name 1)
      (first_of "result") combined_data ;;
  combined_data <-
    try_source "dblp" (_search_dblp_api self author_name 1) dblp_hit
      combined_data ;;
  combined_data <-
    try_source "crossref" (_search_crossref_api self author_name 10)
      crossref_items combined_data ;;
  detailed_step combined_data.

Definition failure (message strategy : string)
    (sources_attempted sources_successful : list string) : Response A :=
  {| success := false; author := None; error := Some message;
     search_strategy := strategy;
     sources_attempted := sources_attempted;
     sources_successful := sources_successful |}.

(** [_search_semantic_scholar_only], lines 150-192. *)
Definition _search_semantic_scholar_only (author_name : string)
  : M (St W) (Response A) :=
  try_except
    (result <- call (_search_semantic_scholar_api self author_name 1) ;;
     found <- of_outcome (has_items result "data") ;;
     if found then
       author_data <- of_outcome (and_then (py_getitem result "data") py_first) ;;
       enhanced_author <-
         of_outcome (semantic_scholar_author self author_data author_name) ;;
       ret {| success := true; author := Some enhanced_author; error := None;
              search_strategy := "semantic_scholar_only";
              sources_attempted := ["semantic_scholar"];
              sources_successful := ["semantic_scholar"] |}
     else
       ret (failure ("Author '" ++ author_name
                     ++ "' not found in Semantic Scholar")%string
                    "semantic_scholar_only" ["semantic_scholar"] []))
    (fun e =>
       ret (failure ("Semantic Scholar search failed: " ++ exc_str e)%string
                    "semantic_scholar_only" ["semantic_scholar"] [])).

(** The body of [search_author], lines 86-148, on the lists it created. *)
Definition search_author_body (author_name strategy : string)
  : M (St W) (Response A) :=
  try_except
    (if String.eqb strategy "semantic_scholar_only" then
       _search_semantic_scholar_only author_name
     else
       combined_data <-
         (if String.eqb strategy "fast" then _fast_search author_name
          else _comprehensive_search author_name) ;;
       sources_attempted <- gets attempted ;;
       sources_successful <- gets successful ;;
       if bool_decide (combined_data = ∅) then
         ret (failure ("Author '" ++ author_name
                       ++ "' not found in any data source")%string
                      strategy sources_attempted sources_successful)
       else
         enhanced_author <-
           (fun s =>
              let '(o, w') := _create_enhanced_author self combined_data
                                sources_successful (world s) in
              (o, mkSt w' (attempted s) (successful s) (sleeps s))) ;;
         ret {| success := true; author := Some enhanced_author;
                error := None; search_strategy := strategy;
                sources_attempted := sources_attempted;
                sources_successful := sources_successful |})
    (fun e =>
       sources_attempted <- gets attempted ;;
       sources_successful <- gets successful ;;
       ret (failure ("Search failed: " ++ exc_str e)%string strategy
                    sources_attempted sources_successful)).

(** [search_author]: the two lists start empty and are local to the call. *)
Definition search_author (author_name strategy : string)
  : M (St W) (Response A) :=
  fun s =>
    let '(o, s') := search_author_body author_name strategy
                      (mkSt (world s) [] [] (sleeps s)) in
    (o, mkSt (world s') (attempted s) (successful s) (sleeps s')).

(** [await asyncio.sleep(0.5)] *)
Definition sleep_half_second : M (St W) unit :=
  modify (fun s => mkSt (world s) (attempted s) (successful s)
                        (S (sleeps s))).

(** [search_authors_batch], lines 487-509.  [asyncio.sleep] raises nothing
    an [except Exception] would catch, so a result that was appended is
    never followed by a second entry for the same name. *)
Fixpoint search_authors_batch_from (author_names : list string)
    (strategy : string) (results : list (Response A))
  : M (St W) (list (Response A)) :=
  match author_names with
  | [] => ret results
  | author_name :: rest =>
      results' <-
        try_except
          (result <- search_author author_name strategy ;;
           sleep_half_second ;;;
           ret (results ++ [result]))
          (fun e =>
             ret (results
                  ++ [failure ("Search failed: " ++ exc_str e)%string
                              strategy [] []])) ;;
      search_authors_batch_from rest strategy results'
  end.

Definition search_authors_batch (author_names : list string)
    (strategy : string) : M (St W) (list (Response A)) :=
  search_authors_batch_from author_names strategy [].
End Methods.

End AuthorService.

(* ===================================================================== *)
(** * The vocabulary of the properties *)
(* ===================================================================== *)

Module Props.
Import PdfProcessor SearchOrchestrator.

(** ** Reasoning about awaited code *)

(** [wp m Q s]: running [m] from [s] ends in an outcome and a state that
    satisfy [Q]. *)
Definition wp {S A} (m : M S A) (Q : Outcome A -> S -> Prop) (s : S) : Prop :=
  Q (fst (m s)) (snd (m s)).

(** ** The enforcement stage *)

(** What a [process_paper_pdf] task can leave in the list [gather]
    returns: its own paper, [None], or an exception. *)
Definition task_outcome (paper : Ref) (o : Outcome (option Ref)) : Prop :=
  o = Returns (Some paper) \/ o = Returns None \/ exists e, o = Raises e.

(** Content references are only ever added. *)
Definition content_grows {W} (s s' : Papers.St W) : Prop :=
  forall q, has_content (heap s) q -> has_content (heap s') q.

Definition paper_post {W} (p : Ref) (s : Papers.St W)
    (o : Outcome (option Ref)) (s' : Papers.St W) : Prop :=
  task_outcome p o /\ content_grows s s'
  /\ (o = Returns (Some p) -> has_content (heap s') p).

(** The input papers that survive, given the outcome of the task of each
    one (in input order): the paper at a position is kept exactly when the
    task at that position returned a paper, and dropped when it returned
    [None] or raised.  Nothing else is removed and nothing is reordered. *)
Fixpoint survivors (papers : list Ref)
    (results : list (Outcome (option Ref))) : list Ref :=
  match papers, results with
  | paper :: papers', Returns (Some _) :: results' =>
      paper :: survivors papers' results'
  | _ :: papers', _ :: results' => survivors papers' results'
  | _, _ => []
  end.

(** ** Provider dispatch *)

(** The events of attempts that were retried: attempt [first + i] raised
    [es !! i] and was followed by a sleep of [backoff] seconds. *)
Fixpoint retried (source : string) (timeout backoff : Z) (first : Z)
    (es : list PyExc) : list Papers.Event :=
  match es with
  | [] => []
  | e :: rest =>
      ApiAttempt source first timeout (Raises e) :: Sleep backoff
      :: retried source timeout backoff (first + 1) rest
  end.

(** A rate-limit signal: caught by the general clause and recognised in
    its text. *)
Definition rate_limit_signal (e : PyExc) : Prop :=
  is_timeout e = false /\ is_rate_limit e = true.

(** How one [_safe_source_search] ends, given the exceptions [es] of the
    attempts it retried: without a further attempt and with no papers, or
    with one last attempt whose reply decides the result. *)
Definition last_attempt (source : string) (timeout limit : Z)
    (es : list PyExc) (final : list Papers.Event) (result : list Ref) : Prop :=
  (final = [] /\ es = [] /\ result = [])
  \/ exists yielded,
      final = [ApiAttempt source (Z.of_nat (length es)) timeout yielded]
      /\ Z.of_nat (length es) <= limit
      /\ match yielded with
         | Returns papers => result = default [] papers
         | Raises e =>
             result = []
             /\ (rate_limit_signal e -> Z.of_nat (length es) = limit)
         end.

(** What [_safe_source_search] guarantees when run from [s]. *)
Definition dispatch_post {W} (self : Orchestrator W) (source_name : string)
    (s : Papers.St W) (o : Outcome (list Ref)) (s' : Papers.St W) : Prop :=
  exists result es final,
    o = Returns result
    /\ Papers.trace s'
       = Papers.trace s
         ++ retried source_name (per_call_timeout source_name)
                    (rate_limit_backoff_seconds (config self)) 0 es
         ++ final
    /\ Forall rate_limit_signal es
    /\ last_attempt source_name (per_call_timeout source_name)
                    (max_rate_limit_retries (config self)) es final result.

(** *** The replies of a provider *)

(** The store and the world after [n] successive calls of [client] with
    the same arguments. *)
Fixpoint after_calls {W} (client : Client W) (query : string) (limit : Z)
    (filters : PyVal) (n : nat) (h : gmap nat (gmap string PyVal)) (w : W)
  : gmap nat (gmap string PyVal) * W :=
  match n with
  | O => (h, w)
  | S n' =>
      let '(_, h', w') := client query limit filters h w in
      after_calls client query limit filters n' h' w'
  end.

(** The reply of [client] to call number [n], counted from 0. *)
Definition reply_at {W} (client : Client W) (query : string) (limit : Z)
    (filters : PyVal) (n : nat) (h : gmap nat (gmap string PyVal)) (w : W)
  : Reply :=
  fst (fst (client query limit filters
              (fst (after_calls client query limit filters n h w))
              (snd (after_calls client query limit filters n h w)))).

(** What the awaited call yields for a reply: a call that does not finish
    in time yields [asyncio.TimeoutError]. *)
Definition yielded_by (r : Reply) : Outcome (option (list Ref)) :=
  match r with
  | Replies papers => Returns papers
  | Throws e => Raises e
  | Hangs => Raises (mkExc TimeoutError "")
  end.

(** The papers a provider contributes with a reply: those it returned,
    and none when it returned [None], raised or did not finish in time. *)
Definition contribution (r : Reply) : list Ref :=
  match r with
  | Replies (Some papers) => papers
  | _ => []
  end.

(** The provider [source_name] has a client, the filters for it can be
    built from [s], and the client answers its first call with [papers]. *)
Definition provider_answers {W} (self : Orchestrator W)
    (source_name query domain : string) (s : Papers.St W)
    (papers : list Ref) : Prop :=
  exists client filters h1 w1,
    api_clients self !! source_name = Some client
    /\ build_filters self source_name domain query (heap s) (Papers.world s)
       = (Returns filters, h1, w1)
    /\ reply_at client query (papers_per_source (config self)) filters 0 h1 w1
       = Replies (Some papers).

(** The papers of one settled provider task. *)
Definition papers_of (r : Outcome (list Ref)) : list Ref :=
  match r with
  | Returns l => l
  | Raises _ => []
  end.

(** ** Ranking *)

(** The title and the abstract are strings, or falsy. *)
Definition text_fields_ok (p : gmap string PyVal) : bool :=
  match py_or (default VNone (p !! "title")) (VStr ""),
        py_or (default VNone (p !! "abstract")) (VStr "") with
  | VStr _, VStr _ => true
  | _, _ => false
  end.

(** The score [_rank_papers] sorts by. *)
Definition relevance (h : gmap nat (gmap string PyVal))
    (query_terms : list string) (p : Ref) : Z :=
  match score (map lower query_terms) (deref h p) with
  | Returns z => z
  | Raises _ => 0
  end.

Definition descending_by (f : Ref -> Z) (l : list Ref) : Prop :=
  StronglySorted (fun a b => f b <= f a) l.

(** Papers with equal scores keep their input order. *)
Definition ties_in_input_order (f : Ref -> Z) (input output : list Ref) : Prop :=
  forall k, filter (fun p => f p = k) output = filter (fun p => f p = k) input.

Definition field_text (p : gmap string PyVal) (k : string) : string :=
  match p !! k with
  | Some (VStr s) => s
  | _ => ""
  end.

(** The score in the words of the specification: the sum over the query
    terms, case-insensitively, of the term's occurrence count in the
    concatenation of title and abstract. *)
Definition claimed_score (query_terms : list string) (p : gmap string PyVal) : Z :=
  sum_Z (map (fun term =>
                count (lower (field_text p "title" ++ field_text p "abstract")%string)
                      (lower term))
             query_terms).

(** The same sum over the text the code builds: title, one space,
    abstract. *)
Definition spaced_score (query_terms : list string) (p : gmap string PyVal) : Z :=
  sum_Z (map (fun term =>
                count (lower (field_text p "title" ++ " "
                              ++ field_text p "abstract")%string)
                      (lower term))
             query_terms).

(** ** Deliveries *)

Import Messaging.

(** Every acknowledgement comes after the return of the agent and, after
    that, the return of the publishing call. *)
Definition ack_after_run_and_publish (tr : list Messaging.Event) : Prop :=
  forall i, tr !! i = Some Ack ->
    exists j k result result' success,
      (j < k < i)%nat
      /\ tr !! j = Some (AgentReturned result)
      /\ tr !! k = Some (PublishReturned result' success).

(** The event sequences of one [handle_message] on an initialised
    handler. *)
Inductive handled : list Messaging.Event -> Prop :=
| handled_unsettled : handled []
| handled_rejected requeue : handled [Reject requeue]
| handled_agent_raised data requeue :
    handled [AgentCalled data; Reject requeue]
| handled_result_raised data result success requeue :
    handled [AgentCalled data; AgentReturned result;
             PublishReturned result success; Reject requeue]
| handled_acked data result success :
    handled [AgentCalled data; AgentReturned result;
             PublishReturned result success; Ack].

(** The title that the log lines of [process_paper_pdf] slice can be
    sliced: it is missing, or a string, byte string or list. *)
Definition title_sliceable (p : gmap string PyVal) : bool :=
  match default (VStr "Unknown") (p !! "title") with
  | VStr _ | VBytes _ | VList _ => true
  | _ => false
  end.

(** The record of a paper after [process_paper_pdf] attached [url]. *)
Definition with_content (url : PyVal) (p : gmap string PyVal)
  : gmap string PyVal :=
  delete "pdfContent" (<["pdfContentUrl" := url]> p).

(** The paper carries the name of one of the [sources] as its
    ["source"]. *)
Definition tagged (sources : list string) (h : gmap nat (gmap string PyVal))
    (p : Ref) : Prop :=
  exists source_name,
    source_name ∈ sources
    /\ deref h p !! "source" = Some (VStr source_name).

(** The orchestrator after [set_ai_service], lines 132-135 (or with no AI
    service at all). *)
Definition with_ai_service {W} (self : Orchestrator W)
    (ai : option (AIService W)) : Orchestrator W :=
  {| config := config self;
     deduplication_service := deduplication_service self;
     build_filters := build_filters self;
     ai_service := ai;
     active_sources := active_sources self;
     api_clients := api_clients self;
     enrich_papers := enrich_papers self |}.

(** The calls that settle a delivery at the broker. *)
Definition is_settlement (ev : Messaging.Event) : bool :=
  match ev with
  | Ack | Reject _ => true
  | _ => false
  end.

(** The settlement calls among the events of a delivery, in order. *)
Definition settlement_calls (tr : list Messaging.Event)
  : list Messaging.Event :=
  filter (fun ev => is_settlement ev = true) tr.

(** The bodies [handle_message] gives up on at its first check: those that
    are not JSON text and those that parse to a falsy value. *)
Definition left_unsettled (b : Messaging.Delivery.Loads) : bool :=
  match b with
  | Messaging.Delivery.NotJson => true
  | Messaging.Delivery.Loaded v => negb (truthy v)
  | Messaging.Delivery.LoadsRaises _ => false
  end.

(** Every [reject] call on the delivery returns. *)
Definition rejects_reliably {W} (message : Messaging.Delivery.IncomingMessage W)
  : Prop :=
  forall requeue w,
    fst (Messaging.Delivery.reject message requeue w) = Returns tt.

(** Every settlement call on the delivery returns. *)
Definition settles_reliably {W} (message : Messaging.Delivery.IncomingMessage W)
  : Prop :=
  (forall w, fst (Messaging.Delivery.ack message w) = Returns tt)
  /\ rejects_reliably message.

(** How a method whose last step is [reject(requeue)] in an [except]
    clause ends: with [fallback] when the call returns, and with the
    exception of the call otherwise. *)
Definition after_reject {W A} (message : Messaging.Delivery.IncomingMessage W)
    (requeue : bool) (fallback : A) (o : Outcome A) : Prop :=
  o = Returns fallback
  \/ exists e w,
      o = Raises e
      /\ fst (Messaging.Delivery.reject message requeue w) = Raises e.

(** The settlement calls one [handle_message] can make on a delivery, with
    its outcome: none; one acknowledgement; one rejection; or a settlement
    call that raised, followed by the rejection of the [except] clause. *)
Inductive settled {W} (message : Messaging.Delivery.IncomingMessage W)
  : Outcome bool -> list Messaging.Event -> Prop :=
| settled_not :
    left_unsettled (Messaging.Delivery.body message) = true ->
    settled message (Returns false) []
| settled_ack :
    left_unsettled (Messaging.Delivery.body message) = false ->
    settled message (Returns true) [Ack]
| settled_reject requeue o :
    left_unsettled (Messaging.Delivery.body message) = false ->
    after_reject message requeue false o ->
    settled message o [Reject requeue]
| settled_ack_raised e w requeue o :
    left_unsettled (Messaging.Delivery.body message) = false ->
    fst (Messaging.Delivery.ack message w) = Raises e ->
    after_reject message requeue false o ->
    settled message o [Ack; Reject requeue]
| settled_reject_raised e w requeue o :
    left_unsettled (Messaging.Delivery.body message) = false ->
    fst (Messaging.Delivery.reject message false w) = Raises e ->
    after_reject message requeue false o ->
    settled message o [Reject false; Reject requeue].

(** The outcomes of the tasks of [papers] when each one is awaited before
    the next is started, and the state they leave. *)
Fixpoint each_in_turn {S A B} (task : A -> M S B) (papers : list A) (s : S)
  : list (Outcome B) * S :=
  match papers with
  | [] => ([], s)
  | paper :: rest =>
      let '(o, s1) := task paper s in
      let '(os, s2) := each_in_turn task rest s1 in
      (o :: os, s2)
  end.

(** ** The author search *)

(** The sources of [_comprehensive_search] that do not depend on an
    earlier answer, in the order in which they are asked. *)
Definition five_sources : list string :=
  ["semantic_scholar"; "openalex"; "orcid"; "dblp"; "crossref"].

(** The sources a strategy of [search_author] asks, in the order in which
    it asks them. *)
Definition planned_sources (strategy : string) : list string :=
  if String.eqb strategy "semantic_scholar_only" then ["semantic_scholar"]
  else if String.eqb strategy "fast" then ["semantic_scholar"; "openalex"]
  else five_sources.

(** The keys of [combined_data] are the names of the list [names]. *)
Definition keys_are (combined_data : gmap string PyVal)
    (names : list string) : Prop :=
  forall k, is_Some (combined_data !! k) <-> k ∈ names.

(** What a caller can rely on in a response: the successful sources are
    among the attempted ones, in the same order; a success carries an
    author, no error and at least one successful source; a failure carries
    an error and no author. *)
Definition response_consistent {A} (r : AuthorService.Response A) : Prop :=
  sublist (AuthorService.sources_successful r)
          (AuthorService.sources_attempted r)
  /\ if AuthorService.success r
     then is_Some (AuthorService.author r)
          /\ AuthorService.error r = None
          /\ AuthorService.sources_successful r <> []
     else AuthorService.author r = None
          /\ is_Some (AuthorService.error r).

(** [r] is what [search_author] returned for [author_name] from some
    state. *)
Definition answers {W A} (self : AuthorService.Service W A)
    (strategy author_name : string) (r : AuthorService.Response A) : Prop :=
  exists s, fst (AuthorService.search_author self author_name strategy s)
            = Returns r.

End Props.
Import Props.

(* ===================================================================== *)
(** * Concrete services, for running the model *)
(* ===================================================================== *)

Module Demo.
Import PdfProcessor SearchOrchestrator.

(** The world is the collection the deduplication service keeps. *)
Definition World : Type := list Ref.

Definition papers0 : gmap nat (gmap string PyVal) :=
  {[ 0%nat := {[ "title" := VStr "Attention Is All You Need";
                 "doi" := VStr "10.1/abc" ]};
     1%nat := {[ "title" := VStr "A survey of transformers";
                 "abstract" := VStr "attention, attention" ]};
     2%nat := {[ "title" := VStr "Graph kernels";
                 "doi" := VStr "10.1/xyz" ]} ]}.

Definition s0 : Papers.St World := Papers.mkSt papers0 [] [].

Definition dedup : DeduplicationService World := {|
  reset := fun h w => (Returns tt, h, []);
  add_papers := fun l h w => (Returns (Z.of_nat (length l)), h, w ++ l);
  get_paper_count := fun h w => (Returns (Z.of_nat (length w)), h, w);
  get_papers := fun h w => (Returns w, h, w);
|}.

Definition arxiv : Client World :=
  fun query limit filters h w => (Replies (Some [0; 1; 2]%nat), h, w).

Definition pubmed : Client World :=
  fun query limit filters h w =>
    (Throws (mkExc OtherError "HTTP 429 Too Many Requests"), h, w).

Definition orchestrator : Orchestrator World := {|
  config := SearchConfig_defaults;
  deduplication_service := dedup;
  build_filters := fun source domain query h w => (Returns (VDict []), h, w);
  ai_service := None;
  active_sources := ["arXiv"; "PubMed"];
  api_clients := {[ "arXiv" := arxiv; "PubMed" := pubmed ]};
  enrich_papers := fun l h w => (Returns l, h, w);
|}.

(** Storage that holds nothing yet, a collector that finds a PDF for the
    papers with a DOI, and uploads that succeed. *)
Definition pdf_service : PDFProcessorService World := {|
  b2_service := {|
    get_pdf_url := fun p w => (Returns VNone, w);
    upload_pdf := fun content p w => (Returns (VStr "b2://papers/pdf"), w);
  |};
  pdf_collector := {|
    collect_pdf := fun p w =>
      (Returns (match p !! "doi" with
                | Some _ => VBytes [Byte.x25; Byte.x50]
                | None => VNone
                end), w);
  |};
|}.

(** An enforcement stage that fails as a whole. *)
Definition broken_pdf_processor (papers : list Ref) (batch_size : Z)
  : M (Papers.St World) (list Ref) :=
  raise (mkExc OtherError "storage unavailable").

(** Two papers on which the score of the code and the score in the words
    of the specification differ. *)
Definition boundary_papers : gmap nat (gmap string PyVal) :=
  {[ 0%nat := {[ "title" := VStr "x" ]};
     1%nat := {[ "title" := VStr "a"; "abstract" := VStr "b" ]} ]}.

(** A connected broker, and an agent that answers every request with an
    empty list of papers. *)
Definition connection : Messaging.Connection.RabbitMQConnection unit := {|
  Messaging.Connection.is_connected := true;
  Messaging.Connection.channel := Some tt;
  Messaging.Connection.exchange_publish := fun key data w => (Returns tt, w);
|}.

Definition agent : Messaging.Handlers.WebSearchAgent unit := {|
  Messaging.Handlers.process_request := fun data w =>
    (Returns (VDict [("correlationId", VStr "c-1"); ("papers", VList [])]), w);
|}.

Definition request : Messaging.IncomingMessage := {|
  Messaging.routing_key := Some "scholarai.websearch";
  Messaging.body :=
    Messaging.Json (VDict [("projectId", VStr "p-1");
                           ("queryTerms", VList [VStr "attention"])]);
|}.




Definition bare_consumer : Messaging.Consumer.ScholarAIConsumer unit := {|
  Messaging.Consumer.connection_manager := connection;
  Messaging.Consumer.handler_factory :=
    Messaging.Handlers.register_handler
      Messaging.Handlers.MessageHandlerFactory_new "scholarai" 0%nat;
  Messaging.Consumer.handler_objects :=
    {[ 0%nat := Messaging.Handlers.WebSearchMessageHandler_new ]};
  Messaging.Consumer.is_running := true;
|}.

Definition stray_delivery : Messaging.IncomingMessage := {|
  Messaging.routing_key := Some "billing.invoice";
  Messaging.body := Messaging.Json (VDict [("projectId", VStr "p-1")]);
|}.

Definition garbled_delivery : Messaging.IncomingMessage := {|
  Messaging.routing_key := Some "scholarai.websearch";
  Messaging.body := Messaging.Undecodable;
|}.

(** Deliveries whose settlement calls return: one whose body is not JSON
    text, one whose body is nested too deeply for [json.loads], and a
    valid request. *)
Definition garbled : Messaging.Delivery.IncomingMessage unit :=
  Messaging.Delivery.reliable garbled_delivery.

Definition nested_delivery : Messaging.Delivery.IncomingMessage unit := {|
  Messaging.Delivery.routing_key := Some "scholarai.websearch";
  Messaging.Delivery.body :=
    Messaging.Delivery.LoadsRaises
      (mkExc OtherError "maximum recursion depth exceeded");
  Messaging.Delivery.ack := fun w => (Returns tt, w);
  Messaging.Delivery.reject := fun requeue w => (Returns tt, w);
|}.

Definition settled_request : Messaging.Delivery.IncomingMessage unit :=
  Messaging.Delivery.reliable request.

(** The same request and an invalid one on a channel that was closed in
    the meantime: every settlement call raises. *)
Definition closed_channel_request : Messaging.Delivery.IncomingMessage unit := {|
  Messaging.Delivery.routing_key := Some "scholarai.websearch";
  Messaging.Delivery.body :=
    Messaging.Delivery.Loaded
      (VDict [("projectId", VStr "p-1");
              ("queryTerms", VList [VStr "attention"])]);
  Messaging.Delivery.ack := fun w =>
    (Raises (mkExc OtherError "channel closed"), w);
  Messaging.Delivery.reject := fun requeue w =>
    (Raises (mkExc OtherError "channel closed"), w);
|}.

Definition closed_channel_invalid : Messaging.Delivery.IncomingMessage unit := {|
  Messaging.Delivery.routing_key := Some "scholarai.websearch";
  Messaging.Delivery.body :=
    Messaging.Delivery.Loaded (VDict [("projectId", VStr "p-1")]);
  Messaging.Delivery.ack := fun w =>
    (Raises (mkExc OtherError "channel closed"), w);
  Messaging.Delivery.reject := fun requeue w =>
    (Raises (mkExc OtherError "channel closed"), w);
|}.

(** A store with a paper whose title is [None], and storage that already
    holds the PDF of every paper. *)
Definition untitled_papers : gmap nat (gmap string PyVal) :=
  {[ 0%nat := {[ "title" := VNone; "doi" := VStr "10.1/abc" ]};
     1%nat := {[ "title" := VStr "Graph kernels";
                 "pdfContent" := VStr "JVBERi0=" ]} ]}.

Definition full_storage : PdfProcessor.PDFProcessorService World := {|
  PdfProcessor.b2_service := {|
    PdfProcessor.get_pdf_url := fun p w => (Returns (VStr "b2://stored"), w);
    PdfProcessor.upload_pdf := fun content p w =>
      (Raises (mkExc OtherError "upload must not be called"), 7%nat :: w);
  |};
  PdfProcessor.pdf_collector := {|
    PdfProcessor.collect_pdf := fun p w =>
      (Raises (mkExc OtherError "collector must not be called"), 9%nat :: w);
  |};
|}.

(** A store in which one paper has a list as its title. *)
Definition mistyped_papers : gmap nat (gmap string PyVal) :=
  {[ 0%nat := {[ "title" := VStr "Graph kernels" ]};
     1%nat := {[ "title" := VList [VStr "Graph"; VStr "kernels"] ]} ]}.

(** A provider that never answers in time. *)
Definition slow_client : SearchOrchestrator.Client World :=
  fun query limit filters h w => (SearchOrchestrator.Hangs, h, w).

Definition slow_orchestrator : SearchOrchestrator.Orchestrator World := {|
  SearchOrchestrator.config := SearchOrchestrator.SearchConfig_defaults;
  SearchOrchestrator.deduplication_service := dedup;
  SearchOrchestrator.build_filters :=
    fun source domain query h w => (Returns (VDict []), h, w);
  SearchOrchestrator.ai_service := None;
  SearchOrchestrator.active_sources := ["OpenAlex"];
  SearchOrchestrator.api_clients := {[ "OpenAlex" := slow_client ]};
  SearchOrchestrator.enrich_papers := fun l h w => (Returns l, h, w);
|}.

(** A provider that answers 429 to the first request it sees and two
    papers to every later one; the world counts the requests it has seen. *)
Definition throttled_client : SearchOrchestrator.Client nat :=
  fun query limit filters h w =>
    match w with
    | O => (SearchOrchestrator.Throws
              (mkExc OtherError "429 Too Many Requests"), h, S w)
    | S _ => (SearchOrchestrator.Replies (Some [0; 2]%nat), h, S w)
    end.

(** A provider whose requests fail at the network. *)
Definition unreachable_client : SearchOrchestrator.Client nat :=
  fun query limit filters h w =>
    (SearchOrchestrator.Throws (mkExc OtherError "connection refused"),
     h, S w).

(** A provider that answers 429 to every request. *)
Definition exhausted_client : SearchOrchestrator.Client nat :=
  fun query limit filters h w =>
    (SearchOrchestrator.Throws (mkExc OtherError "429 Too Many Requests"),
     h, S w).

Definition throttled_orchestrator : SearchOrchestrator.Orchestrator nat := {|
  SearchOrchestrator.config := SearchOrchestrator.SearchConfig_defaults;
  SearchOrchestrator.deduplication_service := {|
    SearchOrchestrator.reset := fun h w => (Returns tt, h, w);
    SearchOrchestrator.add_papers := fun l h w => (Returns 0, h, w);
    SearchOrchestrator.get_paper_count := fun h w => (Returns 0, h, w);
    SearchOrchestrator.get_papers := fun h w => (Returns [], h, w);
  |};
  SearchOrchestrator.build_filters :=
    fun source domain query h w => (Returns (VDict []), h, w);
  SearchOrchestrator.ai_service := None;
  SearchOrchestrator.active_sources := ["Crossref"; "CORE"; "Unpaywall"];
  SearchOrchestrator.api_clients :=
    {[ "Crossref" := unreachable_client;
       "CORE" := throttled_client;
       "Unpaywall" := exhausted_client ]};
  SearchOrchestrator.enrich_papers := fun l h w => (Returns l, h, w);
|}.

(** An AI service that must not be asked. *)
Definition forbidden_ai : SearchOrchestrator.AIService World := {|
  SearchOrchestrator.is_ready := fun h w =>
    (Raises (mkExc OtherError "is_ready must not be called"), h, w);
  SearchOrchestrator.generate_refined_queries :=
    fun terms domain sample n h w =>
      (Raises (mkExc OtherError "refinement must not be called"), h, w);
|}.

End Demo.

(* ===================================================================== *)
(** * Rules for awaited code *)
(* ===================================================================== *)

Section WpRules.
Context {S : Type}.

Lemma wp_ret {A} (a : A) (Q : Outcome A -> S -> Prop) s :
  Q (Returns a) s -> wp (ret a) Q s.
Proof. done. Qed.

Lemma wp_raise {A} e (Q : Outcome A -> S -> Prop) s :
  Q (Raises e) s -> wp (raise e) Q s.
Proof. done. Qed.

Lemma wp_of_outcome {A} (o : Outcome A) (Q : Outcome A -> S -> Prop) s :
  Q o s -> wp (of_outcome o) Q s.
Proof. done. Qed.

Lemma wp_modify (f : S -> S) (Q : Outcome unit -> S -> Prop) s :
  Q (Returns tt) (f s) -> wp (modify f) Q s.
Proof. done. Qed.

Lemma wp_gets {A} (f : S -> A) (Q : Outcome A -> S -> Prop) s :
  Q (Returns (f s)) s -> wp (gets f) Q s.
Proof. done. Qed.

Lemma wp_bind {A B} (m : M S A) (k : A -> M S B) Q s :
  wp m (fun o s1 => match o with
                    | Returns a => wp (k a) Q s1
                    | Raises e => Q (Raises e) s1
                    end) s ->
  wp (bind m k) Q s.
Proof. unfold wp, bind. by destruct (m s) as [[a|e] s1]. Qed.

Lemma wp_try {A} (m : M S A) h Q s :
  wp m (fun o s1 => match o with
                    | Returns a => Q (Returns a) s1
                    | Raises e => wp (h e) Q s1
                    end) s ->
  wp (try_except m h) Q s.
Proof. unfold wp, try_except. by destruct (m s) as [[a|e] s1]. Qed.

Lemma wp_outcome_of {A} (m : M S A) Q s :
  wp m (fun o s1 => Q (Returns o) s1) s -> wp (outcome_of m) Q s.
Proof. unfold wp, outcome_of. by destruct (m s). Qed.

Lemma wp_mono {A} (m : M S A) (Q Q' : Outcome A -> S -> Prop) s :
  wp m Q s -> (forall o s1, Q o s1 -> Q' o s1) -> wp m Q' s.
Proof. unfold wp. auto. Qed.


(** The outcome at a position of [gather] is the outcome of the task at
    that position, run from the state the tasks before it left. *)
Lemma gather_lookup {A} (tasks : list (M S A)) :
  forall s i t,
    tasks !! i = Some t ->
    fst (gather tasks s) !! i = Some (fst (t (snd (gather (take i tasks) s)))).
Proof.
  induction tasks as [|t0 tasks IH]; intros s i t Hi.
  - by rewrite lookup_nil in Hi.
  - cbn [gather]. destruct i as [|i].
    + injection Hi as ->. cbn [take gather snd].
      destruct (t s) as [o s1]. by destruct (gather tasks s1).
    + cbn [take gather]. simpl in Hi.
      destruct (t0 s) as [o s1]. specialize (IH s1 i t Hi).
      destruct (gather tasks s1) as [os s2].
      destruct (gather (take i tasks) s1) as [os' s2']. done.
Qed.

Lemma sublist_concat_lookup {A} (ls : list (list A)) i l :
  ls !! i = Some l -> sublist l (concat ls).
Proof.
  revert i. induction ls as [|l0 ls IH]; intros i Hi.
  - by rewrite lookup_nil in Hi.
  - cbn [concat]. destruct i as [|i].
    + injection Hi as ->. by apply sublist_inserts_r.
    + apply sublist_inserts_l. by apply (IH i).
Qed.

End WpRules.

(* ===================================================================== *)
(** * Slices *)
(* ===================================================================== *)




Lemma slice_to_length {A} (l : list A) (n : Z) :
  0 <= n -> Z.of_nat (length (slice_to l n)) <= n.
Proof.
  intros Hn. unfold slice_to. destruct (Z.leb_spec 0 n); [|lia].
  rewrite length_take. lia.
Qed.

(* ===================================================================== *)
(** * The enforcement stage: pdf_processor.py *)
(* ===================================================================== *)

Section PdfProcessorFacts.
Import PdfProcessor.
Context {W : Type} (svc : PDFProcessorService W).

Lemma wp_call_on {A} (f : gmap string PyVal -> W -> Outcome A * W) p Q
    (s : Papers.St W) :
  (forall o w', Q o (Papers.mkSt (heap s) w' (Papers.trace s))) ->
  wp (call_on f p) Q s.
Proof. intros H. unfold wp, call_on. destruct (f _ _). apply H. Qed.

Lemma wp_title_prefix p Q (s : Papers.St W) :
  Q (Returns tt) s -> (forall e, Q (Raises e) s) ->
  wp (title_prefix (W:=W) p) Q s.
Proof.
  intros Hr He. unfold title_prefix. apply wp_bind, wp_gets.
  destruct (default _ _); (apply wp_ret, Hr) || apply wp_raise, He.
Qed.



Lemma has_content_attached h p v q :
  truthy v = true -> has_content h q \/ q = p ->
  has_content
    (<[p := delete "pdfContent"
              (deref (<[p := <["pdfContentUrl" := v]> (deref h p)]> h) p)]>
       (<[p := <["pdfContentUrl" := v]> (deref h p)]> h)) q.
Proof.
  intros Hv Hq. unfold has_content, deref.
  destruct (decide (q = p)) as [->|Hne].
  - exists v. rewrite !lookup_insert_eq. simpl.
    rewrite lookup_delete_ne by done. by rewrite lookup_insert_eq.
  - rewrite !lookup_insert_ne by done. destruct Hq as [Hq|]; [exact Hq|done].
Qed.

Lemma paper_post_dropped p (s s1 : Papers.St W) o :
  heap s1 = heap s ->
  o = Returns None \/ (exists e, o = Raises e) ->
  paper_post p s o s1.
Proof.
  intros Hh Ho. split; [right; exact Ho|].
  split; [intros q; by rewrite Hh|].
  intros ->. destruct Ho as [|[e ?]]; discriminate.
Qed.

(** The [except] clause of [process_paper_pdf], and its branches that
    discard. *)
Lemma wp_discard p (s s1 : Papers.St W) :
  heap s1 = heap s ->
  wp (title_prefix p ;;; ret None) (paper_post p s) s1.
Proof.
  intros Hh. apply wp_bind, wp_title_prefix.
  - apply wp_ret, paper_post_dropped; auto.
  - intros e'. apply paper_post_dropped; eauto.
Qed.

Lemma wp_discard_in_try p (s s1 : Papers.St W) :
  heap s1 = heap s ->
  wp (title_prefix p ;;; ret None)
     (fun o s2 => match o with
                  | Returns a => paper_post p s (Returns a) s2
                  | Raises e => wp (title_prefix p ;;; ret None)
                                   (paper_post p s) s2
                  end)
     s1.
Proof.
  intros Hh. apply wp_bind, wp_title_prefix.
  - apply wp_ret, paper_post_dropped; auto.
  - intros e'. by apply wp_discard.
Qed.

(** The two branches that attach a content reference. *)
Lemma wp_attach_in_try p (s s1 : Papers.St W) v :
  heap s1 = heap s ->
  truthy v = true ->
  wp (title_prefix p ;;; set_item p "pdfContentUrl" v ;;;
      pop_item p "pdfContent" ;;; ret (Some p))
     (fun o s2 => match o with
                  | Returns a => paper_post p s (Returns a) s2
                  | Raises e => wp (title_prefix p ;;; ret None)
                                   (paper_post p s) s2
                  end)
     s1.
Proof.
  intros Hh Hv. apply wp_bind, wp_title_prefix.
  - apply wp_bind, wp_modify, wp_bind, wp_modify, wp_ret. simpl. rewrite Hh.
    split; [by left|].
    split; [intros q Hq|intros _]; apply has_content_attached; auto.
  - intros e. by apply wp_discard.
Qed.

Lemma process_paper_pdf_wp p s :
  wp (process_paper_pdf svc p) (paper_post p s) s.
Proof.
  unfold process_paper_pdf.
  apply wp_try, wp_bind, wp_call_on.
  intros [url|e] w1; [|by apply wp_discard].
  destruct (truthy url) eqn:Hurl; [by apply wp_attach_in_try|].
  apply wp_bind, wp_title_prefix; [|intros e; by apply wp_discard].
  apply wp_bind, wp_call_on.
  intros [content|e] w2; [|by apply wp_discard].
  destruct (truthy content); simpl; [|by apply wp_discard_in_try].
  apply wp_bind, wp_title_prefix; [|intros e; by apply wp_discard].
  apply wp_bind, wp_call_on.
  intros [b2|e] w3; [|by apply wp_discard].
  destruct (truthy b2) eqn:Hb2;
    [by apply wp_attach_in_try|by apply wp_discard_in_try].
Qed.

(** All the tasks of a list of papers. *)
Lemma gather_papers papers s :
  Forall2 task_outcome papers
          (fst (gather (map (process_paper_pdf svc) papers) s))
  /\ content_grows s (snd (gather (map (process_paper_pdf svc) papers) s))
  /\ Forall
       (has_content (heap (snd (gather (map (process_paper_pdf svc) papers) s))))
       (collect_results (fst (gather (map (process_paper_pdf svc) papers) s))).
Proof.
  revert s. induction papers as [|p papers IH]; intros s.
  - simpl. split; [constructor|]. split; [by intros q|constructor].
  - cbn [map gather].
    pose proof (process_paper_pdf_wp p s) as Hp. unfold wp in Hp.
    destruct (process_paper_pdf svc p s) as [o s1]. simpl in Hp.
    destruct Hp as (Hset & Hgrow & Hcontent).
    specialize (IH s1).
    destruct (gather (map (process_paper_pdf svc) papers) s1) as [os s2].
    simpl in *. destruct IH as (IH1 & IH2 & IH3).
    split; [by constructor|]. split; [intros q Hq; auto|].
    destruct Hset as [->|[->|[e ->]]]; simpl; auto.
Qed.

Lemma collect_results_sublist papers results :
  Forall2 task_outcome papers results ->
  sublist (collect_results results) papers.
Proof.
  induction 1 as [|p o papers results Ho _ IH]; [constructor|].
  destruct Ho as [->|[->|[e ->]]]; simpl; by constructor.
Qed.

(** What the loop over the results collects is the input without the
    papers whose task failed. *)
Lemma collect_results_survivors papers results :
  Forall2 task_outcome papers results ->
  collect_results results = survivors papers results.
Proof.
  induction 1 as [|p o papers results Ho _ IH]; [reflexivity|].
  destruct Ho as [->|[->|[e ->]]]; simpl; by rewrite ?IH.
Qed.

End PdfProcessorFacts.



(* ===================================================================== *)
(** * search_papers: the enforcement stage and the bound *)
(* ===================================================================== *)

Section SearchPapersFacts.
Import SearchOrchestrator.
Context {W : Type} (self : Orchestrator W).

(** [search_papers] after its candidates are ranked. *)
Lemma search_papers_after_ranking pdf_processor query_terms domain
    target_size s ranked s1 :
  ranked_candidates self query_terms domain target_size s
  = (Returns ranked, s1) ->
  search_papers self pdf_processor query_terms domain target_size s
  = match pdf_processor ranked 8 s1 with
    | (Returns kept, s2) =>
        (Returns (if target_size <? Z.of_nat (length kept)
                  then slice_to kept target_size else kept), s2)
    | (Raises e, s2) => (Returns [], s2)
    end.
Proof.
  intros Hr. unfold search_papers, bind at 1. rewrite Hr.
  unfold try_except, bind.
  destruct (pdf_processor ranked 8 s1) as [[kept|e] s2]; [|reflexivity].
  by destruct (target_size <? Z.of_nat (length kept)).
Qed.

Lemma search_papers_raises pdf_processor query_terms domain target_size
    s e s1 :
  ranked_candidates self query_terms domain target_size s = (Raises e, s1) ->
  search_papers self pdf_processor query_terms domain target_size s
  = (Raises e, s1).
Proof. intros Hr. unfold search_papers, bind at 1. by rewrite Hr. Qed.
End SearchPapersFacts.



(** C2. For a target size [N >= 0], a list returned by [search_papers] has
    at most [N] elements, whatever the providers, the other services and
    the enforcement stage do. *)
Theorem search_papers_bounded :
  forall (W : Type) (self : SearchOrchestrator.Orchestrator W)
         (pdf_processor : list Ref -> Z -> M (Papers.St W) (list Ref))
         (query_terms : list string) (domain : string) (target_size : Z)
         (s s' : Papers.St W) (out : list Ref),
    0 <= target_size ->
    SearchOrchestrator.search_papers self pdf_processor
      query_terms domain target_size s = (Returns out, s') ->
    Z.of_nat (length out) <= target_size.
Proof.
  intros W self pdf_processor query_terms domain target_size s s' out HN Hrun.
  destruct (SearchOrchestrator.ranked_candidates self query_terms domain
              target_size s) as [[ranked|e] s1] eqn:Hr.
  2:{ rewrite (search_papers_raises self _ _ _ _ _ _ _ Hr) in Hrun.
      discriminate. }
  rewrite (search_papers_after_ranking self _ _ _ _ _ _ _ Hr) in Hrun.
  destruct (pdf_processor ranked 8 s1) as [[kept|e] s2].
  - injection Hrun as <- <-.
    destruct (Z.ltb_spec target_size (Z.of_nat (length kept))); [|lia].
    by apply slice_to_length.
  - injection Hrun as <- <-. simpl. lia.
Qed.

Lemma search_papers_bounded_witness :
  Z.of_nat (length [0]%nat) <= 1.
Proof.
  apply (search_papers_bounded Demo.World Demo.orchestrator
           (PdfProcessor.process_papers_batch_parallel Demo.pdf_service)
           ["transformers"] "Computer Science" 1 Demo.s0
           (snd (SearchOrchestrator.search_papers Demo.orchestrator
                   (PdfProcessor.process_papers_batch_parallel Demo.pdf_service)
                   ["transformers"] "Computer Science" 1 Demo.s0))).
  - lia.
  - vm_compute. reflexivity.
Defined.

(** C3. When the candidates have been ranked and the enforcement stage
    raises on them, [search_papers] returns the empty list. *)
Theorem search_papers_enforcement_failure :
  forall (W : Type) (self : SearchOrchestrator.Orchestrator W)
         (pdf_processor : list Ref -> Z -> M (Papers.St W) (list Ref))
         (query_terms : list string) (domain : string) (target_size : Z)
         (s s1 s2 : Papers.St W) (ranked : list Ref) (e : PyExc),
    SearchOrchestrator.ranked_candidates self query_terms domain
      target_size s = (Returns ranked, s1) ->
    pdf_processor ranked 8 s1 = (Raises e, s2) ->
    SearchOrchestrator.search_papers self pdf_processor
      query_terms domain target_size s = (Returns [], s2).
Proof.
  intros W self pdf_processor query_terms domain target_size s s1 s2 ranked e
         Hr Hpdf.
  rewrite (search_papers_after_ranking self _ _ _ _ _ _ _ Hr).
  by rewrite Hpdf.
Qed.

Lemma search_papers_enforcement_failure_witness :
  SearchOrchestrator.search_papers Demo.orchestrator Demo.broken_pdf_processor
    ["attention"] "Computer Science" 3 Demo.s0
  = (Returns [],
     snd (SearchOrchestrator.ranked_candidates Demo.orchestrator
            ["attention"] "Computer Science" 3 Demo.s0)).
Proof.
  apply (search_papers_enforcement_failure Demo.World Demo.orchestrator
           Demo.broken_pdf_processor ["attention"] "Computer Science" 3
           Demo.s0
           (snd (SearchOrchestrator.ranked_candidates Demo.orchestrator
                   ["attention"] "Computer Science" 3 Demo.s0))
           (snd (SearchOrchestrator.ranked_candidates Demo.orchestrator
                   ["attention"] "Computer Science" 3 Demo.s0))
           [1; 0; 2]%nat
           (mkExc OtherError "storage unavailable")).
  - vm_compute. reflexivity.
  - reflexivity.
Defined.

(* ===================================================================== *)
(** * Ranking *)
(* ===================================================================== *)

Section SortedReverseFacts.
Import SearchOrchestrator.
Context {A : Type}.
Implicit Types (x : Z * A) (l : list (Z * A)).

Lemma insert_desc_perm x l : insert_desc x l ≡ₚ x :: l.
Proof.
  induction l as [|y l IH]; simpl; [done|].
  destruct (fst x <? fst y); [|done].
  rewrite IH. apply Permutation_swap.
Qed.

Lemma sorted_reverse_perm l : sorted_reverse l ≡ₚ l.
Proof.
  induction l as [|x l IH]; simpl; [done|].
  by rewrite insert_desc_perm, IH.
Qed.

Lemma insert_desc_sorted x l :
  StronglySorted (fun a b : Z * A => fst b <= fst a) l ->
  StronglySorted (fun a b : Z * A => fst b <= fst a) (insert_desc x l).
Proof.
  induction 1 as [|y l Hl IH Hy]; simpl.
  - repeat constructor.
  - destruct (Z.ltb_spec (fst x) (fst y)).
    + constructor; [exact IH|].
      rewrite insert_desc_perm. constructor; [lia|exact Hy].
    + constructor; [by constructor|].
      constructor; [lia|].
      eapply Forall_impl; [exact Hy|]. simpl. intros z Hz. lia.
Qed.

Lemma sorted_reverse_sorted l :
  StronglySorted (fun a b : Z * A => fst b <= fst a) (sorted_reverse l).
Proof.
  induction l as [|x l IH]; simpl; [constructor|].
  by apply insert_desc_sorted.
Qed.

(** An element is only moved past elements with a larger key. *)
Lemma insert_desc_filter k x l :
  filter (fun y : Z * A => fst y = k) (insert_desc x l)
  = filter (fun y : Z * A => fst y = k) (x :: l).
Proof.
  induction l as [|y l IH]; simpl; [done|].
  destruct (Z.ltb_spec (fst x) (fst y)); [|done].
  rewrite !filter_cons, IH, filter_cons.
  repeat case_decide; (done || lia).
Qed.

Lemma sorted_reverse_filter k l :
  filter (fun y : Z * A => fst y = k) (sorted_reverse l)
  = filter (fun y : Z * A => fst y = k) l.
Proof.
  induction l as [|x l IH]; simpl; [done|].
  by rewrite insert_desc_filter, !filter_cons, IH.
Qed.

(** Keyed lists whose keys are the values of [f]. *)
Lemma keyed_sorted (f : A -> Z) l :
  Forall (fun x => fst x = f (snd x)) l ->
  StronglySorted (fun a b : Z * A => fst b <= fst a) l ->
  StronglySorted (fun a b => f b <= f a) (map snd l).
Proof.
  intros Hf Hs. induction Hs as [|x l Hl IH Hx]; simpl; [constructor|].
  apply Forall_cons in Hf as [Hfx Hfl].
  constructor; [auto|].
  apply Forall_map. rewrite Forall_forall in Hx, Hfl |- *.
  intros y Hy. simpl. rewrite <- Hfx, <- (Hfl y Hy). auto.
Qed.

Lemma keyed_filter (f : A -> Z) k l :
  Forall (fun x => fst x = f (snd x)) l ->
  filter (fun p => f p = k) (map snd l)
  = map snd (filter (fun y : Z * A => fst y = k) l).
Proof.
  induction 1 as [|x l Hx Hl IH]; simpl; [done|].
  rewrite !filter_cons, IH, Hx.
  by case_decide.
Qed.

Lemma keyed_by_consistent (f : A -> Z) (l : list A) :
  Forall (fun x => fst x = f (snd x)) (map (fun p => (f p, p)) l).
Proof. apply Forall_map, Forall_forall. done. Qed.

Lemma keyed_by_snd (f : A -> Z) (l : list A) :
  map snd (map (fun p => (f p, p)) l) = l.
Proof. rewrite map_map. simpl. apply map_id. Qed.
End SortedReverseFacts.

Section RankFacts.
Import SearchOrchestrator.

Lemma field_as_str (p : gmap string PyVal) (k : string) :
  (exists s, py_or (default VNone (p !! k)) (VStr "") = VStr s) ->
  as_str (py_or (default VNone (p !! k)) (VStr "")) = Returns (field_text p k).
Proof.
  unfold py_or, field_text. intros [s Hs].
  destruct (p !! k) as [v|]; simpl in *; [|reflexivity].
  destruct (truthy v) eqn:Hv.
  - subst v. reflexivity.
  - destruct v; try reflexivity.
    simpl in Hv. apply negb_false_iff, String.eqb_eq in Hv. by subst.
Qed.

Lemma score_total terms (p : gmap string PyVal) :
  text_fields_ok p = true ->
  score terms p
  = Returns (sum_Z (map (count (lower (field_text p "title" ++ " "
                                       ++ field_text p "abstract")%string))
                        terms)).
Proof.
  unfold text_fields_ok, score. intros Hok.
  destruct (py_or (default VNone (p !! "title")) (VStr "")) eqn:Et;
    try discriminate.
  destruct (py_or (default VNone (p !! "abstract")) (VStr "")) eqn:Ea;
    try discriminate.
  rewrite <- Et, <- Ea.
  rewrite !field_as_str by (rewrite ?Et, ?Ea; eauto).
  reflexivity.
Qed.

Lemma relevance_spaced h query_terms p :
  text_fields_ok (deref h p) = true ->
  relevance h query_terms p = spaced_score query_terms (deref h p).
Proof.
  intros Hok. unfold relevance, spaced_score.
  rewrite (score_total _ _ Hok), map_map. reflexivity.
Qed.

Lemma keyed_total h query_terms papers :
  Forall (fun p => text_fields_ok (deref h p) = true) papers ->
  keyed (fun p => score (map lower query_terms) (deref h p)) papers
  = Returns (map (fun p => (relevance h query_terms p, p)) papers).
Proof.
  induction 1 as [|p papers Hp _ IH]; simpl; [done|].
  unfold relevance at 1. rewrite (score_total _ _ Hp), IH. reflexivity.
Qed.
End RankFacts.

(** C5, as amended. For papers whose title and abstract are strings or
    falsy, [_rank_papers] returns a permutation of its input in descending
    order of the score, where the score of a paper is the sum over the
    lower-cased query terms of the number of (non-overlapping) occurrences
    of the term in the lower-cased text made of the title, one space and
    the abstract; papers with equal scores keep their input order. *)
Theorem rank_papers_sorted_stable :
  forall (h : gmap nat (gmap string PyVal)) (papers : list Ref)
         (query_terms : list string),
    Forall (fun p => text_fields_ok (deref h p) = true) papers ->
    exists out,
      SearchOrchestrator._rank_papers h papers query_terms = Returns out
      /\ out ≡ₚ papers
      /\ descending_by (relevance h query_terms) out
      /\ ties_in_input_order (relevance h query_terms) papers out
      /\ Forall (fun p => relevance h query_terms p
                          = spaced_score query_terms (deref h p)) papers.
Proof.
  intros h papers query_terms Hok.
  assert (Hscore : Forall (fun p => relevance h query_terms p
                                    = spaced_score query_terms (deref h p))
                          papers).
  { eapply Forall_impl; [exact Hok|]. intros p. apply relevance_spaced. }
  destruct papers as [|p0 papers'] eqn:Epapers.
  { exists []. split; [done|]. split; [done|]. split; [constructor|].
    split; [done|constructor]. }
  rewrite <- Epapers in *. clear Epapers p0 papers'.
  set (f := relevance h query_terms).
  set (ks := map (fun p => (f p, p)) papers).
  exists (map snd (SearchOrchestrator.sorted_reverse ks)).
  assert (Hks : Forall (fun x => fst x = f (snd x))
                       (SearchOrchestrator.sorted_reverse ks)).
  { rewrite sorted_reverse_perm. apply keyed_by_consistent. }
  split.
  { unfold SearchOrchestrator._rank_papers.
    rewrite (keyed_total h query_terms papers Hok). fold f. fold ks.
    by destruct papers. }
  split.
  { rewrite sorted_reverse_perm. unfold ks. by rewrite keyed_by_snd. }
  split.
  { apply keyed_sorted; [exact Hks|apply sorted_reverse_sorted]. }
  split; [|exact Hscore].
  intros k. rewrite (keyed_filter f k _ Hks), sorted_reverse_filter.
  rewrite <- (keyed_filter f k ks (keyed_by_consistent f papers)).
  unfold ks. by rewrite keyed_by_snd.
Qed.

Lemma rank_papers_sorted_stable_witness :
  exists out,
    SearchOrchestrator._rank_papers Demo.papers0 [0; 1; 2]%nat ["Attention"]
    = Returns out
    /\ out ≡ₚ [0; 1; 2]%nat
    /\ descending_by (relevance Demo.papers0 ["Attention"]) out
    /\ ties_in_input_order (relevance Demo.papers0 ["Attention"])
                           [0; 1; 2]%nat out
    /\ Forall (fun p => relevance Demo.papers0 ["Attention"] p
                        = spaced_score ["Attention"] (deref Demo.papers0 p))
              [0; 1; 2]%nat.
Proof.
  apply (rank_papers_sorted_stable Demo.papers0 [0; 1; 2]%nat ["Attention"]).
  repeat constructor.
Defined.

(** C5, as stated, fails. On the two papers of [Demo.boundary_papers] and
    the query term "ab", [_rank_papers] returns the papers in input order,
    while the score over the plain concatenation of title and abstract
    puts the second paper (score 1) above the first (score 0): the output
    is not in descending order of that score. *)
Lemma rank_papers_plain_concatenation_counterexample :
  SearchOrchestrator._rank_papers Demo.boundary_papers [0; 1]%nat ["ab"]
  = Returns [0; 1]%nat
  /\ ~ descending_by
        (fun p => claimed_score ["ab"] (deref Demo.boundary_papers p))
        [0; 1]%nat.
Proof.
  split; [vm_compute; reflexivity|].
  intros Hsorted. apply StronglySorted_inv in Hsorted as [_ Hhead].
  apply Forall_cons in Hhead as [Hle _].
  vm_compute in Hle. by apply Hle.
Qed.

(* ===================================================================== *)
(** * Provider dispatch *)
(* ===================================================================== *)

Section DispatchFacts.
Import SearchOrchestrator.
Context {W : Type} (self : Orchestrator W).

Lemma wp_wait_for_search client query filters Q (s : Papers.St W) :
  (forall o h' w', Q o (Papers.mkSt h' w' (Papers.trace s))) ->
  wp (wait_for_search self client query filters) Q s.
Proof.
  intros H. unfold wp, wait_for_search.
  destruct (client _ _ _ _ _) as [[r h'] w']. destruct r; apply H.
Qed.

Lemma wp_call_raising {A}
    (f : gmap nat (gmap string PyVal) -> W
         -> Outcome A * gmap nat (gmap string PyVal) * W) Q (s : Papers.St W) :
  (forall o h' w', Q o (Papers.mkSt h' w' (Papers.trace s))) ->
  wp (call_raising f) Q s.
Proof.
  intros H. unfold wp, call_raising. destruct (f _ _) as [[o h'] w']. apply H.
Qed.

Lemma wp_emit ev (Q : Outcome unit -> Papers.St W -> Prop) (s : Papers.St W) :
  Q (Returns tt) (Papers.mkSt (heap s) (Papers.world s) (Papers.trace s ++ [ev])) ->
  wp (Papers.emit ev) Q s.
Proof. done. Qed.

(** The retry loop, entered with at least one attempt left. *)
Lemma retry_loop_wp source_name client query filters remaining :
  forall attempt (s : Papers.St W),
    remaining <> O ->
    Z.of_nat remaining + attempt = max_rate_limit_retries (config self) + 1 ->
    wp (retry_loop self source_name client query filters remaining attempt)
       (fun o s' =>
          exists es yielded,
            Papers.trace s'
            = Papers.trace s
              ++ retried source_name (per_call_timeout source_name)
                         (rate_limit_backoff_seconds (config self)) attempt es
              ++ [ApiAttempt source_name (attempt + Z.of_nat (length es))
                             (per_call_timeout source_name) yielded]
            /\ Forall rate_limit_signal es
            /\ attempt + Z.of_nat (length es)
               <= max_rate_limit_retries (config self)
            /\ match yielded with
               | Returns papers => o = Returns (Broke papers)
               | Raises e =>
                   (rate_limit_signal e ->
                    attempt + Z.of_nat (length es)
                    = max_rate_limit_retries (config self))
                   /\ (o = Returns (Returned []) \/ o = Raises e)
               end)
       s.
Proof.
  induction remaining as [|remaining IH]; intros attempt s Hne Hsum; [done|].
  cbn [retry_loop].
  apply wp_bind, wp_outcome_of, wp_wait_for_search. intros o h' w'.
  apply wp_bind, wp_emit. cbn [Papers.heap Papers.world Papers.trace].
  destruct o as [papers|e].
  - apply wp_ret. exists [], (Returns papers). simpl.
    rewrite Z.add_0_r. repeat split; [constructor|lia].
  - destruct (is_timeout e) eqn:Ht.
    { apply wp_ret. exists [], (Raises e). simpl.
      rewrite Z.add_0_r. split; [done|]. split; [constructor|].
      split; [lia|]. split; [|by left].
      intros [Hnt _]. congruence. }
    destruct (is_rate_limit e) eqn:Hr.
    2:{ apply wp_raise. exists [], (Raises e). simpl.
        rewrite Z.add_0_r. split; [done|]. split; [constructor|].
        split; [lia|]. split; [|by right].
        intros [_ Hrl]. congruence. }
    destruct (Z.ltb_spec attempt (max_rate_limit_retries (config self))).
    2:{ apply wp_ret. exists [], (Raises e). simpl.
        rewrite Z.add_0_r. split; [done|]. split; [constructor|].
        split; [lia|]. split; [|by left]. intros _. lia. }
    apply wp_bind, wp_emit. cbn [Papers.heap Papers.world Papers.trace].
    eapply wp_mono; [apply (IH (attempt + 1)); lia|].
    intros o s' (es & yielded & Htr & Hes & Hle & Hy).
    exists (e :: es), yielded. cbn [retried length].
    replace (attempt + Z.of_nat (S (length es)))
      with (attempt + 1 + Z.of_nat (length es)) by lia.
    split.
    { rewrite Htr. cbn [Papers.trace]. rewrite <- !app_assoc. reflexivity. }
    split; [by constructor|]. by split.
Qed.

(** [_safe_source_search] always returns; its events are the retried
    attempts followed by at most one last attempt. *)
Lemma safe_source_search_wp source_name query domain (s : Papers.St W) :
  wp (_safe_source_search self source_name query domain)
     (dispatch_post self source_name s) s.
Proof.
  assert (Hidle : forall s1 : Papers.St W,
             Papers.trace s1 = Papers.trace s ->
             dispatch_post self source_name s (Returns []) s1).
  { intros s1 Hs1. exists [], [], []. simpl. rewrite app_nil_r.
    split; [done|]. split; [done|]. split; [constructor|]. by left. }
  unfold _safe_source_search. apply wp_try.
  destruct (api_clients self !! source_name) as [client|];
    [|by apply wp_ret, Hidle].
  apply wp_bind, wp_call_raising. intros [filters|e] h' w';
    [|by apply wp_ret, Hidle].
  apply wp_bind.
  destruct (Z.to_nat (max_rate_limit_retries (config self) + 1))
    as [|remaining] eqn:Hrem.
  { apply wp_ret, wp_ret. by apply Hidle. }
  eapply wp_mono; [apply retry_loop_wp; [done|lia]|].
  intros o s' (es & yielded & Htr & Hes & Hle & Hy).
  cbn [Papers.trace] in Htr. rewrite Z.add_0_l in *.
  destruct yielded as [papers|e].
  - subst o. apply wp_ret. eexists (default [] papers), es, [_].
    split; [done|]. split; [exact Htr|]. split; [exact Hes|].
    right. exists (Returns papers). by repeat split.
  - destruct Hy as [Hmax [->| ->]]; apply wp_ret;
      (eexists [], es, [_];
       split; [done|]; split; [exact Htr|]; split; [exact Hes|];
       right; exists (Raises e); by repeat split).
Qed.

Lemma safe_source_search_returns source_name query domain (s : Papers.St W) :
  exists result s',
    _safe_source_search self source_name query domain s = (Returns result, s').
Proof.
  pose proof (safe_source_search_wp source_name query domain s) as Hwp.
  unfold wp in Hwp.
  destruct (_safe_source_search self source_name query domain s) as [o s'].
  destruct Hwp as (result & _ & _ & Ho & _). simpl in Ho. subst o. eauto.
Qed.

Lemma tag_source_returns source_name result (s : Papers.St W) :
  exists s', tag_source source_name result s = (Returns tt, s').
Proof.
  revert s. induction result as [|paper rest IH]; intros s; simpl; [eauto|].
  unfold bind, set_item, modify. apply IH.
Qed.

Lemma combine_results_returns sources results :
  Forall2 (fun (_ : string) r => exists l : list Ref, r = Returns l)
          sources results ->
  forall all_papers (s : Papers.St W),
    exists s',
      combine_results sources results all_papers s
      = (Returns (all_papers ++ concat (map papers_of results)), s').
Proof.
  induction 1 as [|source_name r sources results [l ->] _ IH];
    intros all_papers s.
  - simpl. rewrite app_nil_r. eauto.
  - cbn [combine_results map concat papers_of].
    destruct l as [|paper l].
    + apply IH.
    + unfold bind.
      destruct (tag_source_returns source_name (paper :: l) s) as [s1 ->].
      destruct (IH (all_papers ++ paper :: l) s1) as [s' ->].
      rewrite <- app_assoc. eauto.
Qed.

Lemma gather_sources_settle query domain sources (s : Papers.St W) :
  Forall2 (fun (_ : string) r => exists l : list Ref, r = Returns l)
          sources
          (fst (gather (map (fun source_name =>
                               _safe_source_search self source_name query domain)
                            sources) s)).
Proof.
  revert s. induction sources as [|source_name sources IH]; intros s.
  - constructor.
  - cbn [map gather].
    destruct (safe_source_search_returns source_name query domain s)
      as (l & s1 & ->).
    specialize (IH s1). destruct (gather _ s1) as [os s2]. simpl in *.
    constructor; eauto.
Qed.
(** ** The loop against the replies of the client *)

Lemma after_calls_S (client : Client W) query limit filters n h w :
  after_calls client query limit filters (S n) h w
  = after_calls client query limit filters n
      (snd (fst (client query limit filters h w)))
      (snd (client query limit filters h w)).
Proof. cbn [after_calls]. by destruct (client _ _ _ _ _) as [[r h'] w']. Qed.

Lemma reply_at_S (client : Client W) query limit filters n h w :
  reply_at client query limit filters (S n) h w
  = reply_at client query limit filters n
      (snd (fst (client query limit filters h w)))
      (snd (client query limit filters h w)).
Proof. unfold reply_at. by rewrite after_calls_S. Qed.

(** The retry loop, for a client whose first [length es] replies are the
    rate-limit signals [es] and whose next reply is not retried. *)
Lemma retry_loop_script source_name (client : Client W) query filters es :
  forall remaining attempt (s : Papers.St W),
    Z.of_nat remaining + attempt = max_rate_limit_retries (config self) + 1 ->
    (forall i e, es !! i = Some e ->
       reply_at client query (papers_per_source (config self)) filters i
                (heap s) (Papers.world s) = Throws e
       /\ rate_limit_signal e) ->
    attempt + Z.of_nat (length es) <= max_rate_limit_retries (config self) ->
    (attempt + Z.of_nat (length es) < max_rate_limit_retries (config self) ->
     forall e,
       reply_at client query (papers_per_source (config self)) filters
                (length es) (heap s) (Papers.world s) = Throws e ->
       ~ rate_limit_signal e) ->
    retry_loop self source_name client query filters remaining attempt s
    = (match reply_at client query (papers_per_source (config self)) filters
               (length es) (heap s) (Papers.world s) with
       | Replies papers => Returns (Broke papers)
       | Hangs => Returns (Returned [])
       | Throws e =>
           if is_timeout e || is_rate_limit e then Returns (Returned [])
           else Raises e
       end,
       Papers.mkSt
         (fst (after_calls client query (papers_per_source (config self))
                 filters (S (length es)) (heap s) (Papers.world s)))
         (snd (after_calls client query (papers_per_source (config self))
                 filters (S (length es)) (heap s) (Papers.world s)))
         (Papers.trace s
          ++ retried source_name (per_call_timeout source_name)
               (rate_limit_backoff_seconds (config self)) attempt es
          ++ [ApiAttempt source_name (attempt + Z.of_nat (length es))
                (per_call_timeout source_name)
                (yielded_by
                   (reply_at client query (papers_per_source (config self))
                      filters (length es) (heap s) (Papers.world s)))])).
Proof.
  induction es as [|e0 es IH]; intros remaining attempt s Hsum Hes Hle Hfinal.
  - cbn [length retried app] in *. rewrite Z.add_0_r in *.
    destruct remaining as [|remaining]; [lia|].
    rewrite after_calls_S. cbn [after_calls fst snd].
    unfold reply_at in *. cbn [after_calls fst snd] in *.
    cbn [retry_loop]. unfold bind, outcome_of, wait_for_search, Papers.emit,
      modify, ret, raise.
    destruct (client query (papers_per_source (config self)) filters
                (heap s) (Papers.world s)) as [[r h'] w'].
    cbn [fst snd] in *.
    destruct r as [papers|e|]; cbn [yielded_by Papers.heap Papers.world
                                     Papers.trace]; [done| |done].
    destruct (is_timeout e) eqn:Ht; cbn [orb]; [done|].
    destruct (is_rate_limit e) eqn:Hr; [|done].
    destruct (Z.ltb_spec attempt (max_rate_limit_retries (config self)))
      as [Hlt|Hge]; [|done].
    exfalso. by apply (Hfinal Hlt e).
  - cbn [length retried] in *.
    destruct remaining as [|remaining]; [lia|].
    destruct (Hes 0%nat e0 eq_refl) as [Hfirst [Ht Hr]].
    rewrite (after_calls_S _ _ _ _ (S (length es))), reply_at_S.
    assert (Hes' : forall i e, es !! i = Some e ->
              reply_at client query (papers_per_source (config self)) filters
                i (snd (fst (client query (papers_per_source (config self))
                               filters (heap s) (Papers.world s))))
                (snd (client query (papers_per_source (config self)) filters
                        (heap s) (Papers.world s))) = Throws e
              /\ rate_limit_signal e).
    { intros i e Hi. specialize (Hes (S i) e Hi).
      by rewrite reply_at_S in Hes. }
    assert (Hfinal' :
              attempt + 1 + Z.of_nat (length es)
              < max_rate_limit_retries (config self) ->
              forall e,
                reply_at client query (papers_per_source (config self))
                  filters (length es)
                  (snd (fst (client query (papers_per_source (config self))
                               filters (heap s) (Papers.world s))))
                  (snd (client query (papers_per_source (config self))
                          filters (heap s) (Papers.world s))) = Throws e ->
                ~ rate_limit_signal e).
    { intros Hlt e He. apply Hfinal; [lia|]. by rewrite reply_at_S. }
    unfold reply_at in Hfirst. cbn [after_calls fst snd] in Hfirst.
    cbn [retry_loop]. unfold bind at 1, outcome_of at 1, wait_for_search at 1.
    destruct (client query (papers_per_source (config self)) filters
                (heap s) (Papers.world s)) as [[r h'] w'].
    cbn [fst snd] in *. subst r.
    unfold bind at 1, Papers.emit at 1, modify at 1.
    cbn [Papers.heap Papers.world Papers.trace].
    rewrite Ht, Hr.
    destruct (Z.ltb_spec attempt (max_rate_limit_retries (config self)))
      as [Hlt|Hge]; [|lia].
    unfold bind at 1, Papers.emit at 1, modify at 1.
    cbn [Papers.heap Papers.world Papers.trace].
    rewrite (IH remaining (attempt + 1)
               (Papers.mkSt h' w'
                  ((Papers.trace s
                    ++ [ApiAttempt source_name attempt
                          (per_call_timeout source_name) (Raises e0)])
                   ++ [Sleep (rate_limit_backoff_seconds (config self))])));
      cbn [Papers.heap Papers.world Papers.trace]; [|lia|done|lia|done].
    replace (attempt + 1 + Z.of_nat (length es))
      with (attempt + Z.of_nat (S (length es))) by lia.
    by rewrite <- !app_assoc.
Qed.

(** [_safe_source_search] against the replies of the client. *)
Lemma safe_source_search_script source_name query domain (s : Papers.St W)
    client filters h1 w1 es :
  api_clients self !! source_name = Some client ->
  build_filters self source_name domain query (heap s) (Papers.world s)
  = (Returns filters, h1, w1) ->
  (forall i e, es !! i = Some e ->
     reply_at client query (papers_per_source (config self)) filters i h1 w1
     = Throws e
     /\ rate_limit_signal e) ->
  Z.of_nat (length es) <= max_rate_limit_retries (config self) ->
  (Z.of_nat (length es) < max_rate_limit_retries (config self) ->
   forall e,
     reply_at client query (papers_per_source (config self)) filters
              (length es) h1 w1 = Throws e ->
     ~ rate_limit_signal e) ->
  _safe_source_search self source_name query domain s
  = (Returns
       (contribution
          (reply_at client query (papers_per_source (config self)) filters
             (length es) h1 w1)),
     Papers.mkSt
       (fst (after_calls client query (papers_per_source (config self))
               filters (S (length es)) h1 w1))
       (snd (after_calls client query (papers_per_source (config self))
               filters (S (length es)) h1 w1))
       (Papers.trace s
        ++ retried source_name (per_call_timeout source_name)
             (rate_limit_backoff_seconds (config self)) 0 es
        ++ [ApiAttempt source_name (Z.of_nat (length es))
              (per_call_timeout source_name)
              (yielded_by
                 (reply_at client query (papers_per_source (config self))
                    filters (length es) h1 w1))])).
Proof.
  intros Hclient Hfilters Hes Hle Hfinal.
  unfold _safe_source_search, try_except. rewrite Hclient.
  unfold bind at 1, call_raising. rewrite Hfilters.
  unfold bind at 1.
  rewrite (retry_loop_script source_name client query filters es
             (Z.to_nat (max_rate_limit_retries (config self) + 1)) 0
             (Papers.mkSt h1 w1 (Papers.trace s)));
    cbn [Papers.heap Papers.world Papers.trace]; [|lia|done|lia|].
  2:{ intros Hlt. apply Hfinal. lia. }
  rewrite Z.add_0_l.
  destruct (reply_at client query (papers_per_source (config self)) filters
              (length es) h1 w1) as [[papers|]|e|];
    cbn [contribution yielded_by]; try done.
  by destruct (is_timeout e || is_rate_limit e).
Qed.

(** A provider that answers contributes the papers it answered with. *)
Lemma safe_source_search_answers source_name query domain (s : Papers.St W)
    papers :
  0 <= max_rate_limit_retries (config self) ->
  provider_answers self source_name query domain s papers ->
  exists s',
    _safe_source_search self source_name query domain s = (Returns papers, s').
Proof.
  intros Hmax (client & filters & h1 & w1 & Hclient & Hfilters & Hreply).
  rewrite (safe_source_search_script source_name query domain s client
             filters h1 w1 [] Hclient Hfilters).
  - cbn [length]. rewrite Hreply. cbn [contribution]. eauto.
  - intros i e Hi. by rewrite lookup_nil in Hi.
  - cbn [length]. lia.
  - cbn [length]. intros _ e He. rewrite Hreply in He. discriminate.
Qed.

End DispatchFacts.

(** C6. [_safe_source_search] against the replies of the client of the
    source, for filters that could be built.  When the first [length es]
    calls of the client raise the rate-limit signals [es] (exceptions other
    than timeouts whose text names a rate limit), with [length es] at most
    [max_rate_limit_retries], and the next reply is not one more signal
    that would still be retried, then: each of those calls is followed by
    one sleep of [rate_limit_backoff_seconds] and one more call, so the
    client is called exactly [length es + 1] times; the search returns and
    does not raise; and it returns what that last reply contributes, which
    is nothing when the reply is an exception (a rate-limit signal after
    the retries are exhausted, or any other error, which is not retried) or
    a timeout. *)
Theorem rate_limit_retry_policy :
  forall (W : Type) (self : SearchOrchestrator.Orchestrator W)
         (source_name query domain : string) (s : Papers.St W)
         (client : SearchOrchestrator.Client W) (filters : PyVal)
         (h1 : gmap nat (gmap string PyVal)) (w1 : W) (es : list PyExc),
    SearchOrchestrator.api_clients self !! source_name = Some client ->
    SearchOrchestrator.build_filters self source_name domain query
      (Papers.heap s) (Papers.world s) = (Returns filters, h1, w1) ->
    (forall i e, es !! i = Some e ->
       reply_at client query
         (SearchOrchestrator.papers_per_source (SearchOrchestrator.config self))
         filters i h1 w1 = SearchOrchestrator.Throws e
       /\ rate_limit_signal e) ->
    Z.of_nat (length es)
    <= SearchOrchestrator.max_rate_limit_retries (SearchOrchestrator.config self) ->
    (Z.of_nat (length es)
     < SearchOrchestrator.max_rate_limit_retries (SearchOrchestrator.config self) ->
     forall e,
       reply_at client query
         (SearchOrchestrator.papers_per_source (SearchOrchestrator.config self))
         filters (length es) h1 w1 = SearchOrchestrator.Throws e ->
       ~ rate_limit_signal e) ->
    SearchOrchestrator._safe_source_search self source_name query domain s
    = (Returns
         (contribution
            (reply_at client query
               (SearchOrchestrator.papers_per_source
                  (SearchOrchestrator.config self))
               filters (length es) h1 w1)),
       Papers.mkSt
         (fst (after_calls client query
                 (SearchOrchestrator.papers_per_source
                    (SearchOrchestrator.config self))
                 filters (S (length es)) h1 w1))
         (snd (after_calls client query
                 (SearchOrchestrator.papers_per_source
                    (SearchOrchestrator.config self))
                 filters (S (length es)) h1 w1))
         (Papers.trace s
          ++ retried source_name
               (SearchOrchestrator.per_call_timeout source_name)
               (SearchOrchestrator.rate_limit_backoff_seconds
                  (SearchOrchestrator.config self)) 0 es
          ++ [ApiAttempt source_name (Z.of_nat (length es))
                (SearchOrchestrator.per_call_timeout source_name)
                (yielded_by
                   (reply_at client query
                      (SearchOrchestrator.papers_per_source
                         (SearchOrchestrator.config self))
                      filters (length es) h1 w1))])).
Proof.
  intros W self source_name query domain s client filters h1 w1 es.
  apply safe_source_search_script.
Qed.

Lemma rate_limit_retry_policy_witness :
  SearchOrchestrator._safe_source_search Demo.throttled_orchestrator
    "CORE" "attention" "Computer Science" (Papers.mkSt Demo.papers0 0%nat [])
  = (Returns [0; 2]%nat,
     Papers.mkSt Demo.papers0 2%nat
       [ApiAttempt "CORE" 0 30
          (Raises (mkExc OtherError "429 Too Many Requests"));
        Sleep 2;
        ApiAttempt "CORE" 1 30 (Returns (Some [0; 2]%nat))]).
Proof.
  apply (rate_limit_retry_policy nat Demo.throttled_orchestrator
           "CORE" "attention" "Computer Science"
           (Papers.mkSt Demo.papers0 0%nat [])
           Demo.throttled_client (VDict []) Demo.papers0 0%nat
           [mkExc OtherError "429 Too Many Requests"]).
  - reflexivity.
  - reflexivity.
  - intros [|[|i]] e Hi; [|discriminate Hi..].
    injection Hi as <-. split; [reflexivity|]. split; reflexivity.
  - vm_compute. discriminate.
  - vm_compute. intros Hlt. discriminate Hlt.
Defined.

(** The retries run out: with the default configuration (one retry, a
    backoff of 2 seconds) a provider that keeps answering 429 is called
    twice, with one sleep in between, and contributes nothing. *)
Example safe_source_search_retries_exhausted :
  SearchOrchestrator._safe_source_search Demo.throttled_orchestrator
    "Unpaywall" "attention" "Computer Science"
    (Papers.mkSt Demo.papers0 0%nat [])
  = (Returns [],
     Papers.mkSt Demo.papers0 2%nat
       [ApiAttempt "Unpaywall" 0 30
          (Raises (mkExc OtherError "429 Too Many Requests"));
        Sleep 2;
        ApiAttempt "Unpaywall" 1 30
          (Raises (mkExc OtherError "429 Too Many Requests"))]).
Proof. vm_compute. reflexivity. Qed.

(** Another error is not retried: one call, no sleep, no papers. *)
Example safe_source_search_other_error_once :
  SearchOrchestrator._safe_source_search Demo.throttled_orchestrator
    "Crossref" "attention" "Computer Science"
    (Papers.mkSt Demo.papers0 0%nat [])
  = (Returns [],
     Papers.mkSt Demo.papers0 1%nat
       [ApiAttempt "Crossref" 0 30
          (Raises (mkExc OtherError "connection refused"))]).
Proof. vm_compute. reflexivity. Qed.

(** C4. For every client, [_safe_source_search] returns a list and never
    raises, and a non-empty list is the list the last awaited call of the
    client returned.  A provider that answers contributes what it answered:
    when the client of a source answers its first call with [papers], the
    search of that source returns [papers].  In [_search_all_sources] the
    task of every active source settles with a list, whatever the other
    sources do, and the result is the concatenation of those lists in the
    order of the sources; so the papers of a source that answers are part
    of the merged result, also when the sources before and after it
    fail. *)
Theorem provider_failures_isolated :
  forall (W : Type) (self : SearchOrchestrator.Orchestrator W)
         (query domain : string) (s : Papers.St W),
    (forall (source_name : string) (s0 : Papers.St W),
        exists result s',
          SearchOrchestrator._safe_source_search self source_name query
            domain s0 = (Returns result, s')
          /\ (result = []
              \/ exists attempt timeout,
                  last (Papers.trace s')
                  = Some (ApiAttempt source_name attempt timeout
                                     (Returns (Some result)))))
    /\ (forall (source_name : string) (s0 : Papers.St W) (papers : list Ref),
          0 <= SearchOrchestrator.max_rate_limit_retries
                 (SearchOrchestrator.config self) ->
          provider_answers self source_name query domain s0 papers ->
          exists s',
            SearchOrchestrator._safe_source_search self source_name query
              domain s0 = (Returns papers, s'))
    /\ exists results s1 s2,
        gather (SearchOrchestrator.search_tasks self query domain) s
        = (results, s1)
        /\ Forall2 (fun (_ : string) r => exists l : list Ref, r = Returns l)
                   (SearchOrchestrator.active_sources self) results
        /\ SearchOrchestrator._search_all_sources self query domain s
           = (Returns (concat (map papers_of results)), s2)
        /\ (forall (i : nat) (source_name : string) (papers : list Ref),
              0 <= SearchOrchestrator.max_rate_limit_retries
                     (SearchOrchestrator.config self) ->
              SearchOrchestrator.active_sources self !! i = Some source_name ->
              provider_answers self source_name query domain
                (snd (gather
                        (take i (SearchOrchestrator.search_tasks self query
                                   domain)) s))
                papers ->
              results !! i = Some (Returns papers)
              /\ sublist papers (concat (map papers_of results))).
Proof.
  intros W self query domain s. split; [|split].
  - intros source_name s0.
    pose proof (safe_source_search_wp self source_name query domain s0) as Hwp.
    unfold wp in Hwp.
    destruct (SearchOrchestrator._safe_source_search self source_name query
                domain s0) as [o s'].
    destruct Hwp as (result & es & final & Ho & Htr & _ & Hlast).
    simpl in Ho, Htr. subst o. exists result, s'. split; [done|].
    destruct Hlast as [(_ & _ & ->)|(yielded & -> & _ & Hy)]; [by left|].
    destruct yielded as [[l|]|e]; simpl in Hy.
    + subst result. right. eexists _, _.
      rewrite Htr, !app_assoc. apply last_snoc.
    + by left.
    + left. apply Hy.
  - intros source_name s0 papers.
    apply safe_source_search_answers.
  - pose proof (gather_sources_settle self query domain
                  (SearchOrchestrator.active_sources self) s) as Hsettle.
    pose proof (gather_lookup
                  (SearchOrchestrator.search_tasks self query domain) s)
      as Hlookup.
    unfold SearchOrchestrator._search_all_sources, bind, gather_m.
    fold (SearchOrchestrator.search_tasks self query domain) in Hsettle.
    destruct (gather (SearchOrchestrator.search_tasks self query domain) s)
      as [results s1].
    simpl in Hsettle, Hlookup.
    destruct (combine_results_returns _ _ Hsettle [] s1) as [s2 Hc].
    exists results, s1, s2. split; [done|]. split; [done|]. split; [done|].
    intros i source_name papers Hmax Hi Hanswers.
    destruct (safe_source_search_answers self source_name query domain _
                papers Hmax Hanswers) as [s' Hrun].
    assert (Hres : results !! i = Some (Returns papers)).
    { rewrite (Hlookup i
                 (SearchOrchestrator._safe_source_search self source_name
                    query domain)).
      - by rewrite Hrun.
      - unfold SearchOrchestrator.search_tasks.
        by rewrite list_lookup_fmap, Hi. }
    split; [done|].
    apply (sublist_concat_lookup (map papers_of results) i).
    by rewrite list_lookup_fmap, Hres.
Qed.

Lemma provider_failures_isolated_witness :
  exists result s',
    SearchOrchestrator._search_all_sources Demo.throttled_orchestrator
      "attention" "Computer Science" (Papers.mkSt Demo.papers0 0%nat [])
    = (Returns result, s')
    /\ sublist [0; 2]%nat result.
Proof.
  destruct (provider_failures_isolated nat Demo.throttled_orchestrator
              "attention" "Computer Science"
              (Papers.mkSt Demo.papers0 0%nat []))
    as (_ & _ & results & s1 & s2 & _ & _ & Hrun & Hmerged).
  exists (concat (map papers_of results)), s2. split; [exact Hrun|].
  apply (Hmerged 1%nat "CORE" [0; 2]%nat).
  - vm_compute. discriminate.
  - reflexivity.
  - exists Demo.throttled_client, (VDict []), Demo.papers0, 1%nat.
    split; [reflexivity|]. split; reflexivity.
Defined.

(** That run, evaluated: the first source fails at the network, the
    second answers, the third is rate limited until its retries run out;
    the papers of the second are the result. *)
Example search_all_sources_merges_despite_failures :
  fst (SearchOrchestrator._search_all_sources Demo.throttled_orchestrator
         "attention" "Computer Science" (Papers.mkSt Demo.papers0 0%nat []))
  = Returns [0; 2]%nat.
Proof. vm_compute. reflexivity. Qed.

(* ===================================================================== *)
(** * The message handler and the consumer *)
(* ===================================================================== *)

Section MessagingFacts.
Import Messaging Messaging.Connection Messaging.Handlers Messaging.Consumer.
Context {W : Type}.

(** [publish_message] never raises and adds no event. *)
Lemma publish_message_returns (cm : RabbitMQConnection W) key data
    (s : Messaging.St W) :
  exists ok w',
    publish_message cm key data s
    = (Returns ok, Messaging.mkSt w' (Messaging.trace s)).
Proof.
  unfold publish_message.
  destruct (negb (is_connected cm)
            || negb (bool_decide (is_Some (channel cm)))).
  - exists false, (Messaging.world s). by destruct s.
  - unfold try_except, bind, Messaging.call, ret.
    destruct (exchange_publish cm key data (Messaging.world s))
      as [[[]|e] w']; simpl; eauto.
Qed.

(** Every run of [handle_message] on an initialised handler. *)
Lemma handle_message_initialized agent (cm : RabbitMQConnection W) message
    (s : Messaging.St W) :
  exists b w' tr,
    handle_message (initialize WebSearchMessageHandler_new agent cm) message s
    = (Returns b, Messaging.mkSt w' (Messaging.trace s ++ tr))
    /\ handled tr.
Proof.
  unfold handle_message, try_except, bind, of_outcome.
  destruct (truthy (_parse_message message)); simpl.
  2:{ exists false, (Messaging.world s), []. rewrite app_nil_r.
      destruct s; split; [reflexivity|constructor]. }
  destruct (_validate_websearch_message (_parse_message message))
    as [[|]|e]; simpl;
    [ | by eexists _, _, [_]; split; [reflexivity|constructor] .. ].
  destruct (py_get (_parse_message message) "correlationId" (VStr "unknown"))
    as [v|e]; simpl;
    [ | by eexists _, _, [_]; split; [reflexivity|constructor] ].
  unfold run_agent, bind, Messaging.emit, modify, Messaging.call, ret; simpl.
  destruct (process_request agent (_parse_message message) (Messaging.world s))
    as [[r|e] w1]; simpl.
  2:{ eexists _, _, [_; _]. rewrite <- !app_assoc.
      split; [reflexivity|constructor]. }
  unfold publish_result, publish_websearch_result, bind; simpl.
  match goal with
  | |- context [publish_message cm ?k r ?st] =>
      destruct (publish_message_returns cm k r st) as (ok & w2 & ->)
  end.
  simpl. unfold of_outcome.
  destruct (py_get r "correlationId" (VStr "unknown")) as [c|e]; simpl;
    eexists _, _, [_; _; _; _]; rewrite <- !app_assoc;
    (split; [reflexivity|constructor]).
Qed.

(** A handler that was never initialised has no agent: it acknowledges
    nothing. *)
Lemma handle_message_uninitialized message (s : Messaging.St W) :
  exists b tr,
    handle_message WebSearchMessageHandler_new message s
    = (Returns b, Messaging.mkSt (Messaging.world s) (Messaging.trace s ++ tr))
    /\ handled tr.
Proof.
  unfold handle_message, try_except, bind, of_outcome.
  destruct (truthy (_parse_message message)); simpl.
  2:{ exists false, []. rewrite app_nil_r.
      destruct s; split; [reflexivity|constructor]. }
  destruct (_validate_websearch_message (_parse_message message))
    as [[|]|e]; simpl;
    [ | by eexists _, [_]; split; [reflexivity|constructor] .. ].
  destruct (py_get (_parse_message message) "correlationId" (VStr "unknown"))
    as [v|e]; simpl;
    by eexists _, [_]; split; [reflexivity|constructor].
Qed.

Lemma handled_ack_ordered tr : handled tr -> ack_after_run_and_publish tr.
Proof.
  intros H i Hi. destruct H;
    repeat (destruct i as [|i]; simpl in Hi; try discriminate).
  exists 1%nat, 2%nat, result, result, success. repeat split; lia.
Qed.



End MessagingFacts.

(** C7, at the failing input. A delivery whose body is the empty JSON
    object has neither a request identifier nor query terms; whatever the
    handler, [handle_message] returns [False] on it without any event: the
    delivery is not rejected (and not acknowledged), and the agent is not
    called. *)
Theorem handle_message_empty_object_unsettled :
  forall (W : Type) (h : Messaging.Handlers.WebSearchMessageHandler W)
         (key : option string) (s : Messaging.St W),
    Messaging.Handlers.handle_message h
      {| Messaging.routing_key := key;
         Messaging.body := Messaging.Json (VDict []) |} s
    = (Returns false, s).
Proof.
  intros W h key s.
  unfold Messaging.Handlers.handle_message, try_except.
  cbn [Messaging.Handlers._parse_message Messaging.body truthy negb].
  reflexivity.
Qed.

(** C8. On a handler initialised by the consumer, and on one never
    initialised, [handle_message] returns, and in the events it adds every
    acknowledgement comes after the return of the agent and, after that,
    the return of the publishing call. *)
Theorem ack_only_after_run_and_publish :
  forall (W : Type) (agent : Messaging.Handlers.WebSearchAgent W)
         (cm : Messaging.Connection.RabbitMQConnection W)
         (message : Messaging.IncomingMessage) (s : Messaging.St W),
    (exists b w' tr,
        Messaging.Handlers.handle_message
          (Messaging.Handlers.initialize
             Messaging.Handlers.WebSearchMessageHandler_new agent cm)
          message s
        = (Returns b, Messaging.mkSt w' (Messaging.trace s ++ tr))
        /\ ack_after_run_and_publish tr)
    /\ (exists b w' tr,
          Messaging.Handlers.handle_message
            Messaging.Handlers.WebSearchMessageHandler_new message s
          = (Returns b, Messaging.mkSt w' (Messaging.trace s ++ tr))
          /\ ack_after_run_and_publish tr).
Proof.
  intros W agent cm message s. split.
  - destruct (handle_message_initialized agent cm message s)
      as (b & w' & tr & Hrun & Htr).
    exists b, w', tr. split; [exact Hrun|]. by apply handled_ack_ordered.
  - destruct (handle_message_uninitialized message s)
      as (b & tr & Hrun & Htr).
    exists b, (Messaging.world s), tr. split; [exact Hrun|].
    by apply handled_ack_ordered.
Qed.

(** The acknowledging run exists: a valid request on a connected broker. *)
Example handle_message_acks_valid_request :
  Messaging.trace
    (snd (Messaging.Handlers.handle_message
            (Messaging.Handlers.initialize
               Messaging.Handlers.WebSearchMessageHandler_new
               Demo.agent Demo.connection)
            Demo.request (Messaging.mkSt tt [])))
  = [Messaging.AgentCalled
       (VDict [("projectId", VStr "p-1");
               ("queryTerms", VList [VStr "attention"])]);
     Messaging.AgentReturned
       (VDict [("correlationId", VStr "c-1"); ("papers", VList [])]);
     Messaging.PublishReturned
       (VDict [("correlationId", VStr "c-1"); ("papers", VList [])]) true;
     Messaging.Ack].
Proof. vm_compute. reflexivity. Qed.


(* ===================================================================== *)
(** * Further properties of the message handler *)
(* ===================================================================== *)

Section HandlerValidation.
Import Messaging Messaging.Connection Messaging.Handlers.

Lemma validate_dict (kvs : list (string * PyVal)) :
  _validate_websearch_message (VDict kvs)
  = Returns (match assoc "projectId" kvs, assoc "queryTerms" kvs with
             | Some _, Some (VList (_ :: _)) => true
             | _, _ => false
             end).
Proof.
  unfold _validate_websearch_message, has_fields, py_in, py_get.
  destruct (assoc "projectId" kvs) as [pid|]; simpl; [|reflexivity].
  destruct (assoc "queryTerms" kvs) as [[| | | | |[|x l]|]|]; reflexivity.
Qed.

End HandlerValidation.

(** X1. On a JSON object, validation never raises and accepts exactly the
    objects that have a ["projectId"] key (whatever its value) and whose
    ["queryTerms"] is a non-empty list. *)
Theorem validate_websearch_message_accepts :
  forall kvs : list (string * PyVal),
    (exists b, Messaging.Handlers._validate_websearch_message (VDict kvs)
               = Returns b)
    /\ (Messaging.Handlers._validate_websearch_message (VDict kvs)
        = Returns true
        <-> is_Some (assoc "projectId" kvs)
            /\ exists term terms,
                assoc "queryTerms" kvs = Some (VList (term :: terms))).
Proof.
  intros kvs. rewrite validate_dict. split; [eauto|].
  destruct (assoc "projectId" kvs) as [pid|].
  - destruct (assoc "queryTerms" kvs) as [[| | | | |[|x l]|]|]; split;
      try discriminate; try (intros [_ (t & ts & Ht)]; discriminate).
    + intros _. split; [by eexists|]. by exists x, l.
    + reflexivity.
  - split; [discriminate|]. intros [[v Hv] _]. discriminate.
Qed.

Section HandlerRuns.
Import Messaging Messaging.Connection Messaging.Handlers.
Context {W : Type}.



End HandlerRuns.









(* ===================================================================== *)
(** * Further properties of the connection, the factory and the consumer *)
(* ===================================================================== *)

(** X9. [publish_message] never raises and adds no event.  Without a
    connection or a channel it returns [False] and does not touch the
    broker; otherwise it returns [True] exactly when publishing on the
    exchange did not raise. *)
Theorem publish_message_result :
  forall (W : Type) (cm : Messaging.Connection.RabbitMQConnection W)
         (routing_key : string) (message_data : PyVal) (s : Messaging.St W),
    exists ok w',
      Messaging.Connection.publish_message cm routing_key message_data s
      = (Returns ok, Messaging.mkSt w' (Messaging.trace s))
      /\ (if Messaging.Connection.is_connected cm
             && bool_decide (is_Some (Messaging.Connection.channel cm))
          then (ok, w')
               = (match fst (Messaging.Connection.exchange_publish cm
                               routing_key message_data (Messaging.world s))
                  with
                  | Returns _ => true
                  | Raises _ => false
                  end,
                  snd (Messaging.Connection.exchange_publish cm
                         routing_key message_data (Messaging.world s)))
          else (ok, w') = (false, Messaging.world s)).
Proof.
  intros W cm routing_key message_data s.
  unfold Messaging.Connection.publish_message.
  destruct (Messaging.Connection.is_connected cm); cbn [negb orb andb].
  2:{ exists false, (Messaging.world s). by destruct s. }
  destruct (bool_decide (is_Some (Messaging.Connection.channel cm)));
    cbn [negb].
  2:{ exists false, (Messaging.world s). by destruct s. }
  unfold try_except, bind, Messaging.call, ret.
  destruct (Messaging.Connection.exchange_publish cm routing_key
              message_data (Messaging.world s)) as [[[]|e] w'];
    cbn [fst snd Messaging.world Messaging.trace]; eauto.
Qed.

Section ConsumerFacts.
Import Messaging Messaging.Connection Messaging.Handlers Messaging.Consumer.

Lemma split_first_dot (s : string) :
  contains "." (split_first "." s) = false
  /\ (split_first "." s = s
      \/ exists rest, s = (split_first "." s ++ "." ++ rest)%string).
Proof.
  induction s as [|c s [IHc IHs]]; [by split; [|left]|].
  cbn [split_first]. destruct (Ascii.eqb_spec c ".") as [->|Hne].
  - split; [reflexivity|]. right. by exists s.
  - split.
    + cbn [contains String.prefix].
      destruct (ascii_dec "." c) as [<-|_]; [done|]. exact IHc.
    + destruct IHs as [Hsame|[rest Hrest]].
      * left. by rewrite Hsame.
      * right. exists rest. rewrite Hrest at 1. reflexivity.
Qed.
End ConsumerFacts.

(** X10. The message type of a delivery is "websearch" when the routing
    key is missing or empty; otherwise it is the part of the key before its
    first dot: it contains no dot, and the key is the type itself or the
    type followed by a dot and the rest. *)
Theorem extract_message_type_first_segment :
  forall message : Messaging.IncomingMessage,
    match Messaging.routing_key message with
    | None => Messaging.Consumer._extract_message_type message = "websearch"
    | Some key =>
        if String.eqb key ""
        then Messaging.Consumer._extract_message_type message = "websearch"
        else contains "." (Messaging.Consumer._extract_message_type message)
             = false
             /\ (Messaging.Consumer._extract_message_type message = key
                 \/ exists rest,
                     key = (Messaging.Consumer._extract_message_type message
                            ++ "." ++ rest)%string)
    end.
Proof.
  intros [[key|] body]; cbn [Messaging.routing_key]; [|reflexivity].
  unfold Messaging.Consumer._extract_message_type.
  cbn [Messaging.routing_key].
  destruct key as [|c key]; [reflexivity|].
  cbn [String.eqb]. apply split_first_dot.
Qed.

(** X11. Registering a handler makes [get_handler] return it for its
    message type and changes the answer for no other type; a registered
    handler takes precedence over the default one, the default answers for
    every type that is not registered, and a new factory has no handler. *)
Theorem factory_register_lookup :
  forall (factory : Messaging.Handlers.MessageHandlerFactory)
         (message_type other : string) (handler fallback : nat),
    Messaging.Handlers.get_handler
      (Messaging.Handlers.register_handler factory message_type handler)
      message_type = Some handler
    /\ (other <> message_type ->
        Messaging.Handlers.get_handler
          (Messaging.Handlers.register_handler factory message_type handler)
          other
        = Messaging.Handlers.get_handler factory other)
    /\ Messaging.Handlers.get_handler
         (Messaging.Handlers.set_default_handler
            (Messaging.Handlers.register_handler factory message_type handler)
            fallback)
         message_type = Some handler
    /\ (Messaging.Handlers.handlers factory !! other = None ->
        Messaging.Handlers.get_handler
          (Messaging.Handlers.set_default_handler factory fallback) other
        = Some fallback)
    /\ Messaging.Handlers.get_handler
         Messaging.Handlers.MessageHandlerFactory_new other = None.
Proof.
  intros factory message_type other handler fallback.
  unfold Messaging.Handlers.get_handler, Messaging.Handlers.register_handler,
    Messaging.Handlers.set_default_handler,
    Messaging.Handlers.MessageHandlerFactory_new.
  cbn [Messaging.Handlers.handlers Messaging.Handlers.default_handler].
  rewrite lookup_insert_eq, lookup_empty.
  split; [done|]. split.
  { intros Hne. by rewrite lookup_insert_ne. }
  split; [done|]. split; [|done].
  by intros ->.
Qed.

(** The branch without a handler is taken by a consumer whose factory has
    no default handler. *)
Example process_message_no_handler :
  Messaging.Consumer._process_message Demo.bare_consumer
    Demo.stray_delivery (Messaging.mkSt tt [])
  = (Returns tt, Messaging.mkSt tt [Messaging.Reject false]).
Proof. vm_compute. reflexivity. Qed.

(* ===================================================================== *)
(** * Further properties of the PDF processor *)
(* ===================================================================== *)

Section PdfProcessorMore.
Import PdfProcessor.
Context {W : Type} (svc : PDFProcessorService W).

(** The store after the two writes of a successful [process_paper_pdf]. *)
Lemma attached_heap (h : gmap nat (gmap string PyVal)) p url :
  <[p := delete "pdfContent"
           (deref (<[p := <["pdfContentUrl" := url]> (deref h p)]> h) p)]>
    (<[p := <["pdfContentUrl" := url]> (deref h p)]> h)
  = <[p := with_content url (deref h p)]> h.
Proof.
  unfold deref at 1. rewrite lookup_insert_eq. cbn [default].
  by rewrite insert_insert_eq.
Qed.

Lemma title_prefix_run p (s : Papers.St W) :
  title_prefix p s
  = if title_sliceable (deref (heap s) p) then (Returns tt, s)
    else (Raises (mkExc TypeError "object is not subscriptable"), s).
Proof.
  unfold title_prefix, title_sliceable, bind, gets.
  by destruct (default _ _).
Qed.

(** [process_paper_pdf] as a whole: whatever it does, it either drops the
    paper and leaves store and events as they were, or attaches a truthy
    reference to its own paper. *)
Lemma process_paper_pdf_cases p (s : Papers.St W)
    (Q : Outcome (option Ref) -> Papers.St W -> Prop) :
  (forall o w',
      o = Returns None \/ (exists e, o = Raises e) ->
      Q o (Papers.mkSt (heap s) w' (Papers.trace s))) ->
  (forall url w',
      truthy url = true -> title_sliceable (deref (heap s) p) = true ->
      Q (Returns (Some p))
        (Papers.mkSt (<[p := with_content url (deref (heap s) p)]> (heap s))
                     w' (Papers.trace s))) ->
  wp (process_paper_pdf svc p) Q s.
Proof.
  intros Hdrop Hkeep.
  assert (Hdiscard : forall w', wp (title_prefix p ;;; ret None) Q
                                   (Papers.mkSt (heap s) w' (Papers.trace s))).
  { intros w'. apply wp_bind. unfold wp. rewrite title_prefix_run.
    cbn [Papers.heap]. destruct (title_sliceable _); cbn [fst snd].
    - apply Hdrop. by left.
    - apply Hdrop. eauto. }
  assert (Hdiscard_try : forall w',
             wp (title_prefix p ;;; ret None)
                (fun o s2 => match o with
                             | Returns a => Q (Returns a) s2
                             | Raises e => wp (title_prefix p ;;; ret None) Q s2
                             end)
                (Papers.mkSt (heap s) w' (Papers.trace s))).
  { intros w'. apply wp_bind. unfold wp at 1. rewrite title_prefix_run.
    cbn [Papers.heap]. destruct (title_sliceable _); cbn [fst snd].
    - apply Hdrop. by left.
    - apply Hdiscard. }
  assert (Hattach : forall url w',
             truthy url = true ->
             wp (title_prefix p ;;; set_item p "pdfContentUrl" url ;;;
                 pop_item p "pdfContent" ;;; ret (Some p))
                (fun o s2 => match o with
                             | Returns a => Q (Returns a) s2
                             | Raises e => wp (title_prefix p ;;; ret None) Q s2
                             end)
                (Papers.mkSt (heap s) w' (Papers.trace s))).
  { intros url w' Hurl. apply wp_bind. unfold wp at 1.
    rewrite title_prefix_run. cbn [Papers.heap].
    destruct (title_sliceable _) eqn:Hts; cbn [fst snd].
    - apply wp_bind, wp_modify, wp_bind, wp_modify, wp_ret.
      cbn [Papers.heap Papers.world Papers.trace].
      rewrite attached_heap. by apply Hkeep.
    - apply Hdiscard. }
  unfold process_paper_pdf.
  apply wp_try, wp_bind, wp_call_on. intros [url|e] w1; [|apply Hdiscard].
  destruct (truthy url) eqn:Hurl; [by apply Hattach|].
  apply wp_bind. unfold wp at 1. rewrite title_prefix_run.
  cbn [Papers.heap]. destruct (title_sliceable _) eqn:Hts; cbn [fst snd];
    [|apply Hdiscard].
  apply wp_bind, wp_call_on. intros [content|e] w2; [|apply Hdiscard].
  cbn [Papers.heap Papers.trace].
  destruct (truthy content); cbn [negb]; [|apply Hdiscard_try].
  apply wp_bind. unfold wp at 1. rewrite title_prefix_run.
  cbn [Papers.heap]. rewrite Hts. cbn [fst snd].
  apply wp_bind, wp_call_on. intros [b2|e] w3; [|apply Hdiscard].
  cbn [Papers.heap Papers.trace].
  destruct (truthy b2) eqn:Hb2; [by apply Hattach|apply Hdiscard_try].
Qed.

(** The loop of [process_papers_batch] keeps what one pass of [gather]
    keeps. *)
Lemma process_sequentially_gather papers acc (s : Papers.St W) :
  process_sequentially svc papers acc s
  = (Returns (acc ++ collect_results
                (fst (gather (map (process_paper_pdf svc) papers) s))),
     snd (gather (map (process_paper_pdf svc) papers) s)).
Proof.
  revert acc s. induction papers as [|p papers IH]; intros acc s.
  - simpl. by rewrite app_nil_r.
  - cbn [process_sequentially map gather].
    unfold bind at 1, try_except, bind at 1.
    destruct (process_paper_pdf svc p s) as [[[kept|]|e] s1];
      unfold ret at 1; rewrite IH;
      destruct (gather (map (process_paper_pdf svc) papers) s1) as [os s2];
      cbn [fst snd collect_results]; by rewrite <- ?app_assoc.
Qed.
(** Awaiting the task of each paper in turn is one pass over the tasks. *)
Lemma each_in_turn_gather papers (s : Papers.St W) :
  each_in_turn (process_paper_pdf svc) papers s
  = gather (map (process_paper_pdf svc) papers) s.
Proof.
  revert s. induction papers as [|p papers IH]; intros s; [reflexivity|].
  cbn [each_in_turn map gather].
  destruct (process_paper_pdf svc p s) as [o s1]. by rewrite IH.
Qed.
End PdfProcessorMore.

(** X13. [process_papers_batch], the sequential entry point, never raises:
    each paper is processed in its own [try], one after the other.  It
    returns the input list without the papers whose own processing
    returned [None] or raised; the others keep their input order and
    nothing else is removed, so the output is a subsequence of the input
    (and the empty list for an empty input). *)
Theorem process_papers_batch_drops_failures :
  forall (W : Type) (svc : PdfProcessor.PDFProcessorService W)
         (papers : list Ref) (s : Papers.St W),
  exists out s' results,
    PdfProcessor.process_papers_batch svc papers s = (Returns out, s')
    /\ each_in_turn (PdfProcessor.process_paper_pdf svc) papers s
       = (results, s')
    /\ Forall2 task_outcome papers results
    /\ out = survivors papers results
    /\ sublist out papers.
Proof.
  intros W svc papers s.
  destruct (gather_papers svc papers s) as (Hout & _ & _).
  rewrite each_in_turn_gather.
  destruct (gather (map (PdfProcessor.process_paper_pdf svc) papers) s)
    as [results s'] eqn:Hrun.
  cbn [fst snd] in Hout.
  exists (PdfProcessor.collect_results results), s', results.
  split.
  { destruct papers as [|paper papers]; [by inversion Hrun|].
    unfold PdfProcessor.process_papers_batch.
    by rewrite process_sequentially_gather, Hrun. }
  split; [done|]. split; [done|].
  split; [by apply collect_results_survivors|].
  by apply collect_results_sublist.
Qed.

(** A run in which the first paper has no PDF and is dropped. *)
Example process_papers_batch_drops_one :
  fst (PdfProcessor.process_papers_batch Demo.pdf_service [1; 0; 2]%nat
         Demo.s0)
  = Returns [0; 2]%nat.
Proof. vm_compute. reflexivity. Qed.

(** X14. Reuse of a stored PDF: when storage already has a URL for the
    paper (and the title can be sliced for the log line),
    [process_paper_pdf] returns the paper with that URL as ["pdfContentUrl"]
    and without ["pdfContent"]; the world is the one the lookup left, so
    neither the collector nor the upload is called. *)
Theorem process_paper_pdf_reuses_stored :
  forall (W : Type) (svc : PdfProcessor.PDFProcessorService W)
         (paper : Ref) (s : Papers.St W) (url : PyVal) (w1 : W),
    PdfProcessor.get_pdf_url (PdfProcessor.b2_service svc)
      (deref (heap s) paper) (Papers.world s) = (Returns url, w1) ->
    truthy url = true ->
    title_sliceable (deref (heap s) paper) = true ->
    PdfProcessor.process_paper_pdf svc paper s
    = (Returns (Some paper),
       Papers.mkSt
         (<[paper := with_content url (deref (heap s) paper)]> (heap s))
         w1 (Papers.trace s)).
Proof.
  intros W svc paper s url w1 Hget Hurl Hts.
  unfold PdfProcessor.process_paper_pdf, try_except, bind at 1, call_on.
  rewrite Hget, Hurl. unfold bind at 1. rewrite title_prefix_run.
  cbn [Papers.heap]. rewrite Hts.
  unfold bind, set_item, pop_item, modify, ret.
  cbn [Papers.heap Papers.world Papers.trace].
  by rewrite attached_heap.
Qed.

Lemma process_paper_pdf_reuses_stored_witness :
  PdfProcessor.process_paper_pdf Demo.full_storage 1%nat
    (Papers.mkSt Demo.untitled_papers [] [])
  = (Returns (Some 1%nat),
     Papers.mkSt
       (<[1%nat := with_content (VStr "b2://stored")
                     (deref Demo.untitled_papers 1%nat)]>
          Demo.untitled_papers)
       [] []).
Proof.
  apply (process_paper_pdf_reuses_stored Demo.World Demo.full_storage 1%nat
           (Papers.mkSt Demo.untitled_papers [] []) (VStr "b2://stored") []);
    reflexivity.
Defined.

(** X15. [process_paper_pdf] adds no event and writes nothing but the keys
    ["pdfContentUrl"] and ["pdfContent"] of its own paper: every other key
    and every other paper is as before.  When it does not return the paper
    the whole store is unchanged. *)
Theorem process_paper_pdf_frame :
  forall (W : Type) (svc : PdfProcessor.PDFProcessorService W)
         (paper : Ref) (s : Papers.St W),
    Papers.trace (snd (PdfProcessor.process_paper_pdf svc paper s))
    = Papers.trace s
    /\ (forall (other : Ref) (key : string),
          other <> paper \/ (key <> "pdfContentUrl" /\ key <> "pdfContent") ->
          deref (heap (snd (PdfProcessor.process_paper_pdf svc paper s))) other
            !! key
          = deref (heap s) other !! key)
    /\ (fst (PdfProcessor.process_paper_pdf svc paper s)
        <> Returns (Some paper) ->
        heap (snd (PdfProcessor.process_paper_pdf svc paper s)) = heap s).
Proof.
  intros W svc paper s.
  apply (process_paper_pdf_cases svc paper s
           (fun o s' =>
              Papers.trace s' = Papers.trace s
              /\ (forall (other : Ref) (key : string),
                    other <> paper
                    \/ (key <> "pdfContentUrl" /\ key <> "pdfContent") ->
                    deref (heap s') other !! key = deref (heap s) other !! key)
              /\ (o <> Returns (Some paper) -> heap s' = heap s))).
  - intros o w' Ho. cbn [Papers.heap Papers.trace]. by repeat split.
  - intros url w' Hurl Hts. cbn [Papers.heap Papers.trace].
    split; [done|]. split; [|done].
    intros other key [Hne|[Hk1 Hk2]]; unfold deref.
    + by rewrite lookup_insert_ne.
    + destruct (decide (other = paper)) as [->|Hne];
        [|by rewrite lookup_insert_ne].
      rewrite lookup_insert_eq. cbn [default from_option id].
      unfold with_content.
      rewrite lookup_delete_ne, lookup_insert_ne by done. reflexivity.
Qed.

(** X16. A paper whose ["title"] is present but cannot be sliced ([None],
    a number, a boolean, an object) is never kept: every log line of
    [process_paper_pdf] slices the title, so the call raises, also from
    its [except] clause, and also when storage already holds the paper's
    PDF; the store is not changed. *)
Theorem process_paper_pdf_unsliceable_title :
  forall (W : Type) (svc : PdfProcessor.PDFProcessorService W)
         (paper : Ref) (s : Papers.St W),
    title_sliceable (deref (heap s) paper) = false ->
    exists e w',
      PdfProcessor.process_paper_pdf svc paper s
      = (Raises e, Papers.mkSt (heap s) w' (Papers.trace s)).
Proof.
  intros W svc paper s Hts.
  assert (Hhandler : forall w',
             (bind (PdfProcessor.title_prefix (W:=W) paper)
                   (fun _ => ret (None : option Ref)))
               (Papers.mkSt (heap s) w' (Papers.trace s))
             = (Raises (mkExc TypeError "object is not subscriptable"),
                Papers.mkSt (heap s) w' (Papers.trace s))).
  { intros w'. unfold bind. rewrite title_prefix_run. cbn [Papers.heap].
    by rewrite Hts. }
  unfold PdfProcessor.process_paper_pdf, try_except, bind at 1, call_on.
  destruct (PdfProcessor.get_pdf_url _ _ _) as [[url|e] w1].
  - destruct (truthy url); unfold bind at 1; rewrite title_prefix_run;
      cbn [Papers.heap]; rewrite Hts; rewrite Hhandler; eauto.
  - rewrite Hhandler. eauto.
Qed.

Lemma process_paper_pdf_unsliceable_title_witness :
  exists e w',
    PdfProcessor.process_paper_pdf Demo.full_storage 0%nat
      (Papers.mkSt Demo.untitled_papers [] [])
    = (Raises e, Papers.mkSt Demo.untitled_papers w' []).
Proof.
  apply (process_paper_pdf_unsliceable_title Demo.World Demo.full_storage
           0%nat (Papers.mkSt Demo.untitled_papers [] [])).
  reflexivity.
Defined.

(** X17. The edge cases of [process_papers_batch_parallel]: an empty list
    is returned as it is for every batch size; on a non-empty list a batch
    size of zero raises [ValueError], and a negative batch size returns the
    empty list.  In all three no paper is processed and the state is
    unchanged. *)
Theorem batch_parallel_edge_cases :
  forall (W : Type) (svc : PdfProcessor.PDFProcessorService W)
         (paper : Ref) (papers : list Ref) (batch_size : Z)
         (s : Papers.St W),
    PdfProcessor.process_papers_batch_parallel svc [] batch_size s
    = (Returns [], s)
    /\ (exists e,
          PdfProcessor.process_papers_batch_parallel svc (paper :: papers) 0 s
          = (Raises e, s)
          /\ exc_class e = ValueError)
    /\ (batch_size < 0 ->
        PdfProcessor.process_papers_batch_parallel svc (paper :: papers)
          batch_size s
        = (Returns [], s)).
Proof.
  intros W svc paper papers batch_size s.
  split; [reflexivity|]. split.
  - eexists. split; reflexivity.
  - intros Hneg. unfold PdfProcessor.process_papers_batch_parallel.
    destruct (Z.eqb_spec batch_size 0); [lia|].
    destruct (Z.ltb_spec batch_size 0); [reflexivity|lia].
Qed.

(* ===================================================================== *)
(** * Further properties of ranking *)
(* ===================================================================== *)

Section RankMore.
Import SearchOrchestrator.

(** A list in descending order of its keys is left as it is. *)
Lemma sorted_reverse_fixed {A} (l : list (Z * A)) :
  StronglySorted (fun a b : Z * A => fst b <= fst a) l ->
  sorted_reverse l = l.
Proof.
  induction 1 as [|x l Hl IH Hx]; [reflexivity|].
  cbn [sorted_reverse]. rewrite IH.
  destruct l as [|y l]; [reflexivity|].
  cbn [insert_desc]. apply Forall_cons in Hx as [Hy _].
  destruct (Z.ltb_spec (fst x) (fst y)); [lia|reflexivity].
Qed.

Lemma keyed_by_of_snd {A} (f : A -> Z) (l : list (Z * A)) :
  Forall (fun x => fst x = f (snd x)) l ->
  map (fun p => (f p, p)) (map snd l) = l.
Proof.
  induction 1 as [|[k x] l Hx _ IH]; [reflexivity|].
  simpl in *. by rewrite IH, Hx.
Qed.

(** What [keyed] returns, and when. *)
Lemma keyed_returns {A} (key : A -> Outcome Z) (l : list A) ks :
  keyed key l = Returns ks ->
  Forall (fun x => exists z, key x = Returns z) l.
Proof.
  revert ks. induction l as [|x l IH]; intros ks Hk; [constructor|].
  cbn [keyed] in Hk. destruct (key x) as [z|e] eqn:Hx; [|discriminate].
  destruct (keyed key l) as [ks'|e]; [|discriminate].
  constructor; eauto.
Qed.

Lemma keyed_values {A} (key : A -> Outcome Z) (l : list A) :
  Forall (fun x => exists z, key x = Returns z) l ->
  keyed key l
  = Returns (map (fun x => (match key x with
                            | Returns z => z
                            | Raises _ => 0
                            end, x)) l).
Proof.
  induction 1 as [|x l [z Hz] _ IH]; [reflexivity|].
  cbn [keyed map]. by rewrite Hz, IH.
Qed.

Lemma keyed_raises {A} (key : A -> Outcome Z) (l : list A) :
  Exists (fun x => exists e, key x = Raises e /\ exc_class e = TypeError) l ->
  Forall (fun x => forall e, key x = Raises e -> exc_class e = TypeError) l ->
  exists e, keyed key l = Raises e /\ exc_class e = TypeError.
Proof.
  induction 1 as [x l (e & Hx & He)|x l _ IH]; intros Hall;
    apply Forall_cons in Hall as [Hhead Hall]; cbn [keyed].
  - rewrite Hx. eauto.
  - destruct (key x) as [z|e] eqn:Hx; [|eauto].
    destruct (IH Hall) as (e & -> & He). eauto.
Qed.

Lemma score_raises_type_error terms (p : gmap string PyVal) e :
  score terms p = Raises e -> exc_class e = TypeError.
Proof.
  unfold score, as_str.
  destruct (py_or (default VNone (p !! "title")) (VStr ""));
    try (intros [= <-]; reflexivity);
    destruct (py_or (default VNone (p !! "abstract")) (VStr ""));
    try (intros [= <-]; reflexivity); discriminate.
Qed.

Lemma score_mistyped terms (p : gmap string PyVal) :
  text_fields_ok p = false ->
  exists e, score terms p = Raises e /\ exc_class e = TypeError.
Proof.
  unfold text_fields_ok, score, as_str.
  destruct (py_or (default VNone (p !! "title")) (VStr ""));
    try (intros _; eexists; split; reflexivity);
    destruct (py_or (default VNone (p !! "abstract")) (VStr ""));
    try (intros _; eexists; split; reflexivity); discriminate.
Qed.

Lemma rank_papers_value h papers query_terms :
  Forall (fun p => exists z,
            score (map lower query_terms) (deref h p) = Returns z) papers ->
  _rank_papers h papers query_terms
  = Returns (map snd (sorted_reverse
                        (map (fun p => (relevance h query_terms p, p))
                             papers))).
Proof.
  intros Hall. unfold _rank_papers. cbv zeta.
  rewrite (keyed_values _ papers Hall).
  by destruct papers.
Qed.

Lemma rank_papers_returns_inv h papers query_terms out :
  _rank_papers h papers query_terms = Returns out ->
  Forall (fun p => exists z,
            score (map lower query_terms) (deref h p) = Returns z) papers.
Proof.
  destruct papers as [|p papers]; [constructor|].
  unfold _rank_papers. cbv zeta.
  destruct (keyed _ (p :: papers)) as [ks|e] eqn:Hk; [|discriminate].
  intros _. by eapply keyed_returns.
Qed.
End RankMore.

(** X18. Ranking is idempotent: ranking the list [_rank_papers] returned,
    with the same query terms and store, returns that list again. *)
Theorem rank_papers_idempotent :
  forall (h : gmap nat (gmap string PyVal)) (papers out : list Ref)
         (query_terms : list string),
    SearchOrchestrator._rank_papers h papers query_terms = Returns out ->
    SearchOrchestrator._rank_papers h out query_terms = Returns out.
Proof.
  intros h papers out query_terms Hrank.
  pose proof (rank_papers_returns_inv h papers query_terms out Hrank) as Hall.
  rewrite (rank_papers_value h papers query_terms Hall) in Hrank.
  injection Hrank as <-.
  assert (Hcons : Forall (fun x => fst x = relevance h query_terms (snd x))
                    (SearchOrchestrator.sorted_reverse
                       (map (fun p => (relevance h query_terms p, p))
                            papers))).
  { rewrite sorted_reverse_perm. apply keyed_by_consistent. }
  rewrite rank_papers_value.
  - rewrite (keyed_by_of_snd _ _ Hcons).
    by rewrite (sorted_reverse_fixed _ (sorted_reverse_sorted _)).
  - rewrite sorted_reverse_perm. by rewrite keyed_by_snd.
Qed.

Lemma rank_papers_idempotent_witness :
  SearchOrchestrator._rank_papers Demo.papers0 [1; 0; 2]%nat ["attention"]
  = Returns [1; 0; 2]%nat.
Proof.
  apply (rank_papers_idempotent Demo.papers0 [0; 1; 2]%nat [1; 0; 2]%nat
           ["attention"]).
  vm_compute. reflexivity.
Defined.

(** X19. [_rank_papers] raises [TypeError] as soon as one paper of a
    non-empty list has a truthy title or abstract that is not a string (a
    list, a number, an object): the score concatenates them to strings. *)
Theorem rank_papers_mistyped_text_raises :
  forall (h : gmap nat (gmap string PyVal)) (papers : list Ref)
         (query_terms : list string),
    Exists (fun p => text_fields_ok (deref h p) = false) papers ->
    exists e,
      SearchOrchestrator._rank_papers h papers query_terms = Raises e
      /\ exc_class e = TypeError.
Proof.
  intros h papers query_terms Hbad.
  destruct (keyed_raises
              (fun p => SearchOrchestrator.score (map lower query_terms)
                          (deref h p)) papers) as (e & Hk & He).
  - eapply Exists_impl; [exact Hbad|]. intros p Hp. by apply score_mistyped.
  - apply Forall_forall. intros p _ e. apply score_raises_type_error.
  - exists e. split; [|exact He].
    unfold SearchOrchestrator._rank_papers. rewrite Hk.
    destruct papers; [by apply Exists_nil in Hbad|reflexivity].
Qed.

Lemma rank_papers_mistyped_text_raises_witness :
  exists e,
    SearchOrchestrator._rank_papers Demo.mistyped_papers [0; 1]%nat ["graph"]
    = Raises e
    /\ exc_class e = TypeError.
Proof.
  apply (rank_papers_mistyped_text_raises Demo.mistyped_papers [0; 1]%nat
           ["graph"]).
  apply Exists_cons_tl, Exists_cons_hd. reflexivity.
Defined.

(* ===================================================================== *)
(** * Further properties of the orchestrator *)
(* ===================================================================== *)

(** X20. A timeout is never retried: when the first call of the client
    does not finish in time, or raises [asyncio.TimeoutError] (whatever its
    text, also one that names a rate limit), [_safe_source_search] returns
    the empty list after that single attempt, without sleeping. *)
Theorem safe_source_search_timeout_not_retried :
  forall (W : Type) (self : SearchOrchestrator.Orchestrator W)
         (source_name query domain : string) (s : Papers.St W)
         (client : SearchOrchestrator.Client W) (filters : PyVal)
         (h0 h1 : gmap nat (gmap string PyVal)) (w0 w1 : W)
         (reply : SearchOrchestrator.Reply),
    SearchOrchestrator.api_clients self !! source_name = Some client ->
    SearchOrchestrator.build_filters self source_name domain query
      (heap s) (Papers.world s) = (Returns filters, h0, w0) ->
    client query
      (SearchOrchestrator.papers_per_source (SearchOrchestrator.config self))
      filters h0 w0 = (reply, h1, w1) ->
    (reply = SearchOrchestrator.Hangs
     \/ exists e, reply = SearchOrchestrator.Throws e /\ is_timeout e = true) ->
    0 <= SearchOrchestrator.max_rate_limit_retries
           (SearchOrchestrator.config self) ->
    exists e,
      is_timeout e = true
      /\ SearchOrchestrator._safe_source_search self source_name query domain s
         = (Returns [],
            Papers.mkSt h1 w1
              (Papers.trace s
               ++ [ApiAttempt source_name 0
                     (SearchOrchestrator.per_call_timeout source_name)
                     (Raises e)])).
Proof.
  intros W self source_name query domain s client filters h0 h1 w0 w1 reply
         Hclient Hfilters Hreply Htimeout Hmax.
  assert (Hwait : exists e,
             is_timeout e = true
             /\ SearchOrchestrator.wait_for_search self client query filters
                  (Papers.mkSt h0 w0 (Papers.trace s))
                = (Raises e, Papers.mkSt h1 w1 (Papers.trace s))).
  { unfold SearchOrchestrator.wait_for_search.
    cbn [Papers.heap Papers.world Papers.trace]. rewrite Hreply.
    destruct Htimeout as [->|(e & -> & He)].
    - by exists (mkExc TimeoutError "").
    - by exists e. }
  destruct Hwait as (e & He & Hwait). exists e. split; [exact He|].
  unfold SearchOrchestrator._safe_source_search, try_except. rewrite Hclient.
  unfold bind at 1, call_raising. rewrite Hfilters.
  destruct (Z.to_nat (SearchOrchestrator.max_rate_limit_retries
                        (SearchOrchestrator.config self) + 1))
    as [|remaining] eqn:Hrem; [lia|].
  cbn [SearchOrchestrator.retry_loop].
  unfold bind at 1 2, outcome_of. rewrite Hwait.
  unfold bind at 1, Papers.emit, modify.
  cbn [Papers.heap Papers.world Papers.trace]. rewrite He.
  reflexivity.
Qed.

Lemma safe_source_search_timeout_not_retried_witness :
  exists e,
    is_timeout e = true
    /\ SearchOrchestrator._safe_source_search Demo.slow_orchestrator
         "OpenAlex" "graph kernels" "Computer Science" Demo.s0
       = (Returns [],
          Papers.mkSt Demo.papers0 []
            ([] ++ [ApiAttempt "OpenAlex" 0
                      (SearchOrchestrator.per_call_timeout "OpenAlex")
                      (Raises e)])).
Proof.
  apply (safe_source_search_timeout_not_retried Demo.World
           Demo.slow_orchestrator "OpenAlex" "graph kernels"
           "Computer Science" Demo.s0 Demo.slow_client (VDict [])
           Demo.papers0 Demo.papers0 [] [] SearchOrchestrator.Hangs);
    [reflexivity|reflexivity|reflexivity|by left|].
  vm_compute. discriminate.
Defined.

(** X21. Whatever credentials are configured, every source that
    [_init_api_clients] leaves active has a client, so the branch of
    [_safe_source_search] for a missing client is not taken for them.
    "CORE" stays active exactly when a non-empty CORE key is set; a
    Semantic Scholar client is always created, but that source is never
    active. *)
Theorem init_api_clients_active_have_client :
  forall (W : Type) (classes : SearchOrchestrator.ClientClasses W)
         (settings : SearchOrchestrator.Credentials),
    Forall (fun source_name =>
              is_Some (fst (SearchOrchestrator._init_api_clients classes
                              settings
                              SearchOrchestrator.default_active_sources)
                       !! source_name))
           (snd (SearchOrchestrator._init_api_clients classes settings
                   SearchOrchestrator.default_active_sources))
    /\ snd (SearchOrchestrator._init_api_clients classes settings
              SearchOrchestrator.default_active_sources)
       = match SearchOrchestrator.provided
                 (SearchOrchestrator.core_api_key settings) with
         | Some _ => ["arXiv"; "PubMed"; "OpenAlex"; "CORE"; "Europe PMC"]
         | None => ["arXiv"; "PubMed"; "OpenAlex"; "Europe PMC"]
         end
    /\ is_Some (fst (SearchOrchestrator._init_api_clients classes settings
                      SearchOrchestrator.default_active_sources)
               !! "Semantic Scholar").
Proof.
  intros W classes settings.
  unfold SearchOrchestrator._init_api_clients.
  destruct (SearchOrchestrator.provided
              (SearchOrchestrator.core_api_key settings)) as [key|];
    destruct (SearchOrchestrator.provided
                (SearchOrchestrator.unpaywall_email settings)) as [email|];
    cbn [fst snd];
    (split; [|split; [reflexivity|]]);
    [ repeat constructor | | repeat constructor | | repeat constructor |
    | repeat constructor | ];
    vm_compute; eauto.
Qed.

Section SourceTags.
Import SearchOrchestrator.
Context {W : Type}.

Lemma set_source_tagged sources source_name p q
    (h : gmap nat (gmap string PyVal)) :
  source_name ∈ sources ->
  tagged sources h q \/ q = p ->
  tagged sources (<[p := <["source" := VStr source_name]> (deref h p)]> h) q.
Proof.
  intros Hin Hq. unfold tagged, deref.
  destruct (decide (q = p)) as [->|Hne].
  - exists source_name. split; [exact Hin|].
    rewrite lookup_insert_eq. cbn [default from_option id].
    by rewrite lookup_insert_eq.
  - rewrite lookup_insert_ne by done. destruct Hq as [Hq|]; [exact Hq|done].
Qed.

Lemma tag_source_tagged sources source_name result (s : Papers.St W) :
  source_name ∈ sources ->
  (forall q, tagged sources (heap s) q ->
             tagged sources (heap (snd (tag_source source_name result s))) q)
  /\ Forall (tagged sources (heap (snd (tag_source source_name result s))))
            result.
Proof.
  intros Hin. revert s. induction result as [|p rest IH]; intros s.
  - split; [done|constructor].
  - cbn [tag_source]. unfold bind, set_item, modify.
    set (s1 := Papers.mkSt _ _ _).
    destruct (IH s1) as [Hkeep Hrest]. split.
    + intros q Hq. apply Hkeep. unfold s1. cbn [Papers.heap].
      apply set_source_tagged; auto.
    + constructor; [|exact Hrest].
      apply Hkeep. unfold s1. cbn [Papers.heap].
      apply set_source_tagged; auto.
Qed.

Lemma combine_results_tagged names sources results :
  forall all_papers (s s' : Papers.St W) out,
    (forall x, x ∈ sources -> x ∈ names) ->
    Forall (tagged names (heap s)) all_papers ->
    combine_results sources results all_papers s = (Returns out, s') ->
    Forall (tagged names (heap s')) out.
Proof.
  revert results. induction sources as [|source_name sources IH];
    intros results all_papers s s' out Hsub Hacc Hrun.
  - cbn [combine_results] in Hrun. by injection Hrun as <- <-.
  - destruct results as [|result results].
    { cbn [combine_results] in Hrun. by injection Hrun as <- <-. }
    assert (Hsub' : forall x, x ∈ sources -> x ∈ names).
    { intros x Hx. apply Hsub. by right. }
    cbn [combine_results] in Hrun.
    destruct result as [[|paper papers]|e]; [by eapply IH|..|by eapply IH].
    unfold bind at 1 in Hrun.
    destruct (tag_source_returns source_name (paper :: papers) s) as [s1 Hs1].
    rewrite Hs1 in Hrun.
    destruct (tag_source_tagged names source_name (paper :: papers) s)
      as [Hkeep Htag]; [apply Hsub; by left|].
    rewrite Hs1 in Hkeep, Htag. cbn [snd] in Hkeep, Htag.
    eapply IH; [exact Hsub'| |exact Hrun].
    apply Forall_app. split; [|exact Htag].
    eapply Forall_impl; [exact Hacc|]. auto.
Qed.
End SourceTags.

(** X22. Every paper [_search_all_sources] returns carries, in the final
    store, a ["source"] that is the name of one of the active sources (the
    last source that returned it, when several did). *)
Theorem search_all_sources_tags_papers :
  forall (W : Type) (self : SearchOrchestrator.Orchestrator W)
         (query domain : string) (s s' : Papers.St W) (out : list Ref),
    SearchOrchestrator._search_all_sources self query domain s
    = (Returns out, s') ->
    Forall (tagged (SearchOrchestrator.active_sources self) (heap s')) out.
Proof.
  intros W self query domain s s' out Hrun.
  unfold SearchOrchestrator._search_all_sources, bind, gather_m in Hrun.
  destruct (gather (SearchOrchestrator.search_tasks self query domain) s)
    as [results s1].
  eapply combine_results_tagged; [|constructor|exact Hrun]. auto.
Qed.

Lemma search_all_sources_tags_papers_witness :
  Forall (tagged (SearchOrchestrator.active_sources Demo.orchestrator)
            (heap (snd (SearchOrchestrator._search_all_sources
                          Demo.orchestrator "attention" "Computer Science"
                          Demo.s0))))
         [0; 1; 2]%nat.
Proof.
  apply (search_all_sources_tags_papers Demo.World Demo.orchestrator
           "attention" "Computer Science" Demo.s0).
  vm_compute. reflexivity.
Defined.

Section RoundFacts.
Import SearchOrchestrator.
Context {W : Type} (self : Orchestrator W).

(** With at most one round the loop over the rounds never asks for
    refined queries. *)
Lemma search_rounds_single ai search_queries query_terms domain enhanced
    (s : Papers.St W) :
  max_search_rounds (config self) <= 1 ->
  search_rounds (with_ai_service self ai)
    (Z.to_nat (max_search_rounds (config self))) 0
    search_queries query_terms domain enhanced s
  = search_rounds self
      (Z.to_nat (max_search_rounds (config self))) 0
      search_queries query_terms domain enhanced s.
Proof.
  intros Hmax.
  destruct (Z.to_nat (max_search_rounds (config self))) as [|[|n]] eqn:Hn;
    [reflexivity| |lia].
  cbn [search_rounds]. cbn [with_ai_service config deduplication_service].
  change (run_queries (with_ai_service self ai)) with (run_queries self).
  unfold bind.
  destruct (run_queries self search_queries domain s) as [[[]|e] s1];
    [|reflexivity].
  destruct (call_raising (get_paper_count (deduplication_service self)) s1)
    as [[current_count|e] s2]; [|reflexivity].
  destruct (enhanced <=? current_count); [reflexivity|].
  destruct (Z.ltb_spec 0 (max_search_rounds (config self) - 1)); [lia|].
  reflexivity.
Qed.
End RoundFacts.

(** X23. With [max_search_rounds] at most 1 (the default of
    [SearchConfig]) refinement is never requested: [search_papers] behaves
    the same with any AI service set as with none, so the service is not
    consulted. *)
Theorem single_round_never_refines :
  forall (W : Type) (self : SearchOrchestrator.Orchestrator W)
         (ai : option (SearchOrchestrator.AIService W))
         (pdf_processor : list Ref -> Z -> M (Papers.St W) (list Ref))
         (query_terms : list string) (domain : string) (target_size : Z)
         (s : Papers.St W),
    SearchOrchestrator.max_search_rounds (SearchOrchestrator.config self) <= 1 ->
    SearchOrchestrator.search_papers (with_ai_service self ai) pdf_processor
      query_terms domain target_size s
    = SearchOrchestrator.search_papers self pdf_processor
        query_terms domain target_size s.
Proof.
  intros W self ai pdf_processor query_terms domain target_size s Hmax.
  unfold SearchOrchestrator.search_papers. unfold bind at 1 3.
  assert (Hcand :
            SearchOrchestrator.ranked_candidates (with_ai_service self ai)
              query_terms domain target_size s
            = SearchOrchestrator.ranked_candidates self
                query_terms domain target_size s).
  { unfold SearchOrchestrator.ranked_candidates. unfold bind at 1 6.
    cbn [with_ai_service SearchOrchestrator.deduplication_service
         SearchOrchestrator.config SearchOrchestrator.enrich_papers].
    destruct (call_raising _ s) as [[[]|e] s1]; [|reflexivity].
    unfold bind at 1 5.
    rewrite (search_rounds_single self ai _ _ _ _ s1 Hmax).
    reflexivity. }
  by rewrite Hcand.
Qed.

Lemma single_round_never_refines_witness :
  SearchOrchestrator.search_papers
    (with_ai_service Demo.orchestrator (Some Demo.forbidden_ai))
    (PdfProcessor.process_papers_batch_parallel Demo.pdf_service)
    ["attention"] "Computer Science" 3 Demo.s0
  = SearchOrchestrator.search_papers Demo.orchestrator
      (PdfProcessor.process_papers_batch_parallel Demo.pdf_service)
      ["attention"] "Computer Science" 3 Demo.s0.
Proof.
  apply (single_round_never_refines Demo.World Demo.orchestrator
           (Some Demo.forbidden_ai)
           (PdfProcessor.process_papers_batch_parallel Demo.pdf_service)
           ["attention"] "Computer Science" 3 Demo.s0).
  vm_compute. discriminate.
Defined.

(* ===================================================================== *)
(** * The author search *)
(* ===================================================================== *)

Section AuthorServiceFacts.
Import Messaging.Handlers AuthorService.
Context {W A : Type} (self : Service W A).

Lemma keys_are_empty : keys_are ∅ [].
Proof.
  intros k. rewrite lookup_empty. split.
  - by intros [? ?].
  - by intros ?%elem_of_nil.
Qed.

Lemma keys_are_insert combined_data names name item :
  keys_are combined_data names ->
  keys_are (<[name := item]> combined_data) (names ++ [name]).
Proof.
  intros Hkeys k.
  rewrite lookup_insert_is_Some', elem_of_app, list_elem_of_singleton,
    (Hkeys k).
  split; intros [H|H]; auto.
Qed.

(** One [try] block: it never raises, records the source as attempted,
    and records it as successful exactly when it stored it. *)
Lemma try_source_spec name (api : W -> Outcome PyVal * W) hit
    combined_data names (s : St W) :
  keys_are combined_data names ->
  exists combined_data' w' new,
    try_source name api hit combined_data s
    = (Returns combined_data',
       mkSt w' (attempted s ++ [name]) (successful s ++ new) (sleeps s))
    /\ sublist new [name]
    /\ keys_are combined_data' (names ++ new).
Proof.
  intros Hkeys.
  unfold try_source, try_except, bind, attempt, succeed, modify, call,
    of_outcome, ret.
  cbn [world attempted successful sleeps].
  destruct (api (world s)) as [[result|e] w'].
  - destruct (hit result) as [[item|]|e].
    + exists (<[name := item]> combined_data), w', [name].
      split; [done|]. split; [done|]. by apply keys_are_insert.
    + exists combined_data, w', []. rewrite !app_nil_r.
      split; [done|]. split; [apply sublist_nil_l|]. done.
    + exists combined_data, w', []. rewrite !app_nil_r.
      split; [done|]. split; [apply sublist_nil_l|]. done.
  - exists combined_data, w', []. rewrite !app_nil_r.
    split; [done|]. split; [apply sublist_nil_l|]. done.
Qed.

Lemma fast_search_spec author_name (s : St W) :
  exists combined_data w' new,
    _fast_search self author_name s
    = (Returns combined_data,
       mkSt w' (attempted s ++ ["semantic_scholar"; "openalex"])
            (successful s ++ new) (sleeps s))
    /\ sublist new ["semantic_scholar"; "openalex"]
    /\ keys_are combined_data new.
Proof.
  unfold _fast_search, bind.
  destruct (try_source_spec "semantic_scholar"
              (_search_semantic_scholar_api self author_name 1)
              (first_of "data") ∅ [] s keys_are_empty)
    as (cd1 & w1 & new1 & -> & Hsub1 & Hkeys1).
  destruct (try_source_spec "openalex"
              (_search_openalex_api self author_name 1)
              (first_of "results") cd1 ([] ++ new1)
              (mkSt w1 (attempted s ++ ["semantic_scholar"])
                    (successful s ++ new1) (sleeps s)) Hkeys1)
    as (cd2 & w2 & new2 & -> & Hsub2 & Hkeys2).
  cbn [attempted successful sleeps].
  exists cd2, w2, (new1 ++ new2).
  rewrite <- !(assoc_L (++)). split; [done|]. split; [|done].
  by apply (sublist_app new1 ["semantic_scholar"] new2 ["openalex"]).
Qed.

Lemma detailed_step_spec combined_data names (s : St W) :
  keys_are combined_data names ->
  exists o w' extra new,
    detailed_step self combined_data s
    = (o, mkSt w' (attempted s ++ extra) (successful s ++ new) (sleeps s))
    /\ sublist new extra
    /\ (extra = []
        \/ extra = ["semantic_scholar_detailed"]
           /\ "semantic_scholar" ∈ names)
    /\ match o with
       | Returns combined_data' => keys_are combined_data' (names ++ new)
       | Raises e =>
           (exists v, e = no_attribute v "get")
           /\ extra = [] /\ "semantic_scholar" ∈ names
       end.
Proof.
  intros Hkeys. unfold detailed_step.
  assert (Hsame : forall o : Outcome (gmap string PyVal),
            match o with
            | Returns combined_data' => keys_are combined_data' (names ++ [])
            | Raises e =>
                (exists v, e = no_attribute v "get")
                /\ "semantic_scholar" ∈ names
            end ->
            exists o' w' extra new,
              (o, s) = (o', mkSt w' (attempted s ++ extra)
                                 (successful s ++ new) (sleeps s))
              /\ sublist new extra
              /\ (extra = []
                  \/ extra = ["semantic_scholar_detailed"]
                     /\ "semantic_scholar" ∈ names)
              /\ match o' with
                 | Returns combined_data' =>
                     keys_are combined_data' (names ++ new)
                 | Raises e =>
                     (exists v, e = no_attribute v "get")
                     /\ extra = [] /\ "semantic_scholar" ∈ names
                 end).
  { intros o Ho. exists o, (world s), [], []. rewrite !app_nil_r.
    split; [by destruct s|]. split; [done|]. split; [by left|].
    destruct o as [combined_data'|e].
    - by rewrite app_nil_r in Ho.
    - destruct Ho as [Hv Hin]. done. }
  destruct (combined_data !! "semantic_scholar") as [ss_data|] eqn:Hss.
  2:{ apply (Hsame (Returns combined_data)). by rewrite app_nil_r. }
  assert (Hin : "semantic_scholar" ∈ names).
  { apply Hkeys. by rewrite Hss. }
  unfold bind at 1, of_outcome at 1.
  destruct (py_get ss_data "authorId" VNone) as [author_id|e] eqn:Hget.
  2:{ apply (Hsame (Raises e)). split; [|done]. exists ss_data.
      destruct ss_data; by inversion Hget. }
  destruct (truthy author_id).
  2:{ apply (Hsame (Returns combined_data)). by rewrite app_nil_r. }
  unfold try_except, bind, attempt, succeed, modify, call, of_outcome, ret.
  cbn [world attempted successful sleeps].
  destruct (py_getitem ss_data "authorId") as [author_id'|e].
  - destruct (_get_semantic_scholar_author_details self author_id' (world s))
      as [[detailed_result|e] w'].
    + destruct (truthy detailed_result).
      * eexists _, w', ["semantic_scholar_detailed"],
          ["semantic_scholar_detailed"].
        split; [done|]. split; [done|]. split; [by right|].
        by apply keys_are_insert.
      * eexists _, w', ["semantic_scholar_detailed"], [].
        rewrite !app_nil_r. split; [done|].
        split; [apply sublist_nil_l|]. split; [by right|]. done.
    + eexists _, w', ["semantic_scholar_detailed"], [].
      rewrite !app_nil_r. split; [done|].
      split; [apply sublist_nil_l|]. split; [by right|]. done.
  - eexists _, (world s), ["semantic_scholar_detailed"], [].
    rewrite !app_nil_r. split; [done|].
    split; [apply sublist_nil_l|]. split; [by right|]. done.
Qed.

Lemma comprehensive_search_spec author_name (s : St W) :
  exists o w' extra new,
    _comprehensive_search self author_name s
    = (o, mkSt w' (attempted s ++ five_sources ++ extra)
               (successful s ++ new) (sleeps s))
    /\ sublist new (five_sources ++ extra)
    /\ (extra = []
        \/ extra = ["semantic_scholar_detailed"]
           /\ "semantic_scholar" ∈ new)
    /\ match o with
       | Returns combined_data => keys_are combined_data new
       | Raises e =>
           (exists v, e = no_attribute v "get")
           /\ extra = [] /\ "semantic_scholar" ∈ new
       end.
Proof.
  unfold _comprehensive_search. unfold bind at 1.
  destruct (fast_search_spec author_name s)
    as (cd0 & w0 & new0 & -> & Hsub0 & Hkeys0).
  unfold bind at 1.
  destruct (try_source_spec "orcid" (_search_orcid_api self author_name 1)
              (first_of "result") cd0 new0
              (mkSt w0 (attempted s ++ ["semantic_scholar"; "openalex"])
                    (successful s ++ new0) (sleeps s)) Hkeys0)
    as (cd1 & w1 & new1 & -> & Hsub1 & Hkeys1).
  cbn [attempted successful sleeps]. unfold bind at 1.
  destruct (try_source_spec "dblp" (_search_dblp_api self author_name 1)
              dblp_hit cd1 (new0 ++ new1)
              (mkSt w1 ((attempted s ++ ["semantic_scholar"; "openalex"])
                        ++ ["orcid"])
                    ((successful s ++ new0) ++ new1) (sleeps s)) Hkeys1)
    as (cd2 & w2 & new2 & -> & Hsub2 & Hkeys2).
  cbn [attempted successful sleeps]. unfold bind at 1.
  destruct (try_source_spec "crossref"
              (_search_crossref_api self author_name 10)
              crossref_items cd2 ((new0 ++ new1) ++ new2)
              (mkSt w2 (((attempted s ++ ["semantic_scholar"; "openalex"])
                         ++ ["orcid"]) ++ ["dblp"])
                    (((successful s ++ new0) ++ new1) ++ new2) (sleeps s))
              Hkeys2)
    as (cd3 & w3 & new3 & -> & Hsub3 & Hkeys3).
  cbn [attempted successful sleeps].
  destruct (detailed_step_spec cd3 (((new0 ++ new1) ++ new2) ++ new3)
              (mkSt w3 ((((attempted s ++ ["semantic_scholar"; "openalex"])
                          ++ ["orcid"]) ++ ["dblp"]) ++ ["crossref"])
                    ((((successful s ++ new0) ++ new1) ++ new2) ++ new3)
                    (sleeps s)) Hkeys3)
    as (o & w4 & extra & new4 & -> & Hsub4 & Hextra & Ho).
  cbn [attempted successful sleeps].
  exists o, w4, extra, ((((new0 ++ new1) ++ new2) ++ new3) ++ new4).
  assert (Hsub : sublist (((new0 ++ new1) ++ new2) ++ new3) five_sources).
  { apply (sublist_app _ ["semantic_scholar"; "openalex"; "orcid"; "dblp"]
             new3 ["crossref"]); [|done].
    apply (sublist_app _ ["semantic_scholar"; "openalex"; "orcid"]
             new2 ["dblp"]); [|done].
    by apply (sublist_app new0 ["semantic_scholar"; "openalex"]
                new1 ["orcid"]). }
  split.
  { unfold five_sources. by rewrite <- !(assoc_L (++)). }
  split; [by apply sublist_app|].
  split.
  - destruct Hextra as [->|[-> Hin]]; [by left|right].
    split; [done|]. apply elem_of_app. by left.
  - destruct o as [combined_data|e]; [done|].
    destruct Ho as (Hv & -> & Hin). split; [done|]. split; [done|].
    apply elem_of_app. by left.
Qed.

Lemma semantic_scholar_only_spec author_name (s : St W) :
  exists r w',
    _search_semantic_scholar_only self author_name s
    = (Returns r, mkSt w' (attempted s) (successful s) (sleeps s))
    /\ search_strategy r = "semantic_scholar_only"
    /\ sources_attempted r = ["semantic_scholar"]
    /\ response_consistent r.
Proof.
  unfold _search_semantic_scholar_only, try_except, bind, call, of_outcome,
    ret, failure.
  assert (Hfail : forall message (w' : W),
            exists (r : Response A) w'',
              (Returns {| success := false; author := None;
                          error := Some message;
                          search_strategy := "semantic_scholar_only";
                          sources_attempted := ["semantic_scholar"];
                          sources_successful := [] |},
               mkSt w' (attempted s) (successful s) (sleeps s))
              = (Returns r, mkSt w'' (attempted s) (successful s) (sleeps s))
              /\ search_strategy r = "semantic_scholar_only"
              /\ sources_attempted r = ["semantic_scholar"]
              /\ response_consistent r).
  { intros message w'. eexists _, w'. split; [done|].
    split; [done|]. split; [done|]. split; [apply sublist_nil_l|].
    cbn. split; [done|]. by eexists. }
  destruct (_search_semantic_scholar_api self author_name 1 (world s))
    as [[result|e] w']; [|apply Hfail].
  cbn [world attempted successful sleeps].
  destruct (has_items result "data") as [[|]|e]; [|apply Hfail|apply Hfail].
  destruct (and_then (py_getitem result "data") py_first)
    as [author_data|e]; [|apply Hfail].
  destruct (semantic_scholar_author self author_data author_name)
    as [enhanced_author|e]; [|apply Hfail].
  eexists _, w'. split; [done|]. split; [done|]. split; [done|].
  split; [done|]. cbn. split; [by eexists|]. done.
Qed.

(** What every call of [search_author] gives. *)
Lemma search_author_spec author_name strategy (s : St W) :
  exists r w',
    search_author self author_name strategy s
    = (Returns r, mkSt w' (attempted s) (successful s) (sleeps s))
    /\ search_strategy r = strategy
    /\ response_consistent r
    /\ exists extra,
         sources_attempted r = planned_sources strategy ++ extra
         /\ (extra = []
             \/ extra = ["semantic_scholar_detailed"]
                /\ strategy <> "semantic_scholar_only"
                /\ strategy <> "fast"
                /\ "semantic_scholar" ∈ sources_successful r).
Proof.
  unfold search_author, search_author_body, planned_sources, try_except.
  destruct (String.eqb_spec strategy "semantic_scholar_only") as [->|Hss].
  { destruct (semantic_scholar_only_spec author_name
                (mkSt (world s) [] [] (sleeps s)))
      as (r & w' & -> & Hstrat & Hatt & Hcons).
    cbn [world attempted successful sleeps].
    exists r, w'. split; [done|]. split; [done|]. split; [done|].
    exists []. rewrite app_nil_r. split; [done|]. by left. }
  assert (Hgen : forall (o : Outcome (gmap string PyVal)) (w' : W)
                   planned extra new,
            sublist new (planned ++ extra) ->
            (extra = []
             \/ extra = ["semantic_scholar_detailed"]
                /\ strategy <> "fast" /\ "semantic_scholar" ∈ new) ->
            match o with
            | Returns combined_data => keys_are combined_data new
            | Raises _ => True
            end ->
            exists (r : Response A) w'',
              (let '(o0, s') :=
                 match
                   match o with
                   | Returns combined_data =>
                       (sources_attempted <- gets attempted ;;
                        sources_successful <- gets successful ;;
                        if bool_decide (combined_data = ∅) then
                          ret (failure ("Author '" ++ author_name
                                        ++ "' not found in any data source")%string
                                 strategy sources_attempted sources_successful)
                        else
                          enhanced_author <-
                            (fun s0 =>
                               let '(o1, w1) :=
                                 _create_enhanced_author self combined_data
                                   sources_successful (world s0) in
                               (o1, mkSt w1 (attempted s0) (successful s0)
                                         (sleeps s0))) ;;
                          ret {| success := true;
                                 author := Some enhanced_author;
                                 error := None; search_strategy := strategy;
                                 sources_attempted := sources_attempted;
                                 sources_successful := sources_successful |})
                         (mkSt w' (planned ++ extra) new (sleeps s))
                   | Raises e =>
                       (Raises e, mkSt w' (planned ++ extra) new (sleeps s))
                   end
                 with
                 | (Returns a, s') => (Returns a, s')
                 | (Raises e, s') =>
                     (sources_attempted <- gets attempted ;;
                      sources_successful <- gets successful ;;
                      ret (failure ("Search failed: " ++ exc_str e)%string
                             strategy sources_attempted sources_successful))
                       s'
                 end in
               (o0, mkSt (world s') (attempted s) (successful s) (sleeps s')))
              = (Returns r, mkSt w'' (attempted s) (successful s) (sleeps s))
              /\ search_strategy r = strategy
              /\ response_consistent r
              /\ exists extra',
                   sources_attempted r = planned ++ extra'
                   /\ (extra' = []
                       \/ extra' = ["semantic_scholar_detailed"]
                          /\ strategy <> "semantic_scholar_only"
                          /\ strategy <> "fast"
                          /\ "semantic_scholar" ∈ sources_successful r)).
  { intros o w' planned extra new Hsub Hextra Ho.
    assert (Hextra' :
              extra = []
              \/ extra = ["semantic_scholar_detailed"]
                 /\ strategy <> "semantic_scholar_only"
                 /\ strategy <> "fast" /\ "semantic_scholar" ∈ new).
    { destruct Hextra as [->|(-> & ? & ?)]; [by left|by right]. }
    unfold bind, gets, ret, failure.
    cbn [world attempted successful sleeps].
    destruct o as [combined_data|e]; cbn [world attempted successful sleeps].
    - case_bool_decide as Hempty; cbn [world attempted successful sleeps].
      + eexists _, w'. split; [done|]. split; [done|].
        split; [|by exists extra].
        split; [done|]. cbn. split; [done|]. by eexists.
      + destruct (_create_enhanced_author self combined_data new w')
          as [[enhanced_author|e] w''].
        * eexists _, w''. split; [done|]. split; [done|].
          split; [|by exists extra].
          split; [done|]. cbn. split; [by eexists|]. split; [done|].
          intros ->. apply Hempty. apply map_eq. intros k.
          rewrite lookup_empty. apply eq_None_not_Some.
          intros Hk%Ho. by apply elem_of_nil in Hk.
        * eexists _, w''. split; [done|]. split; [done|].
          split; [|by exists extra].
          split; [done|]. cbn. split; [done|]. by eexists.
    - eexists _, w'. split; [done|]. split; [done|].
      split; [|by exists extra].
      split; [done|]. cbn. split; [done|]. by eexists. }
  unfold bind at 1.
  destruct (String.eqb_spec strategy "fast") as [->|Hfast].
  - destruct (fast_search_spec author_name (mkSt (world s) [] [] (sleeps s)))
      as (cd & w' & new & -> & Hsub & Hkeys).
    cbn [attempted successful sleeps app].
    apply (Hgen (Returns cd) w' ["semantic_scholar"; "openalex"] [] new).
    + by rewrite app_nil_r.
    + by left.
    + done.
  - destruct (comprehensive_search_spec author_name
                (mkSt (world s) [] [] (sleeps s)))
      as (o & w' & extra & new & -> & Hsub & Hextra & Ho).
    cbn [attempted successful sleeps].
    rewrite !app_nil_l.
    apply (Hgen o w' five_sources extra new); [done| |by destruct o].
    destruct Hextra as [->|[-> Hin]]; [by left|by right].
Qed.

Lemma search_authors_batch_from_spec author_names strategy results
    (s : St W) :
  exists rs w',
    search_authors_batch_from self author_names strategy results s
    = (Returns (results ++ rs),
       mkSt w' (attempted s) (successful s)
            (sleeps s + length author_names)%nat)
    /\ Forall2 (answers self strategy) author_names rs.
Proof.
  revert results s.
  induction author_names as [|author_name rest IH]; intros results s.
  - exists [], (world s). rewrite app_nil_r, Nat.add_0_r.
    split; [by destruct s|]. constructor.
  - cbn [search_authors_batch_from]. unfold bind at 1, try_except at 1.
    unfold bind at 1.
    destruct (search_author_spec author_name strategy s)
      as (r & w1 & Hrun & _).
    rewrite Hrun. unfold bind at 1, sleep_half_second, modify, ret.
    cbn [world attempted successful sleeps].
    destruct (IH (results ++ [r])
                (mkSt w1 (attempted s) (successful s) (S (sleeps s))))
      as (rs & w' & -> & Hall).
    cbn [world attempted successful sleeps length].
    exists (r :: rs), w'. split.
    + rewrite <- (assoc_L (++)). cbn [app].
      by replace (S (sleeps s) + length rest)%nat
        with (sleeps s + S (length rest))%nat by lia.
    + constructor; [|done]. exists s. by rewrite Hrun.
Qed.

Lemma answers_spec strategy author_name (r : Response A) :
  answers self strategy author_name r ->
  search_strategy r = strategy
  /\ response_consistent r
  /\ sources_attempted r <> [].
Proof.
  intros [s Hr].
  destruct (search_author_spec author_name strategy s)
    as (r' & w' & Hrun & Hstrat & Hcons & extra & Hatt & _).
  rewrite Hrun in Hr. injection Hr as <-.
  split; [done|]. split; [done|].
  rewrite Hatt. unfold planned_sources, five_sources.
  by repeat case_match.
Qed.

End AuthorServiceFacts.

(** X24. [_fast_search] never raises, whatever the two sources do: an
    exception of a source is swallowed by its [try].  It appends exactly
    [semantic_scholar] and [openalex] to [sources_attempted], appends to
    [sources_successful] a subsequence [new] of these two, and the keys of
    the returned [combined_data] are exactly the sources in [new]. *)
Theorem fast_search_never_raises_and_records :
  forall (W A : Type) (self : AuthorService.Service W A)
         (author_name : string) (s : AuthorService.St W),
  exists combined_data w' new,
    AuthorService._fast_search self author_name s
    = (Returns combined_data,
       AuthorService.mkSt w'
         (AuthorService.attempted s ++ ["semantic_scholar"; "openalex"])
         (AuthorService.successful s ++ new)
         (AuthorService.sleeps s))
    /\ sublist new ["semantic_scholar"; "openalex"]
    /\ keys_are combined_data new.
Proof. intros W A self author_name s. apply fast_search_spec. Qed.

(** X25. [_comprehensive_search] always asks the five sources
    [semantic_scholar], [openalex], [orcid], [dblp], [crossref], in this
    order, and then at most [semantic_scholar_detailed], which is asked only
    when Semantic Scholar was successful.  The successful sources are a
    subsequence of the attempted ones and are the keys of the returned
    [combined_data].  The only exception that leaves the method is the
    [AttributeError] of [.get] on a Semantic Scholar hit that is not an
    object, raised by the condition of the last block, outside its [try]:
    then Semantic Scholar is among the successful sources and the detailed
    lookup was not attempted. *)
Theorem comprehensive_search_asks_all_sources :
  forall (W A : Type) (self : AuthorService.Service W A)
         (author_name : string) (s : AuthorService.St W),
  exists o w' extra new,
    AuthorService._comprehensive_search self author_name s
    = (o, AuthorService.mkSt w'
            (AuthorService.attempted s ++ five_sources ++ extra)
            (AuthorService.successful s ++ new)
            (AuthorService.sleeps s))
    /\ sublist new (five_sources ++ extra)
    /\ (extra = []
        \/ extra = ["semantic_scholar_detailed"]
           /\ "semantic_scholar" ∈ new)
    /\ match o with
       | Returns combined_data => keys_are combined_data new
       | Raises e =>
           (exists v, e = Messaging.Handlers.no_attribute v "get")
           /\ extra = [] /\ "semantic_scholar" ∈ new
       end.
Proof. intros W A self author_name s. apply comprehensive_search_spec. Qed.

(** X26. [search_author] never raises, for any strategy string and
    whatever the sources and [_create_enhanced_author] do.  Its response
    carries the strategy it was called with; the successful sources are a
    subsequence of the attempted ones; a success has an author, no error
    and at least one successful source; a failure has an error and no
    author.  The two lists are local to the call. *)
Theorem search_author_response_consistent :
  forall (W A : Type) (self : AuthorService.Service W A)
         (author_name strategy : string) (s : AuthorService.St W),
  exists r w',
    AuthorService.search_author self author_name strategy s
    = (Returns r,
       AuthorService.mkSt w' (AuthorService.attempted s)
         (AuthorService.successful s) (AuthorService.sleeps s))
    /\ AuthorService.search_strategy r = strategy
    /\ response_consistent r.
Proof.
  intros W A self author_name strategy s.
  destruct (search_author_spec self author_name strategy s)
    as (r & w' & Hrun & Hstrat & Hcons & _).
  by exists r, w'.
Qed.

(** X27. The sources a response of [search_author] lists as attempted are
    fixed by the strategy, not by what the sources answer:
    [semantic_scholar] alone for [semantic_scholar_only], [semantic_scholar]
    and [openalex] for [fast], and for every other strategy string the five
    sources of the comprehensive search, followed by
    [semantic_scholar_detailed] only if Semantic Scholar is among the
    successful sources. *)
Theorem search_author_sources_by_strategy :
  forall (W A : Type) (self : AuthorService.Service W A)
         (author_name strategy : string) (s : AuthorService.St W),
  exists r extra,
    fst (AuthorService.search_author self author_name strategy s) = Returns r
    /\ AuthorService.sources_attempted r = planned_sources strategy ++ extra
    /\ (extra = []
        \/ extra = ["semantic_scholar_detailed"]
           /\ strategy <> "semantic_scholar_only"
           /\ strategy <> "fast"
           /\ "semantic_scholar" ∈ AuthorService.sources_successful r).
Proof.
  intros W A self author_name strategy s.
  destruct (search_author_spec self author_name strategy s)
    as (r & w' & Hrun & _ & _ & extra & Hatt & Hextra).
  exists r, extra. by rewrite Hrun.
Qed.

(** X28. [search_authors_batch] never raises and returns one response per
    name, in the order of the names: the response at a position is one that
    [search_author] gave for the name at that position.  It sleeps once
    per name.  Its [except] branch is never taken, since [search_author]
    does not raise: no response of the batch has an empty
    [sources_attempted], as the fallback response of that branch would. *)
Theorem search_authors_batch_one_response_per_name :
  forall (W A : Type) (self : AuthorService.Service W A)
         (author_names : list string) (strategy : string)
         (s : AuthorService.St W),
  exists rs w',
    AuthorService.search_authors_batch self author_names strategy s
    = (Returns rs,
       AuthorService.mkSt w' (AuthorService.attempted s)
         (AuthorService.successful s)
         (AuthorService.sleeps s + length author_names)%nat)
    /\ Forall2 (answers self strategy) author_names rs
    /\ Forall (fun r => AuthorService.search_strategy r = strategy
                        /\ response_consistent r
                        /\ AuthorService.sources_attempted r <> []) rs.
Proof.
  intros W A self author_names strategy s.
  destruct (search_authors_batch_from_spec self author_names strategy [] s)
    as (rs & w' & Hrun & Hall).
  exists rs, w'. split; [done|]. split; [done|].
  clear Hrun.
  induction Hall as [|author_name r names rs' Hr _ IH]; [constructor|].
  constructor; [|done].
  by apply (answers_spec self strategy author_name).
Qed.

(* ===================================================================== *)
(** * Deliveries whose decoding and settlement can fail *)
(* ===================================================================== *)

Section DeliveryFacts.
Import Messaging Messaging.Connection Messaging.Handlers Messaging.Consumer.
Context {W : Type}.

(** On a delivery of the kind [Handlers] is about, the two models of
    [handle_message] are the same function. *)
Lemma reliable_handle_message (h : WebSearchMessageHandler W)
    (message : Messaging.IncomingMessage) (s : Messaging.St W) :
  Delivery.handle_message h (Delivery.reliable message) s
  = Handlers.handle_message h message s.
Proof.
  unfold Delivery.handle_message, Handlers.handle_message, try_except,
    Delivery._parse_message, Handlers._parse_message, Delivery.await_reject,
    Delivery.await_ack, bind, of_outcome, Messaging.emit, Messaging.call,
    modify, ret.
  cbn [Delivery.reliable Delivery.body Delivery.ack Delivery.reject].
  destruct (Messaging.body message) as [|v]; cbn [truthy negb];
    [reflexivity|].
  destruct (truthy v); cbn [negb]; [|reflexivity].
  destruct (_validate_websearch_message v) as [[|]|e]; cbn [negb];
    [|reflexivity..].
  destruct (py_get v "correlationId" (VStr "unknown")) as [c|e];
    [|reflexivity].
  destruct (run_agent h v s) as [[result|e] s1]; [|reflexivity].
  destruct (publish_result h result s1) as [[[]|e] s2]; reflexivity.
Qed.

(** The same for [_process_message]. *)
Lemma reliable_process_message (self : ScholarAIConsumer W)
    (message : Messaging.IncomingMessage) (s : Messaging.St W) :
  Delivery._process_message self (Delivery.reliable message) s
  = Consumer._process_message self message s.
Proof.
  unfold Delivery._process_message, Consumer._process_message, try_except.
  change (Delivery._extract_message_type (Delivery.reliable (W:=W) message))
    with (Consumer._extract_message_type message).
  destruct (get_handler _ _) as [handler|].
  - unfold bind. rewrite reliable_handle_message.
    destruct (Handlers.handle_message _ message s) as [[b|e] s1];
      [reflexivity|]. by destruct s1.
  - by destruct s.
Qed.

(** The [except] clause of [handle_message]. *)
Lemma reject_clause {A} (message : Delivery.IncomingMessage W) requeue
    (fallback : A) (s : Messaging.St W) :
  (Delivery.await_reject message requeue ;;; ret fallback) s
  = (match fst (Delivery.reject message requeue (Messaging.world s)) with
     | Returns _ => Returns fallback
     | Raises e => Raises e
     end,
     Messaging.mkSt
       (snd (Delivery.reject message requeue (Messaging.world s)))
       (Messaging.trace s ++ [Reject requeue])).
Proof.
  unfold Delivery.await_reject, bind, Messaging.emit, modify, Messaging.call,
    ret.
  cbn [Messaging.world Messaging.trace].
  by destruct (Delivery.reject message requeue (Messaging.world s))
    as [[[]|e] w'].
Qed.

Lemma after_reject_clause {A} (message : Delivery.IncomingMessage W) requeue
    (fallback : A) w :
  after_reject message requeue fallback
    (match fst (Delivery.reject message requeue w) with
     | Returns _ => Returns fallback
     | Raises e => Raises e
     end).
Proof.
  destruct (fst (Delivery.reject message requeue w)) as [[]|e] eqn:Hr.
  - by left.
  - right. by exists e, w.
Qed.

Lemma after_reject_reliable {A} (message : Delivery.IncomingMessage W)
    requeue (fallback : A) o :
  rejects_reliably message ->
  after_reject message requeue fallback o -> o = Returns fallback.
Proof.
  intros Hrel [->|(e & w & -> & Hr)]; [done|].
  by rewrite (Hrel requeue w) in Hr.
Qed.

(** The settlement calls of one [handle_message]. *)
Lemma handle_message_settled (h : WebSearchMessageHandler W)
    (message : Delivery.IncomingMessage W) (s : Messaging.St W) :
  exists o w' tr,
    Delivery.handle_message h message s
    = (o, Messaging.mkSt w' (Messaging.trace s ++ tr))
    /\ settled message o (settlement_calls tr).
Proof.
  destruct (left_unsettled (Delivery.body message)) eqn:Hleft.
  { exists (Returns false), (Messaging.world s), []. rewrite app_nil_r.
    split; [|by apply settled_not].
    unfold Delivery.handle_message, try_except, Delivery._parse_message,
      bind, of_outcome.
    destruct (Delivery.body message) as [|v|e]; cbn in Hleft.
    - by destruct s.
    - apply negb_true_iff in Hleft. cbn [negb]. rewrite Hleft. by destruct s.
    - discriminate. }
  assert (Hclause : forall e (s1 : Messaging.St W) pre e0 wa,
            Messaging.trace s1 = Messaging.trace s ++ pre ->
            settlement_calls pre = []
            \/ (settlement_calls pre = [Ack]
                /\ fst (Delivery.ack message wa) = Raises e0)
            \/ (settlement_calls pre = [Reject false]
                /\ fst (Delivery.reject message false wa) = Raises e0) ->
            exists o w' tr,
              (Delivery.await_reject message (should_requeue e) ;;; ret false)
                s1
              = (o, Messaging.mkSt w' (Messaging.trace s ++ tr))
              /\ settled message o (settlement_calls tr)).
  { intros e s1 pre e0 wa Htr Hpre. rewrite reject_clause, Htr.
    eexists _, _, (pre ++ [Reject (should_requeue e)]).
    split; [by rewrite <- app_assoc|].
    unfold settlement_calls in *. rewrite filter_app.
    destruct Hpre as [->|[[-> Hack]|[-> Hrej]]]; cbn [app].
    - apply settled_reject; [done|]. apply after_reject_clause.
    - eapply settled_ack_raised; [done|exact Hack|].
      apply after_reject_clause.
    - eapply settled_reject_raised; [done|exact Hrej|].
      apply after_reject_clause. }
  assert (Hclause0 : forall e (s1 : Messaging.St W) pre,
            Messaging.trace s1 = Messaging.trace s ++ pre ->
            settlement_calls pre = [] ->
            exists o w' tr,
              (Delivery.await_reject message (should_requeue e) ;;; ret false)
                s1
              = (o, Messaging.mkSt w' (Messaging.trace s ++ tr))
              /\ settled message o (settlement_calls tr)).
  { intros e s1 pre Htr Hpre.
    apply (Hclause e s1 pre e (Messaging.world s)); [done|by left]. }
  assert (Hack : forall (s2 : Messaging.St W) pre,
            Messaging.trace s2 = Messaging.trace s ++ pre ->
            settlement_calls pre = [] ->
            exists o w' tr,
              match
                (Delivery.await_ack message ;;; ret true) s2
              with
              | (Returns a, s') => (Returns a, s')
              | (Raises e, s') =>
                  (Delivery.await_reject message (should_requeue e) ;;;
                   ret false) s'
              end
              = (o, Messaging.mkSt w' (Messaging.trace s ++ tr))
              /\ settled message o (settlement_calls tr)).
  { intros s2 pre Htr Hpre.
    unfold Delivery.await_ack, bind at 1 2 3, Messaging.emit at 1, modify,
      Messaging.call, ret.
    cbn [Messaging.world Messaging.trace].
    destruct (Delivery.ack message (Messaging.world s2))
      as [[[]|e] w3] eqn:Hackrun.
    - eexists _, w3, (pre ++ [Ack]).
      split; [by rewrite Htr, <- app_assoc|].
      unfold settlement_calls in *. rewrite filter_app, Hpre.
      by apply settled_ack.
    - apply (Hclause e _ (pre ++ [Ack]) e (Messaging.world s2));
        [cbn; by rewrite Htr, <- app_assoc|].
      right. left. unfold settlement_calls in *.
      rewrite filter_app, Hpre. split; [done|]. by rewrite Hackrun. }
  assert (Hnil : Messaging.trace s = Messaging.trace s ++ []).
  { by rewrite app_nil_r. }
  assert (Hinvalid :
            exists o w' tr,
              match (Delivery.await_reject message false ;;; ret false) s with
              | (Returns a, s') => (Returns a, s')
              | (Raises e, s') =>
                  (Delivery.await_reject message (should_requeue e) ;;;
                   ret false) s'
              end
              = (o, Messaging.mkSt w' (Messaging.trace s ++ tr))
              /\ settled message o (settlement_calls tr)).
  { unfold Delivery.await_reject at 1, bind at 1 2 3,
      Messaging.emit at 1, modify, Messaging.call, ret.
    cbn [Messaging.world Messaging.trace].
    destruct (Delivery.reject message false (Messaging.world s))
      as [[[]|e] w1] eqn:Hrej.
    - eexists _, w1, [Reject false].
      split; [done|]. apply settled_reject; [done|]. by left.
    - apply (Hclause e _ [Reject false] e (Messaging.world s)); [done|].
      right. right. split; [done|]. by rewrite Hrej. }
  unfold Delivery.handle_message, try_except, Delivery._parse_message.
  unfold bind at 1, of_outcome at 1.
  destruct (Delivery.body message) as [|v|e]; cbn in Hleft.
  - discriminate.
  - rewrite Hleft.
    unfold bind at 1, of_outcome at 1.
    destruct (_validate_websearch_message v) as [[|]|e]; cbn [negb].
    + unfold bind at 1, of_outcome at 1.
      destruct (py_get v "correlationId" (VStr "unknown")) as [c|e].
      2:{ by apply (Hclause0 e s []). }
      unfold bind at 1, run_agent.
      destruct (websearch_agent h) as [agent|].
      2:{ unfold raise. by apply (Hclause0 _ s []). }
      unfold bind at 1 2 3, Messaging.emit at 1 2, modify, Messaging.call.
      cbn [Messaging.world Messaging.trace].
      destruct (process_request agent v (Messaging.world s))
        as [[result|e] w1].
      2:{ by apply (Hclause0 e _ [AgentCalled v]). }
      cbn [Messaging.world Messaging.trace]. unfold ret at 1.
      unfold bind at 1, publish_result.
      destruct (Handlers.connection_manager h) as [cm|].
      2:{ unfold ret at 1.
          apply (Hack _ [AgentCalled v; AgentReturned result]); [|done].
          cbn. by rewrite <- app_assoc. }
      unfold publish_websearch_result, bind at 1.
      match goal with
      | |- context [publish_message cm ?k result ?st] =>
          destruct (publish_message_returns cm k result st) as (ok & w2 & ->)
      end.
      unfold bind at 1 2, Messaging.emit at 1, modify, of_outcome.
      cbn [Messaging.world Messaging.trace].
      destruct (py_get result "correlationId" (VStr "unknown")) as [c'|e].
      * unfold ret at 1.
        apply (Hack _ [AgentCalled v; AgentReturned result;
                       PublishReturned result ok]); [|done].
        cbn. by rewrite <- !app_assoc.
      * apply (Hclause0 e _ [AgentCalled v; AgentReturned result;
                             PublishReturned result ok]); [|done].
        cbn. by rewrite <- !app_assoc.
    + exact Hinvalid.
    + by apply (Hclause0 e s []).
  - by apply (Hclause0 e s []).
Qed.

Lemma settled_at_most_twice (message : Delivery.IncomingMessage W) o calls :
  settled message o calls -> (length calls <= 2)%nat.
Proof. destruct 1; cbn; lia. Qed.

Lemma settled_raises (message : Delivery.IncomingMessage W) e calls :
  settled message (Raises e) calls ->
  exists requeue w,
    last calls = Some (Reject requeue)
    /\ fst (Delivery.reject message requeue w) = Raises e.
Proof.
  assert (Hraise : forall requeue,
            after_reject message requeue false (Raises e) ->
            exists w, fst (Delivery.reject message requeue w) = Raises e).
  { intros requeue [?|(e' & w & [= ->] & Hr)]; [done|]. by exists w. }
  inversion 1; subst;
    match goal with
    | H : after_reject _ ?rq _ _ |- _ =>
        destruct (Hraise rq H) as [w0 Hw0]; by exists rq, w0
    end.
Qed.

Lemma settled_reliably (message : Delivery.IncomingMessage W) o calls :
  rejects_reliably message ->
  settled message o calls ->
  exists b, o = Returns b.
Proof.
  intros Hrel. destruct 1; eauto;
    match goal with
    | H : after_reject _ _ _ _ |- _ =>
        rewrite (after_reject_reliable _ _ _ _ Hrel H); eauto
    end.
Qed.

Lemma settled_once (message : Delivery.IncomingMessage W) o calls :
  settles_reliably message ->
  settled message o calls ->
  length calls
  = (if left_unsettled (Delivery.body message) then 0 else 1)%nat
  /\ (o = Returns true <-> calls = [Ack]).
Proof.
  intros [Hack Hrej]. destruct 1 as [Hb|Hb|rq o Hb Ho|e w rq o Hb He Ho
                                    |e w rq o Hb He Ho]; rewrite ?Hb.
  - split; [done|]. split; discriminate.
  - split; [done|]. split; done.
  - split; [done|]. rewrite (after_reject_reliable _ _ _ _ Hrej Ho).
    split; discriminate.
  - by rewrite (Hack w) in He.
  - by rewrite (Hrej false w) in He.
Qed.

(** [_process_message] when the [reject] calls return. *)
Lemma process_message_reliable (self : ScholarAIConsumer W)
    (message : Delivery.IncomingMessage W) (s : Messaging.St W) :
  rejects_reliably message ->
  Delivery._process_message self message s
  = match get_handler (handler_factory self)
            (Delivery._extract_message_type message)
    with
    | None =>
        (Returns tt,
         Messaging.mkSt
           (snd (Delivery.reject message false (Messaging.world s)))
           (Messaging.trace s ++ [Reject false]))
    | Some handler =>
        (Returns tt,
         snd (Delivery.handle_message
                (handler_at (handler_objects self) handler) message s))
    end.
Proof.
  intros Hrel. unfold Delivery._process_message, try_except.
  destruct (get_handler _ _) as [handler|].
  - unfold bind.
    destruct (handle_message_settled
                (handler_at (handler_objects self) handler) message s)
      as (o & w' & tr & Hrun & Hsettled).
    destruct (settled_reliably message o _ Hrel Hsettled) as [b ->].
    by rewrite Hrun.
  - rewrite reject_clause. by rewrite (Hrel false (Messaging.world s)).
Qed.

(** The settlement calls of one [_process_message]. *)
Lemma process_message_settled (self : ScholarAIConsumer W)
    (message : Delivery.IncomingMessage W) (s : Messaging.St W) :
  exists o w' tr,
    Delivery._process_message self message s
    = (o, Messaging.mkSt w' (Messaging.trace s ++ tr))
    /\ (length (settlement_calls tr) <= 3)%nat
    /\ (forall e, o = Raises e ->
          last tr = Some (Reject true)
          /\ exists w, fst (Delivery.reject message true w) = Raises e).
Proof.
  assert (Hclause : forall (s1 : Messaging.St W) pre,
            Messaging.trace s1 = Messaging.trace s ++ pre ->
            (length (settlement_calls pre) <= 2)%nat ->
            exists o w' tr,
              (Delivery.await_reject message true ;;; ret tt) s1
              = (o, Messaging.mkSt w' (Messaging.trace s ++ tr))
              /\ (length (settlement_calls tr) <= 3)%nat
              /\ (forall e, o = Raises e ->
                    last tr = Some (Reject true)
                    /\ exists w,
                        fst (Delivery.reject message true w) = Raises e)).
  { intros s1 pre Htr Hpre. rewrite reject_clause, Htr.
    eexists _, _, (pre ++ [Reject true]).
    split; [by rewrite <- app_assoc|]. split.
    - unfold settlement_calls in *.
      rewrite filter_app, length_app, filter_cons_True by done.
      rewrite filter_nil. cbn [length]. lia.
    - intros e He. split; [apply last_snoc|].
      exists (Messaging.world s1).
      by destruct (fst (Delivery.reject message true (Messaging.world s1)))
        as [[]|e']; inversion He. }
  unfold Delivery._process_message, try_except.
  destruct (get_handler _ _) as [handler|].
  - unfold bind.
    destruct (handle_message_settled
                (handler_at (handler_objects self) handler) message s)
      as (o & w' & tr & Hrun & Hsettled).
    rewrite Hrun. destruct o as [b|e].
    + exists (Returns tt), w', tr. split; [done|]. split; [|done].
      pose proof (settled_at_most_twice message _ _ Hsettled). lia.
    + apply (Hclause _ tr); [done|].
      by apply (settled_at_most_twice message (Raises e)).
  - unfold Delivery.await_reject at 1, bind at 1 2, Messaging.emit at 1,
      modify, Messaging.call.
    cbn [Messaging.world Messaging.trace].
    destruct (Delivery.reject message false (Messaging.world s))
      as [[[]|e] w1].
    + exists (Returns tt), w1, [Reject false]. split; [done|].
      split; [vm_compute; lia|done].
    + apply (Hclause _ [Reject false]); [done|vm_compute; lia].
Qed.

End DeliveryFacts.

(** X2. When the body of a delivery is not JSON text ([UnicodeDecodeError]
    or [JSONDecodeError], the two errors [_parse_message] catches) or
    parses to a falsy value (null, an empty object, list or string, zero,
    false), [handle_message] returns [False] and does nothing else: no
    settlement call is made and the agent is not called.  When parsing
    raises any other exception (a [RecursionError] on deeply nested input,
    a [ValueError] on an over-long integer literal), the exception reaches
    the [except] clause of [handle_message]: the delivery is rejected, with
    requeue unless the text of the exception names a missing attribute, and
    the call returns [False] if that [reject] returns. *)
Theorem handle_message_falsy_body_unsettled :
  forall (W : Type) (h : Messaging.Handlers.WebSearchMessageHandler W)
         (message : Messaging.Delivery.IncomingMessage W)
         (s : Messaging.St W),
    (left_unsettled (Messaging.Delivery.body message) = true ->
     Messaging.Delivery.handle_message h message s = (Returns false, s))
    /\ (forall e,
          Messaging.Delivery.body message = Messaging.Delivery.LoadsRaises e ->
          Messaging.Delivery.handle_message h message s
          = (match fst (Messaging.Delivery.reject message
                          (Messaging.Handlers.should_requeue e)
                          (Messaging.world s)) with
             | Returns _ => Returns false
             | Raises e' => Raises e'
             end,
             Messaging.mkSt
               (snd (Messaging.Delivery.reject message
                       (Messaging.Handlers.should_requeue e)
                       (Messaging.world s)))
               (Messaging.trace s
                ++ [Messaging.Reject (Messaging.Handlers.should_requeue e)]))).
Proof.
  intros W h message s. split.
  - intros Hleft.
    unfold Messaging.Delivery.handle_message, try_except,
      Messaging.Delivery._parse_message, bind, of_outcome.
    destruct (Messaging.Delivery.body message) as [|v|e]; cbn in Hleft.
    + reflexivity.
    + by rewrite Hleft.
    + discriminate.
  - intros e Hbody.
    unfold Messaging.Delivery.handle_message, try_except,
      Messaging.Delivery._parse_message.
    unfold bind at 1, of_outcome at 1. rewrite Hbody.
    apply reject_clause.
Qed.

Lemma handle_message_falsy_body_unsettled_witness :
  Messaging.Delivery.handle_message
    (Messaging.Handlers.initialize
       Messaging.Handlers.WebSearchMessageHandler_new
       Demo.agent Demo.connection)
    Demo.garbled (Messaging.mkSt tt [])
  = (Returns false, Messaging.mkSt tt []).
Proof.
  apply (handle_message_falsy_body_unsettled unit
           (Messaging.Handlers.initialize
              Messaging.Handlers.WebSearchMessageHandler_new
              Demo.agent Demo.connection)
           Demo.garbled (Messaging.mkSt tt [])).
  reflexivity.
Defined.

(** A body nested too deeply for [json.loads] is rejected with requeue. *)
Example handle_message_unparsed_requeued :
  Messaging.Delivery.handle_message
    (Messaging.Handlers.initialize
       Messaging.Handlers.WebSearchMessageHandler_new
       Demo.agent Demo.connection)
    Demo.nested_delivery (Messaging.mkSt tt [])
  = (Returns false, Messaging.mkSt tt [Messaging.Reject true]).
Proof. vm_compute. reflexivity. Qed.

(** X3. A delivery whose body parses to a non-empty JSON object without a
    ["projectId"] key, or whose ["queryTerms"] is missing, not a list or an
    empty list, is rejected without requeue, and the agent is never called
    for it.  When that [reject] returns it is the only event and the result
    is [False]; when it raises, the [except] clause rejects the delivery
    once more, with the requeue flag computed from the exception, and the
    result is [False] or the exception of the second [reject]. *)
Theorem handle_message_invalid_object_rejected :
  forall (W : Type) (h : Messaging.Handlers.WebSearchMessageHandler W)
         (message : Messaging.Delivery.IncomingMessage W)
         (kvs : list (string * PyVal)) (s : Messaging.St W),
    Messaging.Delivery.body message
    = Messaging.Delivery.Loaded (VDict kvs) ->
    kvs <> [] ->
    (assoc "projectId" kvs = None
     \/ forall term terms,
         assoc "queryTerms" kvs <> Some (VList (term :: terms))) ->
    Messaging.Delivery.handle_message h message s
    = match Messaging.Delivery.reject message false (Messaging.world s) with
      | (Returns _, w1) =>
          (Returns false,
           Messaging.mkSt w1 (Messaging.trace s ++ [Messaging.Reject false]))
      | (Raises e, w1) =>
          (match fst (Messaging.Delivery.reject message
                        (Messaging.Handlers.should_requeue e) w1) with
           | Returns _ => Returns false
           | Raises e' => Raises e'
           end,
           Messaging.mkSt
             (snd (Messaging.Delivery.reject message
                     (Messaging.Handlers.should_requeue e) w1))
             (Messaging.trace s
              ++ [Messaging.Reject false;
                  Messaging.Reject (Messaging.Handlers.should_requeue e)]))
      end.
Proof.
  intros W h message kvs s Hbody Hne Hbad.
  assert (Hvalid : Messaging.Handlers._validate_websearch_message (VDict kvs)
                   = Returns false).
  { rewrite validate_dict.
    destruct Hbad as [-> | Hterms]; [reflexivity|].
    destruct (assoc "projectId" kvs); [|reflexivity].
    destruct (assoc "queryTerms" kvs) as [[| | | | |[|x l]|]|];
      try reflexivity.
    by destruct (Hterms x l). }
  unfold Messaging.Delivery.handle_message, try_except,
    Messaging.Delivery._parse_message.
  unfold bind at 1, of_outcome at 1. rewrite Hbody.
  assert (Htruthy : truthy (VDict kvs) = true) by by destruct kvs.
  rewrite Htruthy. cbn [negb].
  unfold bind at 1, of_outcome at 1. rewrite Hvalid. cbn [negb].
  unfold Messaging.Delivery.await_reject at 1, bind at 1 2,
    Messaging.emit at 1, modify, Messaging.call.
  cbn [Messaging.world Messaging.trace].
  destruct (Messaging.Delivery.reject message false (Messaging.world s))
    as [[[]|e] w1]; [reflexivity|].
  rewrite reject_clause. cbn [Messaging.world Messaging.trace].
  by rewrite <- app_assoc.
Qed.

Lemma handle_message_invalid_object_rejected_witness :
  Messaging.Delivery.handle_message
    (Messaging.Handlers.initialize
       Messaging.Handlers.WebSearchMessageHandler_new
       Demo.agent Demo.connection)
    Demo.closed_channel_invalid (Messaging.mkSt tt [])
  = (Raises (mkExc OtherError "channel closed"),
     Messaging.mkSt tt [Messaging.Reject false; Messaging.Reject true]).
Proof.
  apply (handle_message_invalid_object_rejected unit
           (Messaging.Handlers.initialize
              Messaging.Handlers.WebSearchMessageHandler_new
              Demo.agent Demo.connection)
           Demo.closed_channel_invalid [("projectId", VStr "p-1")]
           (Messaging.mkSt tt [])).
  - reflexivity.
  - discriminate.
  - right. intros term terms. discriminate.
Defined.

(** X8. The settlement calls of one [handle_message], for every handler,
    every body and whatever the settlement calls do.  The method makes none
    (on a body it gives up on), one acknowledgement, one rejection, or two
    calls: an [ack] or a [reject(requeue=False)] that raised, followed by
    the [reject] of the [except] clause; never more than two.  It raises
    only when its last call, a [reject], raised, and then it raises that
    exception; so it returns whenever the [reject] calls return.  When all
    settlement calls return, it settles a delivery it does not give up on
    exactly once, and it returns [True] exactly when that one call is the
    acknowledgement. *)
Theorem handle_message_settlement_calls :
  forall (W : Type) (h : Messaging.Handlers.WebSearchMessageHandler W)
         (message : Messaging.Delivery.IncomingMessage W)
         (s : Messaging.St W),
  exists o w' tr,
    Messaging.Delivery.handle_message h message s
    = (o, Messaging.mkSt w' (Messaging.trace s ++ tr))
    /\ settled message o (settlement_calls tr)
    /\ (length (settlement_calls tr) <= 2)%nat
    /\ (forall e, o = Raises e ->
          exists requeue w,
            last (settlement_calls tr) = Some (Messaging.Reject requeue)
            /\ fst (Messaging.Delivery.reject message requeue w) = Raises e)
    /\ (rejects_reliably message -> exists b, o = Returns b)
    /\ (settles_reliably message ->
          length (settlement_calls tr)
          = (if left_unsettled (Messaging.Delivery.body message)
             then 0 else 1)%nat
          /\ (o = Returns true <-> settlement_calls tr = [Messaging.Ack])).
Proof.
  intros W h message s.
  destruct (handle_message_settled h message s)
    as (o & w' & tr & Hrun & Hsettled).
  exists o, w', tr. split; [done|]. split; [done|].
  split; [by apply (settled_at_most_twice message o)|].
  split; [intros e ->; by apply settled_raises|].
  split.
  { intros Hrel.
    by apply (settled_reliably message o (settlement_calls tr) Hrel). }
  intros Hrel. by apply settled_once.
Qed.

Lemma handle_message_settlement_calls_witness :
  exists b w' tr,
    Messaging.Delivery.handle_message
      (Messaging.Handlers.initialize
         Messaging.Handlers.WebSearchMessageHandler_new
         Demo.agent Demo.connection)
      Demo.settled_request (Messaging.mkSt tt [])
    = (Returns b, Messaging.mkSt w' ([] ++ tr))
    /\ length (settlement_calls tr) = 1%nat.
Proof.
  destruct (handle_message_settlement_calls unit
              (Messaging.Handlers.initialize
                 Messaging.Handlers.WebSearchMessageHandler_new
                 Demo.agent Demo.connection)
              Demo.settled_request (Messaging.mkSt tt []))
    as (o & w' & tr & Hrun & _ & _ & _ & Hreturns & Honce).
  destruct Hreturns as [b ->]; [intros requeue w; reflexivity|].
  destruct Honce as [Hlength _].
  { split; [intros w; reflexivity|intros requeue w; reflexivity]. }
  by exists b, w', tr.
Defined.

(** The run with two settlement calls: on a closed channel the
    acknowledgement of a served request raises, the [except] clause rejects
    the delivery with requeue, and that call raises out of the method. *)
Example handle_message_ack_then_reject :
  Messaging.Delivery.handle_message
    (Messaging.Handlers.initialize
       Messaging.Handlers.WebSearchMessageHandler_new
       Demo.agent Demo.connection)
    Demo.closed_channel_request (Messaging.mkSt tt [])
  = (Raises (mkExc OtherError "channel closed"),
     Messaging.mkSt tt
       [Messaging.AgentCalled
          (VDict [("projectId", VStr "p-1");
                  ("queryTerms", VList [VStr "attention"])]);
        Messaging.AgentReturned
          (VDict [("correlationId", VStr "c-1"); ("papers", VList [])]);
        Messaging.PublishReturned
          (VDict [("correlationId", VStr "c-1"); ("papers", VList [])]) true;
        Messaging.Ack;
        Messaging.Reject true]).
Proof. vm_compute. reflexivity. Qed.

(** X12. [_process_message].  When the [reject] calls on the delivery
    return, it never raises and its [except] clause is not reached: with no
    handler for the message type and no default handler it rejects the
    delivery without requeue and does nothing else; with a handler its
    events are exactly those of that handler's [handle_message].  In
    general it makes at most three settlement calls, and it raises only
    the exception of its own [reject(requeue=True)], made in the [except]
    clause after an earlier [reject] raised. *)
Theorem process_message_dispatch :
  forall (W : Type) (self : Messaging.Consumer.ScholarAIConsumer W)
         (message : Messaging.Delivery.IncomingMessage W)
         (s : Messaging.St W),
    (rejects_reliably message ->
     Messaging.Delivery._process_message self message s
     = match Messaging.Handlers.get_handler
               (Messaging.Consumer.handler_factory self)
               (Messaging.Delivery._extract_message_type message)
       with
       | None =>
           (Returns tt,
            Messaging.mkSt
              (snd (Messaging.Delivery.reject message false
                      (Messaging.world s)))
              (Messaging.trace s ++ [Messaging.Reject false]))
       | Some handler =>
           (Returns tt,
            snd (Messaging.Delivery.handle_message
                   (Messaging.Consumer.handler_at
                      (Messaging.Consumer.handler_objects self) handler)
                   message s))
       end)
    /\ exists o w' tr,
        Messaging.Delivery._process_message self message s
        = (o, Messaging.mkSt w' (Messaging.trace s ++ tr))
        /\ (length (settlement_calls tr) <= 3)%nat
        /\ (forall e, o = Raises e ->
              last tr = Some (Messaging.Reject true)
              /\ exists w,
                  fst (Messaging.Delivery.reject message true w) = Raises e).
Proof.
  intros W self message s. split.
  - intros Hrel. by apply process_message_reliable.
  - apply process_message_settled.
Qed.

Lemma process_message_dispatch_witness :
  Messaging.Delivery._process_message Demo.bare_consumer
    (Messaging.Delivery.reliable Demo.stray_delivery) (Messaging.mkSt tt [])
  = (Returns tt, Messaging.mkSt tt [Messaging.Reject false]).
Proof.
  apply (process_message_dispatch unit Demo.bare_consumer
           (Messaging.Delivery.reliable Demo.stray_delivery)
           (Messaging.mkSt tt [])).
  intros requeue w. reflexivity.
Defined.

(** The run with three settlement calls: an invalid request on a closed
    channel is rejected by the handler, twice, and once more by the
    consumer, whose own [reject] raises out of [_process_message]. *)
Example process_message_three_rejections :
  Messaging.Delivery._process_message
    (Messaging.Consumer.initialize_handlers
       (Messaging.Consumer.ScholarAIConsumer_new Demo.connection) Demo.agent)
    Demo.closed_channel_invalid (Messaging.mkSt tt [])
  = (Raises (mkExc OtherError "channel closed"),
     Messaging.mkSt tt
       [Messaging.Reject false; Messaging.Reject true;
        Messaging.Reject true]).
Proof. vm_compute. reflexivity. Qed.
